(** * Test Automation Report API: ingestion, retrieval and validation

    A shallow embedding of [src/schemas.py] (the pydantic models) and of
    [src/main.py] (the request handlers), over a model of the document
    store the handlers talk to, followed by the properties of the
    specification that can be settled on it. *)

From Stdlib Require Import ZArith NArith List String Ascii Bool Lia.
From Stdlib Require Import Sorting.Sorted Sorting.Permutation.
Import ListNotations.

Local Open Scope string_scope.
Local Open Scope list_scope.
Local Open Scope Z_scope.
Local Set Warnings "-register-all".

(** ** Identifiers of the store (bson.ObjectId)

    An ObjectId holds bytes, twelve of them when the driver generates it,
    and [str] renders them as lower-case hexadecimal digits, two a byte.
    [ObjectId(s)] takes a string of 24 characters and reads it with
    [bytes.fromhex]: pairs of hexadecimal digits in either case, with ASCII
    whitespace skipped before a pair and at the end.  So a string that has
    whitespace among its 24 characters is taken too, for fewer than twelve
    bytes.  The value is kept in its rendering, so two ObjectIds are equal
    exactly when their renderings are. *)

Module ObjectId.

Inductive t : Set := Oid (hex : string).

Definition str (o : t) : string := let (h) := o in h.

Definition eqb (a b : t) : bool := String.eqb (str a) (str b).

Definition hexchar (d : N) : ascii :=
  match d with
  | 0%N => "0" | 1%N => "1" | 2%N => "2" | 3%N => "3"
  | 4%N => "4" | 5%N => "5" | 6%N => "6" | 7%N => "7"
  | 8%N => "8" | 9%N => "9" | 10%N => "a" | 11%N => "b"
  | 12%N => "c" | 13%N => "d" | 14%N => "e" | _ => "f"
  end%char.

(** The [k] low hexadecimal digits of [n], least significant first. *)
Fixpoint digits_le (k : nat) (n : N) : list N :=
  match k with
  | O => []
  | S k' => (n mod 16)%N :: digits_le k' (n / 16)%N
  end.

Definition hex24 (n : N) : string :=
  string_of_list_ascii (map hexchar (rev (digits_le 24 n))).

(** The identifier the driver generates from its counter. *)
Definition generate (n : N) : t := Oid (hex24 n).

(** A hexadecimal digit, lower-cased; [None] for any other character. *)
Definition hexdigit (c : ascii) : option ascii :=
  match c with
  | "0" | "1" | "2" | "3" | "4" | "5" | "6" | "7" | "8" | "9"
  | "a" | "b" | "c" | "d" | "e" | "f" => Some c
  | "A" => Some "a" | "B" => Some "b" | "C" => Some "c"
  | "D" => Some "d" | "E" => Some "e" | "F" => Some "f"
  | _ => None
  end%char.

(** ASCII whitespace: tab, line feed, vertical tab, form feed, carriage
    return and space. *)
Definition is_space (c : ascii) : bool :=
  let n := N_of_ascii c in
  ((9 <=? n)%N && (n <=? 13)%N) || (n =? 32)%N.

(** [bytes.fromhex], the bytes rendered as [str] renders them.  Whitespace
    is skipped before a pair of digits, not between the two digits of a
    pair; [None] stands for its [ValueError]. *)
Fixpoint fromhex (l : list ascii) : option (list ascii) :=
  match l with
  | [] => Some []
  | c :: r =>
      if is_space c then fromhex r
      else
        match hexdigit c, r with
        | Some top, c' :: r' =>
            match hexdigit c', fromhex r' with
            | Some bot, Some t => Some (top :: bot :: t)
            | _, _ => None
            end
        | _, _ => None
        end
  end.

(** [ObjectId(s)]: [None] stands for bson's [InvalidId]. *)
Definition parse (s : string) : option t :=
  if (String.length s =? 24)%nat
  then option_map (fun l => Oid (string_of_list_ascii l))
                  (fromhex (list_ascii_of_string s))
  else None.

End ObjectId.

(** ** Python values and pydantic validation *)

(** [datetime], as a count of microseconds. *)
Definition datetime : Set := Z.

(** The string [d.isoformat()], kept symbolic. *)
Inductive isostring : Set := isoformat (d : datetime).

(** A decoded request body or a keyword-argument dictionary.  A dictionary
    holds each key once.  A field is validated against the Python type it
    arrives with; pydantic's conversions between scalar types (a numeric
    string given for an integer) are left out. *)
Inductive value : Set :=
| VNone
| VBool (b : bool)
| VInt (z : Z)
| VStr (s : string)
| VDatetime (d : datetime)
| VList (l : list value)
| VDict (d : list (string * value)).

Fixpoint dict_get (k : string) (d : list (string * value)) : option value :=
  match d with
  | [] => None
  | (k', v) :: r => if String.eqb k k' then Some v else dict_get k r
  end.

Definition of_option {A : Type} (f : A -> value) (o : option A) : value :=
  match o with Some a => f a | None => VNone end.

Inductive loc_item : Set := Key (k : string) | Idx (i : nat).

Inductive error_type : Set :=
| missing | string_type | int_type | datetime_type | list_type | model_type
| literal_error | greater_than_equal.

(** One entry of a pydantic [ValidationError]: where, and what. *)
Record ErrorDetails : Set := { loc : list loc_item; type : error_type }.

Inductive validation (A : Type) : Type :=
| Valid (a : A)
| Invalid (errors : list ErrorDetails).
Arguments Valid {A} a.
Arguments Invalid {A} errors.

Definition validator (A : Type) : Type := value -> validation A.

Definition vmap {A B : Type} (f : A -> B) (x : validation A) : validation B :=
  match x with Valid a => Valid (f a) | Invalid e => Invalid e end.

(** pydantic reports the errors of all fields, in field order. *)
Definition vap {A B : Type} (f : validation (A -> B)) (x : validation A)
  : validation B :=
  match f, x with
  | Valid g, Valid a => Valid (g a)
  | Valid _, Invalid e => Invalid e
  | Invalid e, Valid _ => Invalid e
  | Invalid e1, Invalid e2 => Invalid (e1 ++ e2)
  end.

Notation "f <$> x" := (vmap f x) (at level 61, left associativity).
Notation "f <*> x" := (vap f x) (at level 61, left associativity).

Definition at_loc {A : Type} (i : loc_item) (x : validation A) : validation A :=
  match x with
  | Valid a => Valid a
  | Invalid e =>
      Invalid (map (fun d => {| loc := i :: loc d; type := type d |}) e)
  end.

Definition fail {A : Type} (t : error_type) : validation A :=
  Invalid [{| loc := []; type := t |}].

Definition str_v : validator string :=
  fun v => match v with VStr s => Valid s | _ => fail string_type end.

Definition int_v : validator Z :=
  fun v => match v with VInt z => Valid z | _ => fail int_type end.

(** [Field(..., ge=b)] on an integer. *)
Definition int_ge_v (b : Z) : validator Z :=
  fun v => match v with
           | VInt z => if z <? b then fail greater_than_equal else Valid z
           | _ => fail int_type
           end.

Definition datetime_v : validator datetime :=
  fun v => match v with VDatetime d => Valid d | _ => fail datetime_type end.

(** [Literal[...]]. *)
Definition literal_v (allowed : list string) : validator string :=
  fun v => match v with
           | VStr s => if existsb (String.eqb s) allowed then Valid s
                       else fail literal_error
           | _ => fail literal_error
           end.

(** [Optional[T]]. *)
Definition optional_v {A : Type} (p : validator A) : validator (option A) :=
  fun v => match v with VNone => Valid None | _ => Some <$> p v end.

Fixpoint items_v {A : Type} (p : validator A) (i : nat) (l : list value)
  : validation (list A) :=
  match l with
  | [] => Valid []
  | v :: r => cons <$> at_loc (Idx i) (p v) <*> items_v p (S i) r
  end.

(** [List[T]]. *)
Definition list_v {A : Type} (p : validator A) : validator (list A) :=
  fun v => match v with VList l => items_v p 0 l | _ => fail list_type end.

(** A field declared without a default. *)
Definition required {A : Type} (k : string) (p : validator A)
  (d : list (string * value)) : validation A :=
  match dict_get k d with
  | Some v => at_loc (Key k) (p v)
  | None => Invalid [{| loc := [Key k]; type := missing |}]
  end.

(** A field declared with a default, used when the key is absent. *)
Definition with_default {A : Type} (k : string) (dflt : A) (p : validator A)
  (d : list (string * value)) : validation A :=
  match dict_get k d with
  | Some v => at_loc (Key k) (p v)
  | None => Valid dflt
  end.

(** A model is validated from a dictionary. *)
Definition model {A : Type} (f : list (string * value) -> validation A)
  : validator A :=
  fun v => match v with VDict d => f d | _ => fail model_type end.

Definition statuses : list string :=
  ["running"; "passed"; "failed"; "skipped"; "blocked"].

Definition levels : list string := ["INFO"; "WARN"; "ERROR"; "DEBUG"; "STEP"].

(** ** schemas.py *)

Module TestRun.
Record t_ (D : Type) : Type := {
  name : string;
  environment : option string;
  branch : option string;
  build : option string;
  status : string;
  started_at : option D;
  finished_at : option D;
  duration_ms : option Z;
  total : Z;
  passed : Z;
  failed : Z;
  skipped : Z;
  blocked : Z;
  platform : option string;
  tags : list string }.
Arguments Build_t_ {D}.
Arguments name {D}.
Arguments environment {D}.
Arguments branch {D}.
Arguments build {D}.
Arguments status {D}.
Arguments started_at {D}.
Arguments finished_at {D}.
Arguments duration_ms {D}.
Arguments total {D}.
Arguments passed {D}.
Arguments failed {D}.
Arguments skipped {D}.
Arguments blocked {D}.
Arguments platform {D}.
Arguments tags {D}.

Definition t : Type := t_ datetime.

Definition validate : validator t :=
  model (fun d =>
    Build_t_
      <$> required "name" str_v d
      <*> with_default "environment" None (optional_v str_v) d
      <*> with_default "branch" None (optional_v str_v) d
      <*> with_default "build" None (optional_v str_v) d
      <*> with_default "status" "running" (literal_v statuses) d
      <*> with_default "started_at" None (optional_v datetime_v) d
      <*> with_default "finished_at" None (optional_v datetime_v) d
      <*> with_default "duration_ms" None (optional_v (int_ge_v 0)) d
      <*> with_default "total" 0 (int_ge_v 0) d
      <*> with_default "passed" 0 (int_ge_v 0) d
      <*> with_default "failed" 0 (int_ge_v 0) d
      <*> with_default "skipped" 0 (int_ge_v 0) d
      <*> with_default "blocked" 0 (int_ge_v 0) d
      <*> with_default "platform" None (optional_v str_v) d
      <*> with_default "tags" [] (list_v str_v) d).

Definition map_datetime {D E : Type} (f : D -> E) (r : t_ D) : t_ E :=
  {| name := name r; environment := environment r; branch := branch r;
     build := build r; status := status r;
     started_at := option_map f (started_at r);
     finished_at := option_map f (finished_at r);
     duration_ms := duration_ms r; total := total r; passed := passed r;
     failed := failed r; skipped := skipped r; blocked := blocked r;
     platform := platform r; tags := tags r |}.
End TestRun.

Module TestSuite.
Record t : Type := {
  run_id : string;
  name : string;
  status : string;
  duration_ms : option Z;
  total : Z;
  passed : Z;
  failed : Z;
  skipped : Z;
  order : option Z }.

Definition validate : validator t :=
  model (fun d =>
    Build_t
      <$> required "run_id" str_v d
      <*> required "name" str_v d
      <*> with_default "status" "running" (literal_v statuses) d
      <*> with_default "duration_ms" None (optional_v (int_ge_v 0)) d
      <*> with_default "total" 0 int_v d
      <*> with_default "passed" 0 int_v d
      <*> with_default "failed" 0 int_v d
      <*> with_default "skipped" 0 int_v d
      <*> with_default "order" None (optional_v int_v) d).
End TestSuite.

Module TestCase.
Record t : Type := {
  run_id : string;
  suite_id : string;
  name : string;
  class_name : option string;
  status : string;
  duration_ms : option Z;
  error_message : option string;
  error_trace : option string;
  retries : Z;
  category : option string;
  author : option string }.

Definition validate : validator t :=
  model (fun d =>
    Build_t
      <$> required "run_id" str_v d
      <*> required "suite_id" str_v d
      <*> required "name" str_v d
      <*> with_default "class_name" None (optional_v str_v) d
      <*> with_default "status" "running" (literal_v statuses) d
      <*> with_default "duration_ms" None (optional_v (int_ge_v 0)) d
      <*> with_default "error_message" None (optional_v str_v) d
      <*> with_default "error_trace" None (optional_v str_v) d
      <*> with_default "retries" 0 int_v d
      <*> with_default "category" None (optional_v str_v) d
      <*> with_default "author" None (optional_v str_v) d).
End TestCase.

Module LogEntry.
Record t_ (D : Type) : Type := {
  run_id : string;
  case_id : string;
  level : string;
  message : string;
  timestamp : option D;
  step : option string;
  attachment_url : option string }.
Arguments Build_t_ {D}.
Arguments run_id {D}.
Arguments case_id {D}.
Arguments level {D}.
Arguments message {D}.
Arguments timestamp {D}.
Arguments step {D}.
Arguments attachment_url {D}.

Definition t : Type := t_ datetime.

Definition validate : validator t :=
  model (fun d =>
    Build_t_
      <$> required "run_id" str_v d
      <*> required "case_id" str_v d
      <*> with_default "level" "INFO" (literal_v levels) d
      <*> required "message" str_v d
      <*> with_default "timestamp" None (optional_v datetime_v) d
      <*> with_default "step" None (optional_v str_v) d
      <*> with_default "attachment_url" None (optional_v str_v) d).

Definition map_datetime {D E : Type} (f : D -> E) (r : t_ D) : t_ E :=
  {| run_id := run_id r; case_id := case_id r; level := level r;
     message := message r; timestamp := option_map f (timestamp r);
     step := step r; attachment_url := attachment_url r |}.
End LogEntry.

Module IngestCase.
Record t : Type := {
  name : string;
  class_name : option string;
  status : string;
  duration_ms : option Z;
  error_message : option string;
  error_trace : option string;
  retries : Z;
  category : option string;
  author : option string;
  logs : list LogEntry.t }.

Definition validate : validator t :=
  model (fun d =>
    Build_t
      <$> required "name" str_v d
      <*> with_default "class_name" None (optional_v str_v) d
      <*> required "status" (literal_v statuses) d
      <*> with_default "duration_ms" None (optional_v int_v) d
      <*> with_default "error_message" None (optional_v str_v) d
      <*> with_default "error_trace" None (optional_v str_v) d
      <*> with_default "retries" 0 int_v d
      <*> with_default "category" None (optional_v str_v) d
      <*> with_default "author" None (optional_v str_v) d
      <*> with_default "logs" [] (list_v LogEntry.validate) d).
End IngestCase.

Module IngestSuite.
Record t : Type := {
  name : string;
  status : string;
  duration_ms : option Z;
  total : option Z;
  passed : option Z;
  failed : option Z;
  skipped : option Z;
  order : option Z;
  cases : list IngestCase.t }.

Definition validate : validator t :=
  model (fun d =>
    Build_t
      <$> required "name" str_v d
      <*> required "status" (literal_v statuses) d
      <*> with_default "duration_ms" None (optional_v int_v) d
      <*> with_default "total" None (optional_v int_v) d
      <*> with_default "passed" None (optional_v int_v) d
      <*> with_default "failed" None (optional_v int_v) d
      <*> with_default "skipped" None (optional_v int_v) d
      <*> with_default "order" None (optional_v int_v) d
      <*> with_default "cases" [] (list_v IngestCase.validate) d).
End IngestSuite.

Module IngestRun.
Record t : Type := {
  name : string;
  environment : option string;
  branch : option string;
  build : option string;
  status : string;
  started_at : option datetime;
  finished_at : option datetime;
  duration_ms : option Z;
  platform : option string;
  tags : list string;
  suites : list IngestSuite.t }.

Definition validate : validator t :=
  model (fun d =>
    Build_t
      <$> required "name" str_v d
      <*> with_default "environment" None (optional_v str_v) d
      <*> with_default "branch" None (optional_v str_v) d
      <*> with_default "build" None (optional_v str_v) d
      <*> required "status" (literal_v statuses) d
      <*> with_default "started_at" None (optional_v datetime_v) d
      <*> with_default "finished_at" None (optional_v datetime_v) d
      <*> with_default "duration_ms" None (optional_v int_v) d
      <*> with_default "platform" None (optional_v str_v) d
      <*> with_default "tags" [] (list_v str_v) d
      <*> with_default "suites" [] (list_v IngestSuite.validate) d).
End IngestRun.

(** ** The document store

    The handlers reach the store through [db] and [create_document] of
    [database.py] and through pymongo's collection methods. *)

Record Stored (A : Type) : Type := { _id : ObjectId.t; doc : A }.
Arguments _id {A}.
Arguments doc {A}.

Record Store : Type := {
  db_testrun : list (Stored TestRun.t);
  db_testsuite : list (Stored TestSuite.t);
  db_testcase : list (Stored TestCase.t);
  db_logentry : list (Stored LogEntry.t);
  oid_counter : N;
  clock : datetime }.

Definition empty_store : Store :=
  {| db_testrun := []; db_testsuite := []; db_testcase := [];
     db_logentry := []; oid_counter := 0; clock := 0 |}.

(** The collections, each with the model its documents are dumped from. *)
Inductive collection : Type -> Type :=
| testrun : collection TestRun.t
| testsuite : collection TestSuite.t
| testcase : collection TestCase.t
| logentry : collection LogEntry.t.

Definition docs {A : Type} (c : collection A) (st : Store) : list (Stored A) :=
  match c in collection T return list (Stored T) with
  | testrun => db_testrun st
  | testsuite => db_testsuite st
  | testcase => db_testcase st
  | logentry => db_logentry st
  end.

Definition set_docs {A : Type} (c : collection A) (l : list (Stored A))
  (st : Store) : Store :=
  match c in collection T return list (Stored T) -> Store with
  | testrun => fun l =>
      {| db_testrun := l; db_testsuite := db_testsuite st;
         db_testcase := db_testcase st; db_logentry := db_logentry st;
         oid_counter := oid_counter st; clock := clock st |}
  | testsuite => fun l =>
      {| db_testrun := db_testrun st; db_testsuite := l;
         db_testcase := db_testcase st; db_logentry := db_logentry st;
         oid_counter := oid_counter st; clock := clock st |}
  | testcase => fun l =>
      {| db_testrun := db_testrun st; db_testsuite := db_testsuite st;
         db_testcase := l; db_logentry := db_logentry st;
         oid_counter := oid_counter st; clock := clock st |}
  | logentry => fun l =>
      {| db_testrun := db_testrun st; db_testsuite := db_testsuite st;
         db_testcase := db_testcase st; db_logentry := l;
         oid_counter := oid_counter st; clock := clock st |}
  end l.

(** *** Handlers as computations over the store

    A handler returns or raises; what it wrote before raising stays
    written. *)

Inductive Exception : Type :=
| HTTPException (status_code : nat) (detail : string)
| RequestValidationError (errors : list ErrorDetails)
| ValidationError (errors : list ErrorDetails)
| DuplicateKeyError.

Inductive outcome (A : Type) : Type :=
| Return (a : A)
| Raise (e : Exception).
Arguments Return {A} a.
Arguments Raise {A} e.

Definition M (A : Type) : Type := Store -> outcome A * Store.

Definition ret {A : Type} (a : A) : M A := fun st => (Return a, st).

Definition raise {A : Type} (e : Exception) : M A := fun st => (Raise e, st).

Definition bind {A B : Type} (m : M A) (k : A -> M B) : M B :=
  fun st =>
    match m st with
    | (Return a, st') => k a st'
    | (Raise e, st') => (Raise e, st')
    end.

Notation "x <- m ;; k" := (bind m (fun x => k))
  (at level 100, m at next level, right associativity).
Notation "m ;; k" := (bind m (fun _ => k))
  (at level 100, right associativity).

Definition get : M Store := fun st => (Return st, st).

Fixpoint foldM {A B : Type} (f : B -> A -> M B) (l : list A) (b : B) : M B :=
  match l with
  | [] => ret b
  | a :: r => b' <- f b a ;; foldM f r b'
  end.

(** [for a in l: f(a)]. *)
Definition for_each {A : Type} (l : list A) (f : A -> M unit) : M unit :=
  foldM (fun _ a => f a) l tt.

(** [enumerate(l)]. *)
Definition enumerate {A : Type} (l : list A) : list (nat * A) :=
  combine (seq 0 (List.length l)) l.

(** [datetime.now(timezone.utc)]: reads the clock, which then moves on. *)
Definition now : M datetime :=
  fun st =>
    (Return (clock st),
     {| db_testrun := db_testrun st; db_testsuite := db_testsuite st;
        db_testcase := db_testcase st; db_logentry := db_logentry st;
        oid_counter := oid_counter st; clock := clock st + 1 |}).

Definition next_oid (st : Store) : Store :=
  {| db_testrun := db_testrun st; db_testsuite := db_testsuite st;
     db_testcase := db_testcase st; db_logentry := db_logentry st;
     oid_counter := oid_counter st + 1; clock := clock st |}.

Definition has_id {A : Type} (o : ObjectId.t) (d : Stored A) : bool :=
  ObjectId.eqb (_id d) o.

(** Modelled from the spec: [create_document] of [database.py], which is
    not among the sources.  It inserts the document into the named
    collection under a generated unique identifier and returns that
    identifier as a string; the store keeps [_id] unique within a
    collection and refuses a duplicate. *)
Definition create_document {A : Type} (c : collection A) (data : A) : M string :=
  fun st =>
    let oid := ObjectId.generate (oid_counter st) in
    if existsb (has_id oid) (docs c st)
    then (Raise DuplicateKeyError, next_oid st)
    else (Return (ObjectId.str oid),
          set_docs c (docs c st ++ [{| _id := oid; doc := data |}])
                   (next_oid st)).

(** [db[c].find_one({"_id": oid})]. *)
Definition find_one {A : Type} (c : collection A) (oid : ObjectId.t)
  (st : Store) : option (Stored A) :=
  List.find (has_id oid) (docs c st).

(** [db[c].find(filter)], in insertion order. *)
Definition find {A : Type} (c : collection A) (p : A -> bool) (st : Store)
  : list (Stored A) :=
  filter (fun d => p (doc d)) (docs c st).

(** Ascending order of a sort key; a null key sorts before any number. *)
Definition key_le (a b : option Z) : bool :=
  match a, b with
  | None, _ => true
  | Some _, None => false
  | Some x, Some y => x <=? y
  end.

Fixpoint insert_by {A : Type} (key : A -> option Z) (x : A) (l : list A)
  : list A :=
  match l with
  | [] => [x]
  | y :: r => if key_le (key x) (key y) then x :: y :: r
              else y :: insert_by key x r
  end.

(** [cursor.sort(key, 1)]: documents with equal keys keep their order. *)
Fixpoint sort {A : Type} (key : A -> option Z) (l : list A) : list A :=
  match l with
  | [] => []
  | x :: r => insert_by key x (sort key r)
  end.

Fixpoint update_first {A : Type} (p : A -> bool) (f : A -> A) (l : list A)
  : list A :=
  match l with
  | [] => []
  | x :: r => if p x then f x :: r else x :: update_first p f r
  end.

(** [db[c].update_one({"_id": oid}, {"$set": ...})]: the first document
    with that [_id], if any, gets the fields set; nothing is inserted. *)
Definition update_one {A : Type} (c : collection A) (oid : ObjectId.t)
  (set : A -> A) : M unit :=
  fun st =>
    (Return tt,
     set_docs c
       (update_first (has_id oid)
          (fun d => {| _id := _id d; doc := set (doc d) |}) (docs c st))
       st).

(** ** main.py *)

(** A request body is validated against the handler's model before the
    handler runs. *)
Definition request_body {A : Type} (v : validator A) (body : value) : M A :=
  match v body with
  | Valid a => ret a
  | Invalid e => raise (RequestValidationError e)
  end.

(** A model built from keyword arguments inside a handler. *)
Definition construct {A : Type} (v : validator A)
  (kwargs : list (string * value)) : M A :=
  match v (VDict kwargs) with
  | Valid a => ret a
  | Invalid e => raise (ValidationError e)
  end.

Definition to_object_id (id_str : string) : M ObjectId.t :=
  match ObjectId.parse id_str with
  | Some oid => ret oid
  | None => raise (HTTPException 400 "Invalid id")
  end.

(** A serialized document: ["_id"] has become the string ["id"], and the
    datetime fields have become ISO strings (through [iso] below). *)
Record Serialized (A : Type) : Type := { id : string; fields : A }.
Arguments id {A}.
Arguments fields {A}.

Definition serialize {A B : Type} (iso : A -> B) (d : Stored A) : Serialized B :=
  {| id := ObjectId.str (_id d); fields := iso (doc d) |}.

(** [serialize_doc]; a stored document is never an empty dictionary, so
    [not doc] is [doc is None]. *)
Definition serialize_doc {A B : Type} (iso : A -> B) (d : option (Stored A))
  : option (Serialized B) :=
  option_map (serialize iso) d.

(** [POST /api/runs].  The create handlers answer with a dictionary whose
    only entry is the inserted identifier; they return that identifier
    here. *)
Definition create_run (run : TestRun.t) : M string :=
  let data := run in
  t <- now ;;
  let data :=
    match TestRun.started_at data with
    | Some _ => data
    | None =>
        {| TestRun.name := TestRun.name data;
           TestRun.environment := TestRun.environment data;
           TestRun.branch := TestRun.branch data;
           TestRun.build := TestRun.build data;
           TestRun.status := TestRun.status data;
           TestRun.started_at := Some t;
           TestRun.finished_at := TestRun.finished_at data;
           TestRun.duration_ms := TestRun.duration_ms data;
           TestRun.total := TestRun.total data;
           TestRun.passed := TestRun.passed data;
           TestRun.failed := TestRun.failed data;
           TestRun.skipped := TestRun.skipped data;
           TestRun.blocked := TestRun.blocked data;
           TestRun.platform := TestRun.platform data;
           TestRun.tags := TestRun.tags data |}
    end in
  inserted_id <- create_document testrun data ;;
  ret inserted_id.

(** The tree [get_run_detail] assembles. *)
Record CaseTree : Type := {
  case_doc : Serialized TestCase.t;
  logs : list (Serialized (LogEntry.t_ isostring)) }.

Record SuiteTree : Type := {
  suite_doc : Serialized TestSuite.t;
  cases : list CaseTree }.

Record RunTree : Type := {
  run_doc : Serialized (TestRun.t_ isostring);
  suites : list SuiteTree }.

(** [serialize_doc_suite], for a suite that carries its cases and they
    their logs. *)
Definition serialize_doc_suite
  (s : Stored TestSuite.t * list (Stored TestCase.t * list (Stored LogEntry.t)))
  : SuiteTree :=
  {| suite_doc := serialize (fun x => x) (fst s);
     cases :=
       map (fun c =>
              {| case_doc := serialize (fun x => x) (fst c);
                 logs := map (serialize (LogEntry.map_datetime isoformat))
                             (snd c) |})
           (snd s) |}.

(** [GET /api/runs/{run_id}].  The suites are looked up under the path
    string as it was given, the cases and logs under the rendering of the
    stored identifiers.  [serialize_doc] applied once more to the result of
    [serialize_doc_suite] finds neither ["_id"] nor a datetime and changes
    nothing. *)
Definition get_run_detail (run_id : string) : M RunTree :=
  oid <- to_object_id run_id ;;
  db <- get ;;
  match find_one testrun oid db with
  | None => raise (HTTPException 404 "Run not found")
  | Some run =>
      let suites :=
        sort (fun s => TestSuite.order (doc s))
             (find testsuite (fun s => String.eqb (TestSuite.run_id s) run_id) db) in
      let suites :=
        map (fun s =>
               (s,
                map (fun c =>
                       (c,
                        sort (fun l => LogEntry.timestamp (doc l))
                             (find logentry
                                (fun l => String.eqb (LogEntry.case_id l)
                                                     (ObjectId.str (_id c)))
                                db)))
                    (find testcase
                       (fun c => String.eqb (TestCase.suite_id c)
                                            (ObjectId.str (_id s)))
                       db)))
            suites in
      ret {| run_doc := serialize (TestRun.map_datetime isoformat) run;
             suites := map serialize_doc_suite suites |}
  end.

Record RunFinishPayload : Type := {
  fin_status : option string;
  fin_finished_at : option datetime;
  fin_duration_ms : option Z;
  fin_total : option Z;
  fin_passed : option Z;
  fin_failed : option Z;
  fin_skipped : option Z;
  fin_blocked : option Z }.

Definition or_else {A : Type} (o : option A) (a : A) : A :=
  match o with Some x => x | None => a end.

Definition or_keep {A : Type} (o old : option A) : option A :=
  match o with Some x => Some x | None => old end.

(** [{"$set": update}] where [update] holds the fields of the payload that
    are not [None]. *)
Definition set_update (update : RunFinishPayload) (r : TestRun.t) : TestRun.t :=
  {| TestRun.name := TestRun.name r;
     TestRun.environment := TestRun.environment r;
     TestRun.branch := TestRun.branch r;
     TestRun.build := TestRun.build r;
     TestRun.status := or_else (fin_status update) (TestRun.status r);
     TestRun.started_at := TestRun.started_at r;
     TestRun.finished_at :=
       or_keep (fin_finished_at update) (TestRun.finished_at r);
     TestRun.duration_ms :=
       or_keep (fin_duration_ms update) (TestRun.duration_ms r);
     TestRun.total := or_else (fin_total update) (TestRun.total r);
     TestRun.passed := or_else (fin_passed update) (TestRun.passed r);
     TestRun.failed := or_else (fin_failed update) (TestRun.failed r);
     TestRun.skipped := or_else (fin_skipped update) (TestRun.skipped r);
     TestRun.blocked := or_else (fin_blocked update) (TestRun.blocked r);
     TestRun.platform := TestRun.platform r;
     TestRun.tags := TestRun.tags r |}.

(** [PATCH /api/runs/{run_id}/finish]. *)
Definition finish_run (run_id : string) (payload : RunFinishPayload)
  : M (option (Serialized (TestRun.t_ isostring))) :=
  update <-
    match fin_finished_at payload with
    | Some _ => ret payload
    | None =>
        t <- now ;;
        ret {| fin_status := fin_status payload;
               fin_finished_at := Some t;
               fin_duration_ms := fin_duration_ms payload;
               fin_total := fin_total payload;
               fin_passed := fin_passed payload;
               fin_failed := fin_failed payload;
               fin_skipped := fin_skipped payload;
               fin_blocked := fin_blocked payload |}
    end ;;
  oid <- to_object_id run_id ;;
  update_one testrun oid (set_update update) ;;
  oid <- to_object_id run_id ;;
  db <- get ;;
  let run := find_one testrun oid db in
  ret (serialize_doc (TestRun.map_datetime isoformat) run).

(** [POST /api/runs/{run_id}/suites]. *)
Definition create_suite (run_id : string) (suite : TestSuite.t) : M string :=
  if negb (String.eqb (TestSuite.run_id suite) run_id)
  then raise (HTTPException 400 "run_id mismatch")
  else
    let data := suite in
    inserted_id <- create_document testsuite data ;;
    ret inserted_id.

(** [POST /api/suites/{suite_id}/cases]. *)
Definition create_case (suite_id : string) (case : TestCase.t) : M string :=
  if negb (String.eqb (TestCase.suite_id case) suite_id)
  then raise (HTTPException 400 "suite_id mismatch")
  else
    let data := case in
    inserted_id <- create_document testcase data ;;
    ret inserted_id.

(** [POST /api/cases/{case_id}/logs]. *)
Definition add_log (case_id : string) (log : LogEntry.t) : M string :=
  if negb (String.eqb (LogEntry.case_id log) case_id)
  then raise (HTTPException 400 "case_id mismatch")
  else
    let data := log in
    data <-
      match LogEntry.timestamp data with
      | Some _ => ret data
      | None =>
          t <- now ;;
          ret {| LogEntry.run_id := LogEntry.run_id data;
                 LogEntry.case_id := LogEntry.case_id data;
                 LogEntry.level := LogEntry.level data;
                 LogEntry.message := LogEntry.message data;
                 LogEntry.timestamp := Some t;
                 LogEntry.step := LogEntry.step data;
                 LogEntry.attachment_url := LogEntry.attachment_url data |}
      end ;;
    inserted_id <- create_document logentry data ;;
    ret inserted_id.

(** [x or datetime.now(timezone.utc)]. *)
Definition or_now (x : option datetime) : M datetime :=
  match x with Some d => ret d | None => now end.

(** [x or 0]. *)
Definition or0 (x : option Z) : Z :=
  match x with Some z => z | None => 0 end.

(** The local counters of [ingest]. *)
Record Counters : Type := {
  total : Z; passed : Z; failed : Z; skipped : Z; blocked : Z }.

(** The body of the loop over the logs of a case. *)
Definition ingest_log (run_id case_id : string) (l : LogEntry.t) : M unit :=
  t <- or_now (LogEntry.timestamp l) ;;
  log_data <- construct LogEntry.validate
    [ ("run_id", VStr run_id);
      ("case_id", VStr case_id);
      ("level", VStr (LogEntry.level l));
      ("message", VStr (LogEntry.message l));
      ("timestamp", VDatetime t);
      ("step", of_option VStr (LogEntry.step l));
      ("attachment_url", of_option VStr (LogEntry.attachment_url l)) ] ;;
  _ <- create_document logentry log_data ;;
  ret tt.

(** The body of the loop over the cases of a suite. *)
Definition ingest_case (run_id suite_id : string) (c : IngestCase.t) : M unit :=
  case_data <- construct TestCase.validate
    [ ("run_id", VStr run_id);
      ("suite_id", VStr suite_id);
      ("name", VStr (IngestCase.name c));
      ("class_name", of_option VStr (IngestCase.class_name c));
      ("status", VStr (IngestCase.status c));
      ("duration_ms", of_option VInt (IngestCase.duration_ms c));
      ("error_message", of_option VStr (IngestCase.error_message c));
      ("error_trace", of_option VStr (IngestCase.error_trace c));
      ("retries", VInt (IngestCase.retries c));
      ("category", of_option VStr (IngestCase.category c));
      ("author", of_option VStr (IngestCase.author c)) ] ;;
  case_id <- create_document testcase case_data ;;
  for_each (IngestCase.logs c) (ingest_log run_id case_id).

(** The body of the loop over the enumerated suites. *)
Definition ingest_suite (run_id : string) (acc : Counters)
  (os : nat * IngestSuite.t) : M Counters :=
  let (order, s) := os in
  suite_data <- construct TestSuite.validate
    [ ("run_id", VStr run_id);
      ("name", VStr (IngestSuite.name s));
      ("status", VStr (IngestSuite.status s));
      ("duration_ms", of_option VInt (IngestSuite.duration_ms s));
      ("total", VInt (or0 (IngestSuite.total s)));
      ("passed", VInt (or0 (IngestSuite.passed s)));
      ("failed", VInt (or0 (IngestSuite.failed s)));
      ("skipped", VInt (or0 (IngestSuite.skipped s)));
      ("order", VInt (match IngestSuite.order s with
                      | Some o => o
                      | None => Z.of_nat order
                      end)) ] ;;
  suite_id <- create_document testsuite suite_data ;;
  let acc :=
    {| total := total acc + TestSuite.total suite_data;
       passed := passed acc + TestSuite.passed suite_data;
       failed := failed acc + TestSuite.failed suite_data;
       skipped := skipped acc + TestSuite.skipped suite_data;
       blocked := blocked acc + 0 |} in
  for_each (IngestSuite.cases s) (ingest_case run_id suite_id) ;;
  ret acc.

(** [{"$set": {"total": total, ..., "blocked": blocked}}]. *)
Definition set_counters (c : Counters) (r : TestRun.t) : TestRun.t :=
  {| TestRun.name := TestRun.name r;
     TestRun.environment := TestRun.environment r;
     TestRun.branch := TestRun.branch r;
     TestRun.build := TestRun.build r;
     TestRun.status := TestRun.status r;
     TestRun.started_at := TestRun.started_at r;
     TestRun.finished_at := TestRun.finished_at r;
     TestRun.duration_ms := TestRun.duration_ms r;
     TestRun.total := total c;
     TestRun.passed := passed c;
     TestRun.failed := failed c;
     TestRun.skipped := skipped c;
     TestRun.blocked := blocked c;
     TestRun.platform := TestRun.platform r;
     TestRun.tags := TestRun.tags r |}.

(** [POST /api/ingest]. *)
Definition ingest (payload : IngestRun.t) : M string :=
  started_at <- or_now (IngestRun.started_at payload) ;;
  run_data <- construct TestRun.validate
    [ ("name", VStr (IngestRun.name payload));
      ("environment", of_option VStr (IngestRun.environment payload));
      ("branch", of_option VStr (IngestRun.branch payload));
      ("build", of_option VStr (IngestRun.build payload));
      ("status", VStr (IngestRun.status payload));
      ("started_at", VDatetime started_at);
      ("finished_at", of_option VDatetime (IngestRun.finished_at payload));
      ("duration_ms", of_option VInt (IngestRun.duration_ms payload));
      ("platform", of_option VStr (IngestRun.platform payload));
      ("tags", VList (map VStr (IngestRun.tags payload))) ] ;;
  run_id <- create_document testrun run_data ;;
  sums <- foldM (ingest_suite run_id) (enumerate (IngestRun.suites payload))
            {| total := 0; passed := 0; failed := 0; skipped := 0;
               blocked := 0 |} ;;
  oid <- to_object_id run_id ;;
  update_one testrun oid (set_counters sums) ;;
  ret run_id.

(** The handlers behind their routes: the body is validated first. *)
Definition post_ingest (body : value) : M string :=
  payload <- request_body IngestRun.validate body ;;
  ingest payload.

Definition post_suite (run_id : string) (body : value) : M string :=
  suite <- request_body TestSuite.validate body ;;
  create_suite run_id suite.

(** * What a successful ingestion stores

    The documents one call of [ingest] appends, grouped the way the payload
    nests them: a suite with its cases, a case with its logs. *)

Definition CaseDocs : Type := (Stored TestCase.t * list (Stored LogEntry.t))%type.

Definition SuiteDocs : Type := (Stored TestSuite.t * list CaseDocs)%type.

Definition case_docs_of (sts : list SuiteDocs) : list CaseDocs :=
  List.concat (map snd sts).

Definition log_docs_of (cts : list CaseDocs) : list (Stored LogEntry.t) :=
  List.concat (map snd cts).

(** [st'] holds what [st] holds, followed by the given documents. *)
Definition appended (st st' : Store) (rs : list (Stored TestRun.t))
  (ss : list (Stored TestSuite.t)) (cs : list (Stored TestCase.t))
  (ls : list (Stored LogEntry.t)) : Prop :=
  db_testrun st' = db_testrun st ++ rs
  /\ db_testsuite st' = db_testsuite st ++ ss
  /\ db_testcase st' = db_testcase st ++ cs
  /\ db_logentry st' = db_logentry st ++ ls.

(** The stored log [d] is the payload log [l] under the given parents. *)
Definition log_ok (run_id case_id : string) (d : Stored LogEntry.t)
  (l : LogEntry.t) : Prop :=
  LogEntry.run_id (doc d) = run_id
  /\ LogEntry.case_id (doc d) = case_id
  /\ LogEntry.level (doc d) = LogEntry.level l
  /\ LogEntry.message (doc d) = LogEntry.message l
  /\ LogEntry.step (doc d) = LogEntry.step l
  /\ LogEntry.attachment_url (doc d) = LogEntry.attachment_url l
  /\ (exists t, LogEntry.timestamp (doc d) = Some t
                /\ forall t', LogEntry.timestamp l = Some t' -> t = t').

(** The stored case and logs [ct] are the payload case [c] under the given
    parents, the logs under the identifier of the stored case. *)
Definition case_ok (run_id suite_id : string) (ct : CaseDocs)
  (c : IngestCase.t) : Prop :=
  doc (fst ct)
  = {| TestCase.run_id := run_id;
       TestCase.suite_id := suite_id;
       TestCase.name := IngestCase.name c;
       TestCase.class_name := IngestCase.class_name c;
       TestCase.status := IngestCase.status c;
       TestCase.duration_ms := IngestCase.duration_ms c;
       TestCase.error_message := IngestCase.error_message c;
       TestCase.error_trace := IngestCase.error_trace c;
       TestCase.retries := IngestCase.retries c;
       TestCase.category := IngestCase.category c;
       TestCase.author := IngestCase.author c |}
  /\ Forall2 (log_ok run_id (ObjectId.str (_id (fst ct)))) (snd ct)
             (IngestCase.logs c).

(** The stored suite and cases [sd] are the payload suite at position
    [fst os], the cases under the identifier of the stored suite. *)
Definition suite_ok (run_id : string) (sd : SuiteDocs)
  (os : nat * IngestSuite.t) : Prop :=
  doc (fst sd)
  = {| TestSuite.run_id := run_id;
       TestSuite.name := IngestSuite.name (snd os);
       TestSuite.status := IngestSuite.status (snd os);
       TestSuite.duration_ms := IngestSuite.duration_ms (snd os);
       TestSuite.total := or0 (IngestSuite.total (snd os));
       TestSuite.passed := or0 (IngestSuite.passed (snd os));
       TestSuite.failed := or0 (IngestSuite.failed (snd os));
       TestSuite.skipped := or0 (IngestSuite.skipped (snd os));
       TestSuite.order :=
         Some (match IngestSuite.order (snd os) with
               | Some o => o
               | None => Z.of_nat (fst os)
               end) |}
  /\ Forall2 (case_ok run_id (ObjectId.str (_id (fst sd)))) (snd sd)
             (IngestSuite.cases (snd os)).

(** The sum of a suite-level counter over the payload, absent as 0. *)
Definition sum_of (f : IngestSuite.t -> option Z) (l : list IngestSuite.t) : Z :=
  fold_right (fun s acc => or0 (f s) + acc) 0 l.

(** The stored run [rd] is the payload's run with the counters summed over
    the payload's suites. *)
Definition run_ok (rd : Stored TestRun.t) (p : IngestRun.t) : Prop :=
  exists t : datetime,
    (forall t', IngestRun.started_at p = Some t' -> t = t')
    /\ doc rd
       = {| TestRun.name := IngestRun.name p;
            TestRun.environment := IngestRun.environment p;
            TestRun.branch := IngestRun.branch p;
            TestRun.build := IngestRun.build p;
            TestRun.status := IngestRun.status p;
            TestRun.started_at := Some t;
            TestRun.finished_at := IngestRun.finished_at p;
            TestRun.duration_ms := IngestRun.duration_ms p;
            TestRun.total := sum_of IngestSuite.total (IngestRun.suites p);
            TestRun.passed := sum_of IngestSuite.passed (IngestRun.suites p);
            TestRun.failed := sum_of IngestSuite.failed (IngestRun.suites p);
            TestRun.skipped := sum_of IngestSuite.skipped (IngestRun.suites p);
            TestRun.blocked := 0;
            TestRun.platform := IngestRun.platform p;
            TestRun.tags := IngestRun.tags p |}.

(** A document whose identifier none of [old] has. *)
Definition fresh_in {A : Type} (old : list (Stored A)) (d : Stored A) : Prop :=
  existsb (has_id (_id d)) old = false.

(** The sort key of a retrieved suite. *)
Definition suite_order (t : SuiteTree) : option Z :=
  TestSuite.order (fields (suite_doc t)).

(** A retrieved suite that [st] does not hold yet. *)
Definition inserted_after (st : Store) (t : SuiteTree) : bool :=
  negb (existsb (fun d => String.eqb (ObjectId.str (_id d)) (id (suite_doc t)))
                (db_testsuite st)).

(** The scenario of the specification: the body as the specification gives
    it, and the same body with the two parent identifiers on each log. *)
Definition nightly_log (m : string) : value := VDict [("message", VStr m)].

Definition nightly_log_with_ids (m : string) : value :=
  VDict [("run_id", VStr "any-run"); ("case_id", VStr "any-case");
         ("message", VStr m)].

Definition nightly_body (log : string -> value) : value :=
  VDict
    [ ("name", VStr "Nightly"); ("status", VStr "passed");
      ("suites",
       VList
         [ VDict
             [ ("name", VStr "Auth"); ("status", VStr "passed");
               ("total", VInt 2); ("passed", VInt 2);
               ("cases",
                VList
                  [ VDict
                      [ ("name", VStr "login"); ("status", VStr "passed");
                        ("logs", VList [log "start"; log "ok"]) ] ]) ] ]) ].

(** The validated form of the body with identifiers. *)
Definition nightly : IngestRun.t :=
  let log m :=
    {| LogEntry.run_id := "any-run"; LogEntry.case_id := "any-case";
       LogEntry.level := "INFO";
       LogEntry.message := m; LogEntry.timestamp := None;
       LogEntry.step := None; LogEntry.attachment_url := None |} in
  {| IngestRun.name := "Nightly"; IngestRun.environment := None;
     IngestRun.branch := None; IngestRun.build := None;
     IngestRun.status := "passed"; IngestRun.started_at := None;
     IngestRun.finished_at := None; IngestRun.duration_ms := None;
     IngestRun.platform := None; IngestRun.tags := [];
     IngestRun.suites :=
       [ {| IngestSuite.name := "Auth"; IngestSuite.status := "passed";
            IngestSuite.duration_ms := None; IngestSuite.total := Some 2;
            IngestSuite.passed := Some 2; IngestSuite.failed := None;
            IngestSuite.skipped := None; IngestSuite.order := None;
            IngestSuite.cases :=
              [ {| IngestCase.name := "login"; IngestCase.class_name := None;
                   IngestCase.status := "passed";
                   IngestCase.duration_ms := None;
                   IngestCase.error_message := None;
                   IngestCase.error_trace := None; IngestCase.retries := 0;
                   IngestCase.category := None; IngestCase.author := None;
                   IngestCase.logs := [log "start"; log "ok"] |} ] |} ] |}.

(** Two payloads of two suites: one whose suites give their [order], the
    later one first, and one whose suites give none. *)
Definition suite_named (name : string) (order : option Z) : IngestSuite.t :=
  {| IngestSuite.name := name; IngestSuite.status := "passed";
     IngestSuite.duration_ms := None; IngestSuite.total := Some 1;
     IngestSuite.passed := Some 1; IngestSuite.failed := None;
     IngestSuite.skipped := None; IngestSuite.order := order;
     IngestSuite.cases := [] |}.

Definition run_of_suites (l : list IngestSuite.t) : IngestRun.t :=
  {| IngestRun.name := "Nightly"; IngestRun.environment := None;
     IngestRun.branch := None; IngestRun.build := None;
     IngestRun.status := "passed"; IngestRun.started_at := None;
     IngestRun.finished_at := None; IngestRun.duration_ms := None;
     IngestRun.platform := None; IngestRun.tags := [];
     IngestRun.suites := l |}.

Definition ordered_backwards : IngestRun.t :=
  run_of_suites [suite_named "Last" (Some 2); suite_named "First" (Some 1)].

Definition unordered : IngestRun.t :=
  run_of_suites [suite_named "Auth" None; suite_named "Billing" None].

(** The payload [p] with every log declaring the parents [r] and [c]. *)
Definition with_log_parents (r c : string) (p : IngestRun.t) : IngestRun.t :=
  let on_log (l : LogEntry.t) : LogEntry.t :=
    {| LogEntry.run_id := r; LogEntry.case_id := c;
       LogEntry.level := LogEntry.level l;
       LogEntry.message := LogEntry.message l;
       LogEntry.timestamp := LogEntry.timestamp l;
       LogEntry.step := LogEntry.step l;
       LogEntry.attachment_url := LogEntry.attachment_url l |} in
  let on_case (k : IngestCase.t) : IngestCase.t :=
    {| IngestCase.name := IngestCase.name k;
       IngestCase.class_name := IngestCase.class_name k;
       IngestCase.status := IngestCase.status k;
       IngestCase.duration_ms := IngestCase.duration_ms k;
       IngestCase.error_message := IngestCase.error_message k;
       IngestCase.error_trace := IngestCase.error_trace k;
       IngestCase.retries := IngestCase.retries k;
       IngestCase.category := IngestCase.category k;
       IngestCase.author := IngestCase.author k;
       IngestCase.logs := map on_log (IngestCase.logs k) |} in
  let on_suite (s : IngestSuite.t) : IngestSuite.t :=
    {| IngestSuite.name := IngestSuite.name s;
       IngestSuite.status := IngestSuite.status s;
       IngestSuite.duration_ms := IngestSuite.duration_ms s;
       IngestSuite.total := IngestSuite.total s;
       IngestSuite.passed := IngestSuite.passed s;
       IngestSuite.failed := IngestSuite.failed s;
       IngestSuite.skipped := IngestSuite.skipped s;
       IngestSuite.order := IngestSuite.order s;
       IngestSuite.cases := map on_case (IngestSuite.cases s) |} in
  {| IngestRun.name := IngestRun.name p;
     IngestRun.environment := IngestRun.environment p;
     IngestRun.branch := IngestRun.branch p;
     IngestRun.build := IngestRun.build p;
     IngestRun.status := IngestRun.status p;
     IngestRun.started_at := IngestRun.started_at p;
     IngestRun.finished_at := IngestRun.finished_at p;
     IngestRun.duration_ms := IngestRun.duration_ms p;
     IngestRun.platform := IngestRun.platform p;
     IngestRun.tags := IngestRun.tags p;
     IngestRun.suites := map on_suite (IngestRun.suites p) |}.

(** The validation fails and reports error [t] at the field [k]. *)
Definition reports {A : Type} (k : string) (t : error_type) (x : validation A)
  : Prop :=
  exists errs, x = Invalid errs /\ In {| loc := [Key k]; type := t |} errs.

(** * Sequences of operations and referential integrity *)

(** The identifiers of the documents of a collection, as strings. *)
Definition ids {A : Type} (l : list (Stored A)) : list string :=
  map (fun d => ObjectId.str (_id d)) l.

(** Some document of [l] has the identifier [x]. *)
Definition known {A : Type} (l : list (Stored A)) (x : string) : bool :=
  existsb (String.eqb x) (ids l).

(** Every suite names a stored run, every case a stored suite, every log a
    stored case. *)
Definition referential_integrity (st : Store) : bool :=
  forallb (fun s => known (db_testrun st) (TestSuite.run_id (doc s)))
          (db_testsuite st)
  && forallb (fun c => known (db_testsuite st) (TestCase.suite_id (doc c)))
             (db_testcase st)
  && forallb (fun l => known (db_testcase st) (LogEntry.case_id (doc l)))
             (db_logentry st).

Inductive operation : Type :=
| CreateRun (run : TestRun.t)
| CreateSuite (run_id : string) (suite : TestSuite.t)
| CreateCase (suite_id : string) (case : TestCase.t)
| AddLog (case_id : string) (log : LogEntry.t)
| Ingest (payload : IngestRun.t).

(** The store after an operation, whether it returned or raised. *)
Definition perform (o : operation) (st : Store) : Store :=
  match o with
  | CreateRun run => snd (create_run run st)
  | CreateSuite run_id suite => snd (create_suite run_id suite st)
  | CreateCase suite_id case => snd (create_case suite_id case st)
  | AddLog case_id log => snd (add_log case_id log st)
  | Ingest payload => snd (ingest payload st)
  end.

Definition perform_all (ops : list operation) (st : Store) : Store :=
  fold_left (fun st o => perform o st) ops st.

(** The parent named in the path of a create operation is stored. *)
Definition parent_known (st : Store) (o : operation) : bool :=
  match o with
  | CreateSuite run_id _ => known (db_testrun st) run_id
  | CreateCase suite_id _ => known (db_testsuite st) suite_id
  | AddLog case_id _ => known (db_testcase st) case_id
  | CreateRun _ | Ingest _ => true
  end.

Fixpoint parents_known (st : Store) (ops : list operation) : bool :=
  match ops with
  | [] => true
  | o :: r => parent_known st o && parents_known (perform o st) r
  end.

(** A suite whose run nobody created. *)
Definition orphan_suite : TestSuite.t :=
  {| TestSuite.run_id := "no-such-run"; TestSuite.name := "s";
     TestSuite.status := "running"; TestSuite.duration_ms := None;
     TestSuite.total := 0; TestSuite.passed := 0; TestSuite.failed := 0;
     TestSuite.skipped := 0; TestSuite.order := None |}.

(** A run, and a suite declaring the first identifier the store hands out
    as its run. *)
Definition smoke_run : TestRun.t :=
  {| TestRun.name := "Smoke"; TestRun.environment := None;
     TestRun.branch := None; TestRun.build := None;
     TestRun.status := "running"; TestRun.started_at := None;
     TestRun.finished_at := None; TestRun.duration_ms := None;
     TestRun.total := 0; TestRun.passed := 0; TestRun.failed := 0;
     TestRun.skipped := 0; TestRun.blocked := 0; TestRun.platform := None;
     TestRun.tags := [] |}.

Definition first_suite : TestSuite.t :=
  {| TestSuite.run_id := "000000000000000000000000"; TestSuite.name := "s";
     TestSuite.status := "running"; TestSuite.duration_ms := None;
     TestSuite.total := 0; TestSuite.passed := 0; TestSuite.failed := 0;
     TestSuite.skipped := 0; TestSuite.order := None |}.

(** The payload of [finish_run] with no field supplied. *)
Definition no_fields : RunFinishPayload :=
  {| fin_status := None; fin_finished_at := None; fin_duration_ms := None;
     fin_total := None; fin_passed := None; fin_failed := None;
     fin_skipped := None; fin_blocked := None |}.

(** [x] comes no later than [y] in ascending order of [key]. *)
Definition by_key {A : Type} (key : A -> option Z) (x y : A) : Prop :=
  key_le (key x) (key y) = true.

(** The invariant of the handlers: referential integrity, together with
    identifiers known to be stored. *)
Definition inv (r s c : list string) (st : Store) : Prop :=
  referential_integrity st = true
  /\ Forall (fun x => known (db_testrun st) x = true) r
  /\ Forall (fun x => known (db_testsuite st) x = true) s
  /\ Forall (fun x => known (db_testcase st) x = true) c.

(** [m], started where [P] holds, returns where [Q] holds or raises where
    referential integrity holds. *)
Definition triple {A : Type} (P : Store -> Prop) (m : M A)
  (Q : A -> Store -> Prop) : Prop :=
  forall st, P st ->
             match m st with
             | (Return a, st') => Q a st'
             | (Raise _, st') => referential_integrity st' = true
             end.

(** * When ingestion goes through *)

(** What the models [ingest] builds ask of a payload beyond the payload
    models: the statuses and levels are among the literals, and no duration
    is negative. *)
Definition status_ok (s : string) : Prop :=
  existsb (String.eqb s) statuses = true.

Definition duration_ok (d : option Z) : Prop :=
  match d with Some z => 0 <= z | None => True end.

Definition acceptable_log (l : LogEntry.t) : Prop :=
  existsb (String.eqb (LogEntry.level l)) levels = true.

Definition acceptable_case (c : IngestCase.t) : Prop :=
  status_ok (IngestCase.status c)
  /\ duration_ok (IngestCase.duration_ms c)
  /\ Forall acceptable_log (IngestCase.logs c).

Definition acceptable_suite (s : IngestSuite.t) : Prop :=
  status_ok (IngestSuite.status s)
  /\ duration_ok (IngestSuite.duration_ms s)
  /\ Forall acceptable_case (IngestSuite.cases s).

Definition acceptable (p : IngestRun.t) : Prop :=
  status_ok (IngestRun.status p)
  /\ duration_ok (IngestRun.duration_ms p)
  /\ Forall acceptable_suite (IngestRun.suites p).

(** The number of documents a payload asks for. *)
Definition documents_of_case (c : IngestCase.t) : N :=
  1 + N.of_nat (List.length (IngestCase.logs c)).

Definition documents_of_suite (s : IngestSuite.t) : N :=
  1 + fold_right (fun c n => documents_of_case c + n)%N 0%N
        (IngestSuite.cases s).

Definition documents_of (p : IngestRun.t) : N :=
  1 + fold_right (fun s n => documents_of_suite s + n)%N 0%N
        (IngestRun.suites p).

(** The identifier was generated from an earlier value of the counter. *)
Definition issued (st : Store) (o : ObjectId.t) : Prop :=
  exists k : N, (k < oid_counter st)%N /\ o = ObjectId.generate k.

(** Every stored identifier was generated by the store. *)
Definition well_formed (st : Store) : Prop :=
  Forall (fun d => issued st (_id d)) (db_testrun st)
  /\ Forall (fun d => issued st (_id d)) (db_testsuite st)
  /\ Forall (fun d => issued st (_id d)) (db_testcase st)
  /\ Forall (fun d => issued st (_id d)) (db_logentry st).

(** * The remaining handlers and helpers of main.py *)

(** [cursor.sort(key, -1)]: descending, a null key after any number;
    documents with equal keys keep their order. *)
Fixpoint insert_desc {A : Type} (key : A -> option Z) (x : A) (l : list A)
  : list A :=
  match l with
  | [] => [x]
  | y :: r => if key_le (key y) (key x) then x :: y :: r
              else y :: insert_desc key x r
  end.

Fixpoint sort_desc {A : Type} (key : A -> option Z) (l : list A) : list A :=
  match l with
  | [] => []
  | x :: r => insert_desc key x (sort_desc key r)
  end.

(** [cursor.limit(n)]: 0 is no limit.  A negative limit, which the server
    answers with a single batch of at most [-n] documents, is taken as
    [-n]. *)
Definition limit {A : Type} (n : Z) (l : list A) : list A :=
  if n =? 0 then l else firstn (Z.abs_nat n) l.

(** [if s:] on an optional string: [None] and the empty string are false. *)
Definition if_given (s : option string) : option string :=
  match s with
  | Some EmptyString => None
  | _ => s
  end.

(** The filter [list_runs] builds: equality on [status], membership in
    [tags]. *)
Definition runs_filter (status tag : option string) (r : TestRun.t) : bool :=
  match if_given status with
  | Some s => String.eqb (TestRun.status r) s
  | None => true
  end
  && match if_given tag with
     | Some t => existsb (String.eqb t) (TestRun.tags r)
     | None => true
     end.

(** [GET /api/runs]. *)
Definition list_runs (limit_ : Z) (status tag : option string)
  : M (list (Serialized (TestRun.t_ isostring))) :=
  db <- get ;;
  let runs :=
    limit limit_
      (sort_desc (fun r => TestRun.started_at (doc r))
         (find testrun (runs_filter status tag) db)) in
  ret (map (serialize (TestRun.map_datetime isoformat)) runs).

(** The datetime an ISO string was rendered from. *)
Definition of_iso (s : isostring) : datetime := let (d) := s in d.

(** What [ObjectIdStr.validate] is given: an [ObjectId], or any other value
    through its [str]. *)
Inductive oid_input : Type :=
| AnObjectId (o : ObjectId.t)
| Other (str_v : string).

(** [ObjectIdStr.validate]; [None] stands for its [ValueError]. *)
Definition ObjectIdStr_validate (v : oid_input) : option string :=
  match v with
  | AnObjectId o => Some (ObjectId.str o)
  | Other s => option_map ObjectId.str (ObjectId.parse s)
  end.

(** [data["started_at"] = t]. *)
Definition set_started_at (t : datetime) (data : TestRun.t) : TestRun.t :=
  {| TestRun.name := TestRun.name data;
     TestRun.environment := TestRun.environment data;
     TestRun.branch := TestRun.branch data;
     TestRun.build := TestRun.build data;
     TestRun.status := TestRun.status data;
     TestRun.started_at := Some t;
     TestRun.finished_at := TestRun.finished_at data;
     TestRun.duration_ms := TestRun.duration_ms data;
     TestRun.total := TestRun.total data;
     TestRun.passed := TestRun.passed data;
     TestRun.failed := TestRun.failed data;
     TestRun.skipped := TestRun.skipped data;
     TestRun.blocked := TestRun.blocked data;
     TestRun.platform := TestRun.platform data;
     TestRun.tags := TestRun.tags data |}.

(** [data["timestamp"] = t]. *)
Definition set_timestamp (t : datetime) (data : LogEntry.t) : LogEntry.t :=
  {| LogEntry.run_id := LogEntry.run_id data;
     LogEntry.case_id := LogEntry.case_id data;
     LogEntry.level := LogEntry.level data;
     LogEntry.message := LogEntry.message data;
     LogEntry.timestamp := Some t;
     LogEntry.step := LogEntry.step data;
     LogEntry.attachment_url := LogEntry.attachment_url data |}.

(** The payload of [finish_run] with [finished_at] filled in. *)
Definition set_finished_at (t : datetime) (payload : RunFinishPayload)
  : RunFinishPayload :=
  {| fin_status := fin_status payload;
     fin_finished_at := Some t;
     fin_duration_ms := fin_duration_ms payload;
     fin_total := fin_total payload;
     fin_passed := fin_passed payload;
     fin_failed := fin_failed payload;
     fin_skipped := fin_skipped payload;
     fin_blocked := fin_blocked payload |}.

(** The sort keys of a retrieved log and of a listed run. *)
Definition log_time (l : Serialized (LogEntry.t_ isostring)) : option Z :=
  option_map of_iso (LogEntry.timestamp (fields l)).


(** [st'] holds every suite, case and log of [st], unchanged and in place,
    and a run for every run of [st]. *)
Definition extends (st st' : Store) : Prop :=
  (exists rs, ids (db_testrun st') = ids (db_testrun st) ++ rs)
  /\ (exists ss, db_testsuite st' = db_testsuite st ++ ss)
  /\ (exists cs, db_testcase st' = db_testcase st ++ cs)
  /\ (exists ls, db_logentry st' = db_logentry st ++ ls).

(** Whatever its outcome, [m] only adds to the store. *)
Definition only_adds {A : Type} (m : M A) : Prop :=
  forall st, extends st (snd (m st)).

(** The identifiers of suites and of cases are pairwise different. *)
Definition unique_ids (st : Store) : Prop :=
  NoDup (ids (db_testsuite st)) /\ NoDup (ids (db_testcase st)).

(** The [order] [ingest] gives a suite: its own, or its position. *)
Definition order_or_index (os : nat * IngestSuite.t) : Z :=
  match IngestSuite.order (snd os) with
  | Some o => o
  | None => Z.of_nat (fst os)
  end.

(** A retrieved case shows the payload case: its fields, and its logs in
    some order. *)
Definition case_matches (k : CaseTree) (c : IngestCase.t) : Prop :=
  TestCase.name (fields (case_doc k)) = IngestCase.name c
  /\ TestCase.status (fields (case_doc k)) = IngestCase.status c
  /\ Permutation
       (map (fun l => (LogEntry.level (fields l), LogEntry.message (fields l)))
            (logs k))
       (map (fun l => (LogEntry.level l, LogEntry.message l))
            (IngestCase.logs c)).

(** A retrieved suite shows the payload suite at position [fst os]: its
    fields, and its cases in payload order. *)
Definition suite_matches (t : SuiteTree) (os : nat * IngestSuite.t) : Prop :=
  TestSuite.name (fields (suite_doc t)) = IngestSuite.name (snd os)
  /\ TestSuite.status (fields (suite_doc t)) = IngestSuite.status (snd os)
  /\ TestSuite.order (fields (suite_doc t)) = Some (order_or_index os)
  /\ TestSuite.total (fields (suite_doc t)) = or0 (IngestSuite.total (snd os))
  /\ TestSuite.passed (fields (suite_doc t))
     = or0 (IngestSuite.passed (snd os))
  /\ TestSuite.failed (fields (suite_doc t))
     = or0 (IngestSuite.failed (snd os))
  /\ TestSuite.skipped (fields (suite_doc t))
     = or0 (IngestSuite.skipped (snd os))
  /\ Forall2 case_matches (cases t) (IngestSuite.cases (snd os)).

(** Whatever its outcome, [m] keeps [P]. *)
Definition preserves {A : Type} (P : Store -> Prop) (m : M A) : Prop :=
  forall st, P st -> P (snd (m st)).

(** A case and a log declaring the first identifier the store hands out as
    their parents, and the fields a client sends for them, for the run and
    for the suite above. *)
Definition first_case : TestCase.t :=
  {| TestCase.run_id := "000000000000000000000000";
     TestCase.suite_id := "000000000000000000000000";
     TestCase.name := "c"; TestCase.class_name := None;
     TestCase.status := "running"; TestCase.duration_ms := None;
     TestCase.error_message := None; TestCase.error_trace := None;
     TestCase.retries := 0; TestCase.category := None;
     TestCase.author := None |}.

Definition first_log : LogEntry.t :=
  {| LogEntry.run_id := "000000000000000000000000";
     LogEntry.case_id := "000000000000000000000000";
     LogEntry.level := "INFO"; LogEntry.message := "m";
     LogEntry.timestamp := None; LogEntry.step := None;
     LogEntry.attachment_url := None |}.

Definition smoke_run_fields : list (string * value) :=
  [("name", VStr "Smoke")].

Definition first_suite_fields : list (string * value) :=
  [("run_id", VStr "000000000000000000000000"); ("name", VStr "s")].

Definition first_case_fields : list (string * value) :=
  [("run_id", VStr "000000000000000000000000");
   ("suite_id", VStr "000000000000000000000000"); ("name", VStr "c")].

Definition first_log_fields : list (string * value) :=
  [("run_id", VStr "000000000000000000000000");
   ("case_id", VStr "000000000000000000000000"); ("message", VStr "m")].

(** The store after [smoke_run] was created, and the run it holds. *)
Definition after_smoke : Store := snd (create_run smoke_run empty_store).


(** The store after [nightly] was ingested. *)
Definition after_nightly : Store := snd (ingest nightly empty_store).

(** The payload of [finish_run] for a run that passed at time 5. *)
Definition passed_at_5 : RunFinishPayload :=
  {| fin_status := Some "passed"; fin_finished_at := Some 5;
     fin_duration_ms := None; fin_total := None; fin_passed := None;
     fin_failed := None; fin_skipped := None; fin_blocked := None |}.

(** A store that has handed out ten identifiers: the next one has a letter
    among its digits. *)
Definition ten_issued : Store :=
  {| db_testrun := []; db_testsuite := []; db_testcase := [];
     db_logentry := []; oid_counter := 10; clock := 0 |}.

(** [nightly] with a negative duration, and [nightly] followed by a suite
    with a negative duration. *)
Definition with_duration_and_suites (d : option Z) (l : list IngestSuite.t)
  (p : IngestRun.t) : IngestRun.t :=
  {| IngestRun.name := IngestRun.name p;
     IngestRun.environment := IngestRun.environment p;
     IngestRun.branch := IngestRun.branch p;
     IngestRun.build := IngestRun.build p;
     IngestRun.status := IngestRun.status p;
     IngestRun.started_at := IngestRun.started_at p;
     IngestRun.finished_at := IngestRun.finished_at p;
     IngestRun.duration_ms := d;
     IngestRun.platform := IngestRun.platform p;
     IngestRun.tags := IngestRun.tags p;
     IngestRun.suites := l |}.

Definition nightly_negative : IngestRun.t :=
  with_duration_and_suites (Some (-1)) (IngestRun.suites nightly) nightly.

Definition broken_suite : IngestSuite.t :=
  {| IngestSuite.name := "Broken"; IngestSuite.status := "failed";
     IngestSuite.duration_ms := Some (-1); IngestSuite.total := Some 1;
     IngestSuite.passed := None; IngestSuite.failed := Some 1;
     IngestSuite.skipped := None; IngestSuite.order := None;
     IngestSuite.cases := [] |}.

Definition nightly_broken : IngestRun.t :=
  with_duration_and_suites None (IngestRun.suites nightly ++ [broken_suite])
    nightly.



(** The fields of records that give their status, level, duration and
    counters themselves. *)
Definition failed_run_fields : list (string * value) :=
  [("name", VStr "Full"); ("status", VStr "failed");
   ("duration_ms", VInt 1500); ("total", VInt 3); ("passed", VInt 1);
   ("failed", VInt 1); ("skipped", VInt 1); ("blocked", VInt 0)].

Definition passed_suite_fields : list (string * value) :=
  [("run_id", VStr "000000000000000000000000"); ("name", VStr "s");
   ("status", VStr "passed"); ("duration_ms", VInt 20)].

Definition skipped_case_fields : list (string * value) :=
  [("run_id", VStr "000000000000000000000000");
   ("suite_id", VStr "000000000000000000000000"); ("name", VStr "c");
   ("status", VStr "skipped"); ("duration_ms", VInt 7)].

Definition error_log_fields : list (string * value) :=
  [("run_id", VStr "000000000000000000000000");
   ("case_id", VStr "000000000000000000000000");
   ("level", VStr "ERROR"); ("message", VStr "m")].

(** * Properties *)

(** ** Identifiers *)

Lemma hexdigit_hexchar (d : N) :
  ObjectId.hexdigit (ObjectId.hexchar d) = Some (ObjectId.hexchar d).
Proof.
  destruct d as [|p]; [reflexivity|].
  do 4 (destruct p as [p|p|]; try reflexivity).
Qed.

Lemma is_space_hexchar (d : N) : ObjectId.is_space (ObjectId.hexchar d) = false.
Proof.
  destruct d as [|p]; [reflexivity|].
  do 4 (destruct p as [p|p|]; try reflexivity).
Qed.

(** An even number of digits, as [str] renders them, reads as itself. *)
Lemma fromhex_hexchars (n : nat) (ds : list N) :
  List.length ds = (2 * n)%nat ->
  ObjectId.fromhex (map ObjectId.hexchar ds) = Some (map ObjectId.hexchar ds).
Proof.
  revert ds. induction n as [|n IH]; intros ds H.
  - destruct ds; [reflexivity|discriminate].
  - destruct ds as [|d1 [|d2 ds]]; cbn in H; try lia.
    cbn [map ObjectId.fromhex].
    rewrite is_space_hexchar, !hexdigit_hexchar, IH by lia.
    reflexivity.
Qed.

Lemma length_digits_le (k : nat) (n : N) :
  List.length (ObjectId.digits_le k n) = k.
Proof.
  revert n; induction k as [|k IH]; intro n; [reflexivity|].
  cbn [ObjectId.digits_le List.length]. now rewrite IH.
Qed.

Lemma length_string_of_list (l : list ascii) :
  String.length (string_of_list_ascii l) = List.length l.
Proof.
  induction l as [|c l IH]; [reflexivity|].
  cbn [string_of_list_ascii String.length List.length]. now rewrite IH.
Qed.

(** A generated identifier, rendered, parses back to itself. *)
Lemma parse_generate (n : N) :
  ObjectId.parse (ObjectId.str (ObjectId.generate n)) = Some (ObjectId.generate n).
Proof.
  unfold ObjectId.generate, ObjectId.str, ObjectId.parse, ObjectId.hex24.
  rewrite length_string_of_list, length_map, length_rev, length_digits_le.
  cbn [Nat.eqb].
  rewrite list_ascii_of_string_of_list_ascii, (fromhex_hexchars 12);
    [reflexivity|].
  now rewrite length_rev, length_digits_le.
Qed.

Lemma oid_eqb_eq (a b : ObjectId.t) : ObjectId.eqb a b = true <-> a = b.
Proof.
  destruct a as [x], b as [y]. unfold ObjectId.eqb; cbn.
  rewrite String.eqb_eq. split; [now intros ->|now intros [= ->]].
Qed.

Lemma oid_eqb_refl (a : ObjectId.t) : ObjectId.eqb a a = true.
Proof. now apply oid_eqb_eq. Qed.

(** ** The store *)

Lemma find_none_update_first {A : Type} (p : A -> bool) (f : A -> A)
  (l : list A) :
  List.find p l = None -> update_first p f l = l.
Proof.
  induction l as [|x l IH]; [reflexivity|].
  cbn [List.find update_first]. destruct (p x); [discriminate|].
  intro H. now rewrite IH.
Qed.

Lemma set_docs_same {A : Type} (c : collection A) (st : Store) :
  set_docs c (docs c st) st = st.
Proof. destruct c, st; reflexivity. Qed.

(** ** Lookups that fail *)



(** C4. On a well-formed identifier that no Run has, [finish_run] does not
    raise: the update matches nothing, the lookup finds nothing, and the
    handler returns the serialization of nothing ([None], a 200 response
    with a null body).  No record is created or changed. *)
Theorem finish_run_unknown_returns_null (run_id : string)
  (payload : RunFinishPayload) (st : Store) (oid : ObjectId.t) :
  ObjectId.parse run_id = Some oid ->
  find_one testrun oid st = None ->
  exists st',
    finish_run run_id payload st = (Return None, st')
    /\ db_testrun st' = db_testrun st
    /\ db_testsuite st' = db_testsuite st
    /\ db_testcase st' = db_testcase st
    /\ db_logentry st' = db_logentry st.
Proof.
  intros Hp Hf. unfold finish_run, to_object_id.
  unfold find_one in Hf. cbn [docs] in Hf.
  destruct (fin_finished_at payload);
    unfold bind, ret, now, update_one, get; rewrite Hp; cbn;
    unfold find_one; cbn; rewrite (find_none_update_first _ _ _ Hf), Hf;
    eexists; repeat split.
Qed.

Lemma finish_run_unknown_returns_null_witness :
  exists st',
    finish_run "000000000000000000000000" no_fields empty_store
    = (Return None, st')
    /\ db_testrun st' = db_testrun empty_store
    /\ db_testsuite st' = db_testsuite empty_store
    /\ db_testcase st' = db_testcase empty_store
    /\ db_logentry st' = db_logentry empty_store.
Proof.
  apply (finish_run_unknown_returns_null "000000000000000000000000" no_fields
           empty_store (ObjectId.Oid "000000000000000000000000"));
    reflexivity.
Defined.

(** ** Parent identifiers that disagree *)

(** C7. When the parent identifier a child record declares differs from the
    one in the path, [create_suite], [create_case] and [add_log] raise 400
    with a mismatch detail and leave the store exactly as it was. *)
Theorem mismatched_parent_rejected (st : Store) :
  (forall run_id suite,
      TestSuite.run_id suite <> run_id ->
      create_suite run_id suite st
      = (Raise (HTTPException 400 "run_id mismatch"), st))
  /\ (forall suite_id case,
         TestCase.suite_id case <> suite_id ->
         create_case suite_id case st
         = (Raise (HTTPException 400 "suite_id mismatch"), st))
  /\ (forall case_id log,
         LogEntry.case_id log <> case_id ->
         add_log case_id log st
         = (Raise (HTTPException 400 "case_id mismatch"), st)).
Proof.
  repeat split; intros i r H; apply String.eqb_neq in H.
  - unfold create_suite. now rewrite H.
  - unfold create_case. now rewrite H.
  - unfold add_log. now rewrite H.
Qed.

Lemma mismatched_parent_rejected_witness :
  create_suite "a"
    {| TestSuite.run_id := "b"; TestSuite.name := "s";
       TestSuite.status := "running"; TestSuite.duration_ms := None;
       TestSuite.total := 0; TestSuite.passed := 0; TestSuite.failed := 0;
       TestSuite.skipped := 0; TestSuite.order := None |} empty_store
  = (Raise (HTTPException 400 "run_id mismatch"), empty_store)
  /\ create_case "a"
       {| TestCase.run_id := "r"; TestCase.suite_id := "b";
          TestCase.name := "c"; TestCase.class_name := None;
          TestCase.status := "running"; TestCase.duration_ms := None;
          TestCase.error_message := None; TestCase.error_trace := None;
          TestCase.retries := 0; TestCase.category := None;
          TestCase.author := None |} empty_store
     = (Raise (HTTPException 400 "suite_id mismatch"), empty_store)
  /\ add_log "a"
       {| LogEntry.run_id := "r"; LogEntry.case_id := "b";
          LogEntry.level := "INFO"; LogEntry.message := "m";
          LogEntry.timestamp := None; LogEntry.step := None;
          LogEntry.attachment_url := None |} empty_store
     = (Raise (HTTPException 400 "case_id mismatch"), empty_store).
Proof.
  destruct (mismatched_parent_rejected empty_store) as (Hs & Hc & Hl).
  split; [|split].
  - apply Hs. cbn. discriminate.
  - apply Hc. cbn. discriminate.
  - apply Hl. cbn. discriminate.
Defined.

(** ** Reasoning about handlers *)

Lemma bind_Return {A B : Type} (m : M A) (k : A -> M B) (st st2 : Store) (b : B) :
  bind m k st = (Return b, st2) ->
  exists a st1, m st = (Return a, st1) /\ k a st1 = (Return b, st2).
Proof.
  unfold bind. destruct (m st) as [[a|e] st1]; [eauto | discriminate].
Qed.

Lemma construct_Return {A : Type} (v : validator A) kwargs (st st' : Store)
  (a : A) :
  construct v kwargs st = (Return a, st') ->
  v (VDict kwargs) = Valid a /\ st' = st.
Proof.
  unfold construct. destruct (v (VDict kwargs)); cbn; intros [= <- <-]; auto.
Qed.

Lemma appended_refl (st : Store) : appended st st [] [] [] [].
Proof. unfold appended. now rewrite !app_nil_r. Qed.

Lemma appended_trans (st st1 st2 : Store) rs ss cs ls rs' ss' cs' ls' :
  appended st st1 rs ss cs ls ->
  appended st1 st2 rs' ss' cs' ls' ->
  appended st st2 (rs ++ rs') (ss ++ ss') (cs ++ cs') (ls ++ ls').
Proof.
  intros (H1 & H2 & H3 & H4) (G1 & G2 & G3 & G4). unfold appended.
  rewrite G1, G2, G3, G4, H1, H2, H3, H4, <- !app_assoc. auto.
Qed.

Lemma or_now_Return (x : option datetime) (st st' : Store) (t : datetime) :
  or_now x st = (Return t, st') ->
  appended st st' [] [] [] []
  /\ oid_counter st' = oid_counter st
  /\ forall t', x = Some t' -> t = t'.
Proof.
  destruct x as [d|]; cbn; intros [= <- <-];
    (split; [unfold appended; cbn; now rewrite !app_nil_r|]);
    (split; [reflexivity|]).
  - now intros t' [= ->].
  - discriminate.
Qed.

Lemma create_document_Return {A : Type} (c : collection A) (data : A)
  (st st' : Store) (i : string) :
  create_document c data st = (Return i, st') ->
  let oid := ObjectId.generate (oid_counter st) in
  i = ObjectId.str oid
  /\ existsb (has_id oid) (docs c st) = false
  /\ st' = set_docs c (docs c st ++ [{| _id := oid; doc := data |}])
                    (next_oid st).
Proof.
  unfold create_document.
  destruct (existsb _ (docs c st)); [discriminate|].
  intros [= <- <-]. auto.
Qed.

Ltac store_fields :=
  cbn [set_docs docs next_oid db_testrun db_testsuite db_testcase db_logentry].

(** *** Models built from keyword arguments *)

Ltac kwargs :=
  cbn;
  repeat (match goal with
          | |- context [if ?b then _ else _] => destruct b
          | |- context [of_option _ ?o] => destruct o
          end; cbn);
  first [discriminate | intros [= <-]; reflexivity].

Lemma LogEntry_kwargs rid cid lv msg t stp att (r : LogEntry.t) :
  LogEntry.validate
    (VDict [ ("run_id", VStr rid); ("case_id", VStr cid); ("level", VStr lv);
             ("message", VStr msg); ("timestamp", VDatetime t);
             ("step", of_option VStr stp);
             ("attachment_url", of_option VStr att) ]) = Valid r ->
  r = {| LogEntry.run_id := rid; LogEntry.case_id := cid;
         LogEntry.level := lv; LogEntry.message := msg;
         LogEntry.timestamp := Some t; LogEntry.step := stp;
         LogEntry.attachment_url := att |}.
Proof.
  unfold LogEntry.validate, model, required, with_default. kwargs.
Qed.

Lemma TestCase_kwargs rid sid nm cn status dur em et rt cat au (r : TestCase.t) :
  TestCase.validate
    (VDict [ ("run_id", VStr rid); ("suite_id", VStr sid); ("name", VStr nm);
             ("class_name", of_option VStr cn); ("status", VStr status);
             ("duration_ms", of_option VInt dur);
             ("error_message", of_option VStr em);
             ("error_trace", of_option VStr et); ("retries", VInt rt);
             ("category", of_option VStr cat);
             ("author", of_option VStr au) ]) = Valid r ->
  r = {| TestCase.run_id := rid; TestCase.suite_id := sid;
         TestCase.name := nm; TestCase.class_name := cn;
         TestCase.status := status; TestCase.duration_ms := dur;
         TestCase.error_message := em; TestCase.error_trace := et;
         TestCase.retries := rt; TestCase.category := cat;
         TestCase.author := au |}.
Proof.
  unfold TestCase.validate, model, required, with_default. kwargs.
Qed.

Lemma TestSuite_kwargs rid nm status dur t p f s o (r : TestSuite.t) :
  TestSuite.validate
    (VDict [ ("run_id", VStr rid); ("name", VStr nm); ("status", VStr status);
             ("duration_ms", of_option VInt dur); ("total", VInt t);
             ("passed", VInt p); ("failed", VInt f); ("skipped", VInt s);
             ("order", VInt o) ]) = Valid r ->
  r = {| TestSuite.run_id := rid; TestSuite.name := nm;
         TestSuite.status := status; TestSuite.duration_ms := dur;
         TestSuite.total := t; TestSuite.passed := p; TestSuite.failed := f;
         TestSuite.skipped := s; TestSuite.order := Some o |}.
Proof.
  unfold TestSuite.validate, model, required, with_default. kwargs.
Qed.

Lemma items_v_strings (l : list string) (i : nat) :
  items_v str_v i (map VStr l) = Valid l.
Proof.
  revert i; induction l as [|x l IH]; intro i; [reflexivity|].
  cbn [map items_v]. now rewrite IH.
Qed.

Lemma TestRun_kwargs nm env br bd status t fin dur pf tg (r : TestRun.t) :
  TestRun.validate
    (VDict [ ("name", VStr nm); ("environment", of_option VStr env);
             ("branch", of_option VStr br); ("build", of_option VStr bd);
             ("status", VStr status); ("started_at", VDatetime t);
             ("finished_at", of_option VDatetime fin);
             ("duration_ms", of_option VInt dur);
             ("platform", of_option VStr pf);
             ("tags", VList (map VStr tg)) ]) = Valid r ->
  r = {| TestRun.name := nm; TestRun.environment := env;
         TestRun.branch := br; TestRun.build := bd;
         TestRun.status := status; TestRun.started_at := Some t;
         TestRun.finished_at := fin; TestRun.duration_ms := dur;
         TestRun.total := 0; TestRun.passed := 0; TestRun.failed := 0;
         TestRun.skipped := 0; TestRun.blocked := 0;
         TestRun.platform := pf; TestRun.tags := tg |}.
Proof.
  unfold TestRun.validate, model, required, with_default, list_v.
  cbn [dict_get String.eqb Ascii.eqb Bool.eqb]. rewrite items_v_strings.
  kwargs.
Qed.

(** *** The loops of [ingest], when they return *)

Ltac appended_tac :=
  repeat match goal with
         | H : appended _ _ _ _ _ _ |- _ => destruct H as (? & ? & ? & ?)
         end;
  unfold appended; cbn;
  repeat match goal with
         | H : _ = _ ++ _ |- _ => rewrite H; clear H
         end;
  rewrite ?app_nil_r, <- ?app_assoc; cbn; auto.

Lemma ingest_log_Return rid cid (l : LogEntry.t) (st st' : Store) (u : unit) :
  ingest_log rid cid l st = (Return u, st') ->
  exists d, appended st st' [] [] [] [d] /\ log_ok rid cid d l.
Proof.
  unfold ingest_log. intro H.
  apply bind_Return in H as (t & s1 & Ht & H).
  apply bind_Return in H as (ld & s2 & Hc & H).
  apply bind_Return in H as (i & s3 & Hd & H).
  injection H as _ <-.
  apply or_now_Return in Ht as (Ha & _ & Ht).
  apply construct_Return in Hc as (Hv & ->).
  apply LogEntry_kwargs in Hv. subst ld.
  apply create_document_Return in Hd as (_ & _ & ->).
  eexists. split; [appended_tac|].
  unfold log_ok; cbn. repeat split; eauto.
Qed.

Lemma for_each_logs_Return rid cid (logs : list LogEntry.t) (st st' : Store)
  (u : unit) :
  for_each logs (ingest_log rid cid) st = (Return u, st') ->
  exists ds, appended st st' [] [] [] ds /\ Forall2 (log_ok rid cid) ds logs.
Proof.
  unfold for_each. revert st u. induction logs as [|l logs IH]; intros st u H.
  - injection H as _ <-. exists []. split; [apply appended_refl|constructor].
  - cbn [foldM] in H. apply bind_Return in H as (u1 & s1 & H1 & H).
    apply ingest_log_Return in H1 as (d & Ha & Hd). destruct u1.
    apply IH in H as (ds & Ha' & Hds).
    exists (d :: ds). split; [|now constructor].
    apply (appended_trans _ _ _ _ _ _ _ _ _ _ _ Ha Ha').
Qed.

Lemma ingest_case_Return rid sid (c : IngestCase.t) (st st' : Store) (u : unit) :
  ingest_case rid sid c st = (Return u, st') ->
  exists ct : CaseDocs,
    appended st st' [] [] [fst ct] (snd ct) /\ case_ok rid sid ct c.
Proof.
  unfold ingest_case. intro H.
  apply bind_Return in H as (cd & s1 & Hc & H).
  apply bind_Return in H as (i & s2 & Hd & H).
  apply construct_Return in Hc as (Hv & ->).
  apply TestCase_kwargs in Hv. subst cd.
  apply create_document_Return in Hd as (-> & _ & ->).
  apply for_each_logs_Return in H as (ds & Ha & Hds).
  match type of Ha with
  | appended (set_docs _ (_ ++ [?d]) _) _ _ _ _ _ => exists (d, ds)
  end.
  split; [|split; [reflexivity|exact Hds]].
  cbn [fst snd]. appended_tac.
Qed.

Lemma for_each_cases_Return rid sid (cs : list IngestCase.t) (st st' : Store)
  (u : unit) :
  for_each cs (ingest_case rid sid) st = (Return u, st') ->
  exists cts : list CaseDocs,
    appended st st' [] [] (map fst cts) (log_docs_of cts)
    /\ Forall2 (case_ok rid sid) cts cs.
Proof.
  unfold for_each. revert st u. induction cs as [|c cs IH]; intros st u H.
  - injection H as _ <-. exists []. split; [apply appended_refl|constructor].
  - cbn [foldM] in H. apply bind_Return in H as (u1 & s1 & H1 & H).
    apply ingest_case_Return in H1 as (ct & Ha & Hct). destruct u1.
    apply IH in H as (cts & Ha' & Hcts).
    exists (ct :: cts). split; [|now constructor].
    apply (appended_trans _ _ _ _ _ _ _ _ _ _ _ Ha Ha').
Qed.

Lemma log_docs_of_app (a b : list CaseDocs) :
  log_docs_of (a ++ b) = log_docs_of a ++ log_docs_of b.
Proof. unfold log_docs_of. now rewrite map_app, concat_app. Qed.

Lemma ingest_suite_Return rid (acc acc' : Counters) (os : nat * IngestSuite.t)
  (st st' : Store) :
  ingest_suite rid acc os st = (Return acc', st') ->
  exists sd : SuiteDocs,
    appended st st' [] [fst sd] (map fst (snd sd)) (log_docs_of (snd sd))
    /\ suite_ok rid sd os
    /\ fresh_in (db_testsuite st) (fst sd)
    /\ acc' = {| total := total acc + or0 (IngestSuite.total (snd os));
                 passed := passed acc + or0 (IngestSuite.passed (snd os));
                 failed := failed acc + or0 (IngestSuite.failed (snd os));
                 skipped := skipped acc + or0 (IngestSuite.skipped (snd os));
                 blocked := blocked acc + 0 |}.
Proof.
  destruct os as [i s]. unfold ingest_suite. intro H.
  apply bind_Return in H as (sdata & s1 & Hc & H).
  apply bind_Return in H as (sid & s2 & Hd & H).
  apply bind_Return in H as (u & s3 & Hl & H).
  injection H as <- <-.
  apply construct_Return in Hc as (Hv & ->).
  apply TestSuite_kwargs in Hv. subst sdata.
  apply create_document_Return in Hd as (-> & Hfresh & ->).
  apply for_each_cases_Return in Hl as (cts & Ha & Hcts).
  match type of Ha with
  | appended (set_docs _ (_ ++ [?d]) _) _ _ _ _ _ => exists (d, cts)
  end.
  split; [cbn [fst snd]; appended_tac|].
  split; [split; [reflexivity|exact Hcts]|].
  split; [exact Hfresh|reflexivity].
Qed.

Lemma fresh_in_app_l {A : Type} (old new : list (Stored A)) (d : Stored A) :
  fresh_in (old ++ new) d -> fresh_in old d.
Proof.
  unfold fresh_in. rewrite existsb_app. intro H.
  now apply orb_false_iff in H as [H _].
Qed.

Lemma foldM_suites_Return rid (oss : list (nat * IngestSuite.t))
  (acc acc' : Counters) (st st' : Store) :
  foldM (ingest_suite rid) oss acc st = (Return acc', st') ->
  exists sts : list SuiteDocs,
    appended st st' [] (map fst sts) (map fst (case_docs_of sts))
             (log_docs_of (case_docs_of sts))
    /\ Forall2 (suite_ok rid) sts oss
    /\ Forall (fun sd => fresh_in (db_testsuite st) (fst sd)) sts
    /\ total acc' = total acc + sum_of IngestSuite.total (map snd oss)
    /\ passed acc' = passed acc + sum_of IngestSuite.passed (map snd oss)
    /\ failed acc' = failed acc + sum_of IngestSuite.failed (map snd oss)
    /\ skipped acc' = skipped acc + sum_of IngestSuite.skipped (map snd oss)
    /\ blocked acc' = blocked acc.
Proof.
  revert acc st. induction oss as [|os oss IH]; intros acc st H.
  - injection H as <- <-. exists [].
    split; [apply appended_refl|]. cbn. repeat split; auto with zarith.
  - cbn [foldM] in H. apply bind_Return in H as (acc1 & s1 & H1 & H).
    apply ingest_suite_Return in H1 as (sd & Ha & Hsd & Hf & ->).
    apply IH in H as (sts & Ha' & Hsts & Hfs & Ht & Hp & Hfl & Hsk & Hb).
    exists (sd :: sts).
    split.
    { unfold case_docs_of. cbn [map List.concat].
      rewrite map_app, log_docs_of_app.
      apply (appended_trans _ _ _ _ _ _ _ _ _ _ _ Ha Ha'). }
    split; [now constructor|].
    split.
    { constructor; [exact Hf|].
      destruct Ha as (_ & Hss & _). rewrite Hss in Hfs.
      revert Hfs. apply Forall_impl. intros d. apply fresh_in_app_l. }
    cbn [map sum_of fold_right total passed failed skipped blocked] in *.
    fold (sum_of IngestSuite.total (map snd oss)).
    fold (sum_of IngestSuite.passed (map snd oss)).
    fold (sum_of IngestSuite.failed (map snd oss)).
    fold (sum_of IngestSuite.skipped (map snd oss)).
    repeat split; lia.
Qed.

Lemma enumerate_from_snd {A : Type} (l : list A) (k : nat) :
  map snd (combine (seq k (List.length l)) l) = l.
Proof.
  revert k; induction l as [|x l IH]; intro k; [reflexivity|].
  cbn. now rewrite IH.
Qed.

Lemma enumerate_snd {A : Type} (l : list A) : map snd (enumerate l) = l.
Proof. apply enumerate_from_snd. Qed.

Lemma update_first_app_fresh {A : Type} (p : A -> bool) (f : A -> A)
  (old : list A) (x : A) :
  existsb p old = false -> p x = true ->
  update_first p f (old ++ [x]) = old ++ [f x].
Proof.
  intros Hold Hx. induction old as [|y old IH]; cbn.
  - now rewrite Hx.
  - cbn in Hold. apply orb_false_iff in Hold as [Hy Hold].
    rewrite Hy. now rewrite IH.
Qed.

Lemma find_app_fresh {A : Type} (p : A -> bool) (old : list A) (x : A) :
  existsb p old = false -> p x = true -> List.find p (old ++ [x]) = Some x.
Proof.
  intros Hold Hx. induction old as [|y old IH]; cbn.
  - now rewrite Hx.
  - cbn in Hold. apply orb_false_iff in Hold as [Hy Hold].
    rewrite Hy. now apply IH.
Qed.

Lemma has_id_refl {A : Type} (d : Stored A) : has_id (_id d) d = true.
Proof. apply oid_eqb_refl. Qed.

(** What [ingest] has done when it returns: one run, and under it the
    payload's suites, cases and logs, each appended to its collection. *)
Lemma ingest_Return (p : IngestRun.t) (st st' : Store) (rid : string) :
  ingest p st = (Return rid, st') ->
  exists (rd : Stored TestRun.t) (sts : list SuiteDocs),
    rid = ObjectId.str (_id rd)
    /\ ObjectId.parse rid = Some (_id rd)
    /\ fresh_in (db_testrun st) rd
    /\ run_ok rd p
    /\ appended st st' [rd] (map fst sts) (map fst (case_docs_of sts))
                (log_docs_of (case_docs_of sts))
    /\ Forall2 (suite_ok rid) sts (enumerate (IngestRun.suites p))
    /\ Forall (fun sd => fresh_in (db_testsuite st) (fst sd)) sts.
Proof.
  unfold ingest. intro H.
  apply bind_Return in H as (t & s1 & Ht & H).
  apply bind_Return in H as (rdata & s1' & Hc & H).
  apply bind_Return in H as (rid' & s2 & Hd & H).
  apply bind_Return in H as (sums & s3 & Hl & H).
  apply bind_Return in H as (oid & s3' & Ho & H).
  apply bind_Return in H as (u & s4 & Hu & H).
  injection H as <- <-.
  apply or_now_Return in Ht as (Ha1 & _ & Ht).
  apply construct_Return in Hc as (Hv & ->).
  apply TestRun_kwargs in Hv. subst rdata.
  apply create_document_Return in Hd as (-> & Hfresh & ->).
  unfold to_object_id in Ho. rewrite parse_generate in Ho.
  injection Ho as <- <-.
  apply foldM_suites_Return
    in Hl as (sts & Ha2 & Hsts & Hfs & Htot & Hpas & Hfai & Hski & Hblo).
  rewrite enumerate_snd in Htot, Hpas, Hfai, Hski.
  cbn [total passed failed skipped blocked] in *.
  unfold update_one in Hu. injection Hu as _ <-.
  destruct Ha1 as (Hr1 & Hs1 & Hc1 & Hl1).
  rewrite app_nil_r in Hr1, Hs1, Hc1, Hl1.
  destruct Ha2 as (Hr2 & Hs2 & Hc2 & Hl2).
  cbn [set_docs next_oid docs db_testrun db_testsuite db_testcase db_logentry]
    in Hr2, Hs2, Hc2, Hl2, Hfs, Hfresh.
  rewrite app_nil_r in Hr2.
  eexists {| _id := ObjectId.generate (oid_counter s1); doc := _ |}, sts.
  split; [reflexivity|].
  split; [apply parse_generate|].
  split; [unfold fresh_in; cbn [_id]; now rewrite <- Hr1|].
  split; [exists t; split; [exact Ht|reflexivity]|].
  split.
  { unfold appended.
    cbn [update_one set_docs docs db_testrun db_testsuite db_testcase
           db_logentry].
    rewrite Hr2, Hs2, Hc2, Hl2, Hr1, Hs1, Hc1, Hl1.
    rewrite update_first_app_fresh;
      [|now rewrite <- Hr1|apply oid_eqb_refl].
    unfold set_counters. cbn.
    rewrite Htot, Hpas, Hfai, Hski, Hblo. cbn. auto. }
  split; [exact Hsts|].
  now rewrite Hs1 in Hfs.
Qed.

(** ** Sorting by a key *)

Section Sorting.

Context {A : Type} (key : A -> option Z).

Lemma by_key_trans (x y z : A) :
  by_key key x y -> by_key key y z -> by_key key x z.
Proof.
  unfold by_key, key_le.
  destruct (key x), (key y), (key z); try easy.
  rewrite !Z.leb_le. lia.
Qed.

Lemma by_key_total (x y : A) :
  key_le (key x) (key y) = false -> by_key key y x.
Proof.
  unfold by_key, key_le. destruct (key x), (key y); try easy.
  rewrite Z.leb_gt, Z.leb_le. lia.
Qed.

Lemma insert_by_Forall (P : A -> Prop) (x : A) (l : list A) :
  P x -> Forall P l -> Forall P (insert_by key x l).
Proof.
  intros Hx Hl. induction Hl as [|y r Hy Hr IH]; cbn.
  - now constructor.
  - destruct (key_le (key x) (key y)); repeat constructor; auto.
Qed.

Lemma insert_by_sorted (x : A) (l : list A) :
  StronglySorted (by_key key) l ->
  StronglySorted (by_key key) (insert_by key x l).
Proof.
  intro Hl. induction Hl as [|y r Hr IH Hy]; cbn.
  - repeat constructor.
  - destruct (key_le (key x) (key y)) eqn:E.
    + constructor; [now constructor|].
      constructor; [exact E|].
      revert Hy. apply Forall_impl. intro z. now apply by_key_trans.
    + constructor; [exact IH|].
      apply insert_by_Forall; [now apply by_key_total|exact Hy].
Qed.

Lemma sort_sorted (l : list A) : StronglySorted (by_key key) (sort key l).
Proof.
  induction l as [|x r IH]; cbn; [constructor|now apply insert_by_sorted].
Qed.

Lemma insert_by_least (x : A) (l : list A) :
  Forall (by_key key x) l -> insert_by key x l = x :: l.
Proof.
  intro H. destruct H as [|y r Hy _]; cbn; [reflexivity|].
  unfold by_key in Hy. now rewrite Hy.
Qed.

(** A list already in order is left as it is. *)
Lemma sort_of_sorted (l : list A) :
  StronglySorted (by_key key) l -> sort key l = l.
Proof.
  intro Hl. induction Hl as [|x r Hr IH Hx]; cbn; [reflexivity|].
  rewrite IH. now apply insert_by_least.
Qed.

Lemma filter_insert_by (p : A -> bool) (x : A) (l : list A) :
  StronglySorted (by_key key) l ->
  filter p (insert_by key x l)
  = if p x then insert_by key x (filter p l) else filter p l.
Proof.
  intro Hl. induction Hl as [|y r Hr IH Hy]; cbn.
  - now destruct (p x).
  - destruct (key_le (key x) (key y)) eqn:E; cbn.
    + destruct (p x) eqn:Hpx; [|reflexivity].
      destruct (p y); cbn; [now rewrite E|].
      symmetry. apply insert_by_least.
      apply incl_Forall with (l1 := r); [apply incl_filter|].
      revert Hy. apply Forall_impl. intro z. now apply by_key_trans.
    + rewrite IH. destruct (p y), (p x); cbn; try reflexivity.
      now rewrite E.
Qed.

(** Sorting keeps equal keys in order, so it commutes with filtering. *)
Lemma filter_sort (p : A -> bool) (l : list A) :
  filter p (sort key l) = sort key (filter p l).
Proof.
  induction l as [|x r IH]; cbn; [reflexivity|].
  rewrite filter_insert_by by apply sort_sorted.
  rewrite IH. now destruct (p x).
Qed.

End Sorting.

Lemma StronglySorted_map {A B : Type} (R : B -> B -> Prop) (f : A -> B)
  (l : list A) :
  StronglySorted (fun x y => R (f x) (f y)) l -> StronglySorted R (map f l).
Proof.
  intro H. induction H as [|x r Hr IH Hx]; cbn; constructor; auto.
  now apply Forall_map.
Qed.

Lemma filter_map_comm {A B : Type} (p : B -> bool) (f : A -> B) (l : list A) :
  filter p (map f l) = map f (filter (fun x => p (f x)) l).
Proof.
  induction l as [|x l IH]; cbn; [reflexivity|].
  rewrite IH. now destruct (p (f x)).
Qed.

Lemma filter_all {A : Type} (p : A -> bool) (l : list A) :
  Forall (fun x => p x = true) l -> filter p l = l.
Proof.
  intro H. induction H as [|x l Hx _ IH]; cbn; [reflexivity|].
  now rewrite Hx, IH.
Qed.

Lemma filter_none {A : Type} (p : A -> bool) (l : list A) :
  Forall (fun x => p x = false) l -> filter p l = [].
Proof.
  intro H. induction H as [|x l Hx _ IH]; cbn; [reflexivity|].
  now rewrite Hx, IH.
Qed.

(** ** Generated identifiers are distinct *)

Lemma hexchar_inj (a b : N) :
  (a < 16)%N -> (b < 16)%N ->
  ObjectId.hexchar a = ObjectId.hexchar b -> a = b.
Proof.
  intros Ha Hb.
  assert (Hcases : forall d, (d < 16)%N ->
            d = 0%N \/ d = 1%N \/ d = 2%N \/ d = 3%N \/ d = 4%N \/ d = 5%N
            \/ d = 6%N \/ d = 7%N \/ d = 8%N \/ d = 9%N \/ d = 10%N
            \/ d = 11%N \/ d = 12%N \/ d = 13%N \/ d = 14%N \/ d = 15%N)
    by (intros; lia).
  destruct (Hcases a Ha) as [->|[->|[->|[->|[->|[->|[->|[->|[->|[->|[->|[->|[->|[->|[->| ->]]]]]]]]]]]]]]];
    destruct (Hcases b Hb) as [->|[->|[->|[->|[->|[->|[->|[->|[->|[->|[->|[->|[->|[->|[->| ->]]]]]]]]]]]]]]];
    cbn; intro E; first [reflexivity | discriminate E].
Qed.

Lemma digits_le_bounded (k : nat) (n : N) :
  Forall (fun d => (d < 16)%N) (ObjectId.digits_le k n).
Proof.
  revert n; induction k as [|k IH]; intro n; cbn; constructor; auto.
  now apply N.mod_lt.
Qed.

Lemma map_hexchar_inj (l l' : list N) :
  Forall (fun d => (d < 16)%N) l -> Forall (fun d => (d < 16)%N) l' ->
  map ObjectId.hexchar l = map ObjectId.hexchar l' -> l = l'.
Proof.
  intro Hl. revert l'. induction Hl as [|a l Ha _ IH]; intros l' Hl' E.
  - destruct l'; [reflexivity|discriminate].
  - destruct Hl' as [|b l' Hb Hl']; [discriminate|].
    cbn in E. injection E as E1 E2.
    f_equal; [now apply hexchar_inj|now apply IH].
Qed.

Lemma digits_le_mod (k : nat) (n m : N) :
  ObjectId.digits_le k n = ObjectId.digits_le k m ->
  (n mod 16 ^ N.of_nat k = m mod 16 ^ N.of_nat k)%N.
Proof.
  revert n m; induction k as [|k IH]; intros n m E.
  - cbn. now rewrite !N.mod_1_r.
  - cbn [ObjectId.digits_le] in E. injection E as E1 E2.
    apply IH in E2.
    rewrite Nat2N.inj_succ, N.pow_succ_r'.
    rewrite !N.Div0.mod_mul_r. now rewrite E1, E2.
Qed.

Lemma string_of_list_ascii_inj (l l' : list ascii) :
  string_of_list_ascii l = string_of_list_ascii l' -> l = l'.
Proof.
  intro E. apply (f_equal list_ascii_of_string) in E.
  now rewrite !list_ascii_of_string_of_list_ascii in E.
Qed.

Lemma rev_inj {A : Type} (l l' : list A) : rev l = rev l' -> l = l'.
Proof.
  intro E. apply (f_equal (@rev A)) in E. now rewrite !rev_involutive in E.
Qed.

Lemma Oid_inj (a b : string) : ObjectId.Oid a = ObjectId.Oid b -> a = b.
Proof. now intros [= ->]. Qed.

(** Below [16^24] the counter determines the identifier. *)
Lemma generate_inj (n m : N) :
  (n < 16 ^ 24)%N -> (m < 16 ^ 24)%N ->
  ObjectId.generate n = ObjectId.generate m -> n = m.
Proof.
  intros Hn Hm E. unfold ObjectId.generate, ObjectId.hex24 in E.
  apply Oid_inj, string_of_list_ascii_inj in E.
  apply map_hexchar_inj in E;
    try (apply Forall_rev; apply digits_le_bounded).
  apply rev_inj in E. apply digits_le_mod in E.
  change (N.of_nat 24) with 24%N in E.
  rewrite (N.mod_small n), (N.mod_small m) in E; assumption.
Qed.

(** ** Ingestion goes through *)

Lemma bind_returns {A B : Type} (m : M A) (k : A -> M B) (st st1 : Store)
  (a : A) :
  m st = (Return a, st1) -> bind m k st = k a st1.
Proof. intro H. unfold bind. now rewrite H. Qed.

Lemma issued_later (st st' : Store) (o : ObjectId.t) :
  (oid_counter st <= oid_counter st')%N -> issued st o -> issued st' o.
Proof. intros Hle (k & Hk & ->). exists k. split; [lia|reflexivity]. Qed.

Lemma well_formed_same_docs (st st' : Store) :
  db_testrun st' = db_testrun st -> db_testsuite st' = db_testsuite st ->
  db_testcase st' = db_testcase st -> db_logentry st' = db_logentry st ->
  (oid_counter st <= oid_counter st')%N ->
  well_formed st -> well_formed st'.
Proof.
  intros E1 E2 E3 E4 Hle (H1 & H2 & H3 & H4). unfold well_formed.
  rewrite E1, E2, E3, E4.
  repeat split; eapply Forall_impl; try eassumption;
    intros d; now apply issued_later.
Qed.

Lemma issued_not_next {A : Type} (st : Store) (l : list (Stored A)) :
  (oid_counter st < 16 ^ 24)%N ->
  Forall (fun d => issued st (_id d)) l ->
  existsb (has_id (ObjectId.generate (oid_counter st))) l = false.
Proof.
  intros Hlt H. induction H as [|d l (k & Hk & E) _ IH]; [reflexivity|].
  cbn [existsb]. rewrite IH, orb_false_r.
  unfold has_id. rewrite E.
  destruct (ObjectId.eqb _ _) eqn:Eq; [|reflexivity].
  apply oid_eqb_eq, generate_inj in Eq; lia.
Qed.

Lemma create_document_returns {A : Type} (c : collection A) (data : A)
  (st : Store) :
  well_formed st -> (oid_counter st < 16 ^ 24)%N ->
  exists st',
    create_document c data st
    = (Return (ObjectId.str (ObjectId.generate (oid_counter st))), st')
    /\ well_formed st'
    /\ oid_counter st' = (oid_counter st + 1)%N.
Proof.
  intros Hwf Hlt. unfold create_document.
  assert (Hfresh : existsb (has_id (ObjectId.generate (oid_counter st)))
                     (docs c st) = false).
  { destruct Hwf as (H1 & H2 & H3 & H4).
    destruct c; cbn [docs]; now apply issued_not_next. }
  rewrite Hfresh. eexists. split; [reflexivity|].
  assert (Hnew : issued (next_oid st) (ObjectId.generate (oid_counter st))).
  { exists (oid_counter st). split; [cbn; lia|reflexivity]. }
  assert (Hold : forall B (l : list (Stored B)),
             Forall (fun d => issued st (_id d)) l ->
             Forall (fun d => issued (next_oid st) (_id d)) l).
  { intros B l. apply Forall_impl. intros d. apply issued_later. cbn. lia. }
  destruct Hwf as (H1 & H2 & H3 & H4).
  split; [|destruct c; reflexivity].
  destruct c; unfold well_formed; store_fields;
    repeat split; auto;
    (apply Forall_app; split; [auto|constructor; [exact Hnew|constructor]]).
Qed.

Lemma or_now_returns (x : option datetime) (st : Store) :
  exists t st',
    or_now x st = (Return t, st')
    /\ (well_formed st -> well_formed st')
    /\ oid_counter st' = oid_counter st.
Proof.
  destruct x as [d|]; cbn; do 2 eexists; (split; [reflexivity|]);
    (split; [|reflexivity]); [auto|].
  apply well_formed_same_docs; cbn; auto; lia.
Qed.

Lemma duration_ok_ltb (z : Z) : duration_ok (Some z) -> (z <? 0) = false.
Proof. cbn. intro H. now apply Z.ltb_ge. Qed.

Ltac kwargs_valid :=
  cbn;
  repeat match goal with
         | H : existsb _ _ = true |- _ => cbn in H; rewrite H; clear H
         end;
  repeat (match goal with
          | H : duration_ok (Some ?z) |- _ =>
              rewrite (duration_ok_ltb z H); clear H
          | H : duration_ok ?o |- _ => is_var o; destruct o; [|clear H]
          | |- context [of_option _ ?o] => destruct o
          end; cbn);
  reflexivity.

Lemma LogEntry_kwargs_valid rid cid lv msg t stp att :
  existsb (String.eqb lv) levels = true ->
  LogEntry.validate
    (VDict [ ("run_id", VStr rid); ("case_id", VStr cid); ("level", VStr lv);
             ("message", VStr msg); ("timestamp", VDatetime t);
             ("step", of_option VStr stp);
             ("attachment_url", of_option VStr att) ])
  = Valid {| LogEntry.run_id := rid; LogEntry.case_id := cid;
             LogEntry.level := lv; LogEntry.message := msg;
             LogEntry.timestamp := Some t; LogEntry.step := stp;
             LogEntry.attachment_url := att |}.
Proof.
  intro H. unfold LogEntry.validate, model, required, with_default.
  kwargs_valid.
Qed.

Lemma TestCase_kwargs_valid rid sid nm cn status dur em et rt cat au :
  status_ok status -> duration_ok dur ->
  TestCase.validate
    (VDict [ ("run_id", VStr rid); ("suite_id", VStr sid); ("name", VStr nm);
             ("class_name", of_option VStr cn); ("status", VStr status);
             ("duration_ms", of_option VInt dur);
             ("error_message", of_option VStr em);
             ("error_trace", of_option VStr et); ("retries", VInt rt);
             ("category", of_option VStr cat);
             ("author", of_option VStr au) ])
  = Valid {| TestCase.run_id := rid; TestCase.suite_id := sid;
             TestCase.name := nm; TestCase.class_name := cn;
             TestCase.status := status; TestCase.duration_ms := dur;
             TestCase.error_message := em; TestCase.error_trace := et;
             TestCase.retries := rt; TestCase.category := cat;
             TestCase.author := au |}.
Proof.
  unfold status_ok. intros H Hd.
  unfold TestCase.validate, model, required, with_default.
  kwargs_valid.
Qed.

Lemma TestSuite_kwargs_valid rid nm status dur t p f s o :
  status_ok status -> duration_ok dur ->
  TestSuite.validate
    (VDict [ ("run_id", VStr rid); ("name", VStr nm); ("status", VStr status);
             ("duration_ms", of_option VInt dur); ("total", VInt t);
             ("passed", VInt p); ("failed", VInt f); ("skipped", VInt s);
             ("order", VInt o) ])
  = Valid {| TestSuite.run_id := rid; TestSuite.name := nm;
             TestSuite.status := status; TestSuite.duration_ms := dur;
             TestSuite.total := t; TestSuite.passed := p;
             TestSuite.failed := f; TestSuite.skipped := s;
             TestSuite.order := Some o |}.
Proof.
  unfold status_ok. intros H Hd.
  unfold TestSuite.validate, model, required, with_default.
  kwargs_valid.
Qed.

Lemma TestRun_kwargs_valid nm env br bd status t fin dur pf tg :
  status_ok status -> duration_ok dur ->
  TestRun.validate
    (VDict [ ("name", VStr nm); ("environment", of_option VStr env);
             ("branch", of_option VStr br); ("build", of_option VStr bd);
             ("status", VStr status); ("started_at", VDatetime t);
             ("finished_at", of_option VDatetime fin);
             ("duration_ms", of_option VInt dur);
             ("platform", of_option VStr pf);
             ("tags", VList (map VStr tg)) ])
  = Valid {| TestRun.name := nm; TestRun.environment := env;
             TestRun.branch := br; TestRun.build := bd;
             TestRun.status := status; TestRun.started_at := Some t;
             TestRun.finished_at := fin; TestRun.duration_ms := dur;
             TestRun.total := 0; TestRun.passed := 0; TestRun.failed := 0;
             TestRun.skipped := 0; TestRun.blocked := 0;
             TestRun.platform := pf; TestRun.tags := tg |}.
Proof.
  unfold status_ok. intros H Hd.
  unfold TestRun.validate, model, required, with_default, list_v.
  cbn [dict_get String.eqb Ascii.eqb Bool.eqb]. rewrite items_v_strings.
  kwargs_valid.
Qed.

Lemma construct_returns {A : Type} (v : validator A) kwargs (a : A)
  (st : Store) :
  v (VDict kwargs) = Valid a -> construct v kwargs st = (Return a, st).
Proof. intro H. unfold construct. now rewrite H. Qed.

Lemma ingest_log_returns rid cid (l : LogEntry.t) (st : Store) :
  acceptable_log l -> well_formed st -> (oid_counter st < 16 ^ 24)%N ->
  exists st',
    ingest_log rid cid l st = (Return tt, st')
    /\ well_formed st'
    /\ oid_counter st' = (oid_counter st + 1)%N.
Proof.
  intros Hl Hwf Hlt. unfold ingest_log.
  destruct (or_now_returns (LogEntry.timestamp l) st) as (t & s1 & E1 & W1 & C1).
  rewrite (bind_returns _ _ _ _ _ E1).
  rewrite (bind_returns _ _ _ _ _
             (construct_returns _ _ _ s1
                (LogEntry_kwargs_valid _ _ _ _ _ _ _ Hl))).
  destruct (create_document_returns logentry
              {| LogEntry.run_id := rid; LogEntry.case_id := cid;
                 LogEntry.level := LogEntry.level l;
                 LogEntry.message := LogEntry.message l;
                 LogEntry.timestamp := Some t;
                 LogEntry.step := LogEntry.step l;
                 LogEntry.attachment_url := LogEntry.attachment_url l |}
              s1 (W1 Hwf))
    as (s2 & E2 & W2 & C2); [lia|].
  rewrite (bind_returns _ _ _ _ _ E2).
  exists s2. split; [reflexivity|]. split; [exact W2|lia].
Qed.

Lemma for_each_logs_returns rid cid (logs : list LogEntry.t) (st : Store) :
  Forall acceptable_log logs -> well_formed st ->
  (oid_counter st + N.of_nat (List.length logs) <= 16 ^ 24)%N ->
  exists st',
    for_each logs (ingest_log rid cid) st = (Return tt, st')
    /\ well_formed st'
    /\ oid_counter st' = (oid_counter st + N.of_nat (List.length logs))%N.
Proof.
  unfold for_each. intro Hl. revert st.
  induction Hl as [|l logs Hl _ IH]; intros st Hwf Hle.
  - exists st. split; [reflexivity|]. split; [exact Hwf|cbn; lia].
  - cbn [List.length] in *. rewrite Nat2N.inj_succ in *.
    destruct (ingest_log_returns rid cid l st Hl Hwf) as (s1 & E1 & W1 & C1);
      [lia|].
    cbn [foldM]. rewrite (bind_returns _ _ _ _ _ E1).
    destruct (IH s1 W1) as (s2 & E2 & W2 & C2); [lia|].
    exists s2. split; [exact E2|]. split; [exact W2|lia].
Qed.

Lemma ingest_case_returns rid sid (c : IngestCase.t) (st : Store) :
  acceptable_case c -> well_formed st ->
  (oid_counter st + documents_of_case c <= 16 ^ 24)%N ->
  exists st',
    ingest_case rid sid c st = (Return tt, st')
    /\ well_formed st'
    /\ oid_counter st' = (oid_counter st + documents_of_case c)%N.
Proof.
  intros (Hs & Hd & Hl) Hwf Hle. unfold documents_of_case in *.
  unfold ingest_case.
  rewrite (bind_returns _ _ _ _ _
             (construct_returns _ _ _ st
                (TestCase_kwargs_valid rid sid _ _ _ _ _ _ _ _ _ Hs Hd))).
  destruct (create_document_returns testcase
              {| TestCase.run_id := rid; TestCase.suite_id := sid;
                 TestCase.name := IngestCase.name c;
                 TestCase.class_name := IngestCase.class_name c;
                 TestCase.status := IngestCase.status c;
                 TestCase.duration_ms := IngestCase.duration_ms c;
                 TestCase.error_message := IngestCase.error_message c;
                 TestCase.error_trace := IngestCase.error_trace c;
                 TestCase.retries := IngestCase.retries c;
                 TestCase.category := IngestCase.category c;
                 TestCase.author := IngestCase.author c |}
              st Hwf)
    as (s1 & E1 & W1 & C1); [lia|].
  rewrite (bind_returns _ _ _ _ _ E1).
  destruct (for_each_logs_returns rid
              (ObjectId.str (ObjectId.generate (oid_counter st)))
              (IngestCase.logs c) s1 Hl W1)
    as (s2 & E2 & W2 & C2); [lia|].
  exists s2. split; [exact E2|]. split; [exact W2|lia].
Qed.

Lemma for_each_cases_returns rid sid (cs : list IngestCase.t) (st : Store) :
  Forall acceptable_case cs -> well_formed st ->
  (oid_counter st
   + fold_right (fun c n => documents_of_case c + n) 0 cs <= 16 ^ 24)%N ->
  exists st',
    for_each cs (ingest_case rid sid) st = (Return tt, st')
    /\ well_formed st'
    /\ oid_counter st'
       = (oid_counter st
          + fold_right (fun c n => documents_of_case c + n) 0 cs)%N.
Proof.
  unfold for_each. intro Hc. revert st.
  induction Hc as [|c cs Hc _ IH]; intros st Hwf Hle.
  - exists st. split; [reflexivity|]. split; [exact Hwf|cbn; lia].
  - cbn [fold_right] in *.
    destruct (ingest_case_returns rid sid c st Hc Hwf) as (s1 & E1 & W1 & C1);
      [lia|].
    cbn [foldM]. rewrite (bind_returns _ _ _ _ _ E1).
    destruct (IH s1 W1) as (s2 & E2 & W2 & C2); [lia|].
    exists s2. split; [exact E2|]. split; [exact W2|lia].
Qed.

Lemma ingest_suite_returns rid (acc : Counters) (i : nat) (s : IngestSuite.t)
  (st : Store) :
  acceptable_suite s -> well_formed st ->
  (oid_counter st + documents_of_suite s <= 16 ^ 24)%N ->
  exists acc' st',
    ingest_suite rid acc (i, s) st = (Return acc', st')
    /\ well_formed st'
    /\ oid_counter st' = (oid_counter st + documents_of_suite s)%N.
Proof.
  intros (Hs & Hd & Hc) Hwf Hle. unfold documents_of_suite in *.
  unfold ingest_suite.
  rewrite (bind_returns _ _ _ _ _
             (construct_returns _ _ _ st
                (TestSuite_kwargs_valid rid _ _ _ _ _ _ _ _ Hs Hd))).
  destruct (create_document_returns testsuite
              {| TestSuite.run_id := rid;
                 TestSuite.name := IngestSuite.name s;
                 TestSuite.status := IngestSuite.status s;
                 TestSuite.duration_ms := IngestSuite.duration_ms s;
                 TestSuite.total := or0 (IngestSuite.total s);
                 TestSuite.passed := or0 (IngestSuite.passed s);
                 TestSuite.failed := or0 (IngestSuite.failed s);
                 TestSuite.skipped := or0 (IngestSuite.skipped s);
                 TestSuite.order :=
                   Some (match IngestSuite.order s with
                         | Some o => o
                         | None => Z.of_nat i
                         end) |}
              st Hwf)
    as (s1 & E1 & W1 & C1); [lia|].
  rewrite (bind_returns _ _ _ _ _ E1).
  destruct (for_each_cases_returns rid
              (ObjectId.str (ObjectId.generate (oid_counter st)))
              (IngestSuite.cases s) s1 Hc W1)
    as (s2 & E2 & W2 & C2); [lia|].
  rewrite (bind_returns _ _ _ _ _ E2).
  do 2 eexists. split; [reflexivity|]. split; [exact W2|lia].
Qed.

Lemma foldM_suites_returns rid (ss : list IngestSuite.t) :
  Forall acceptable_suite ss ->
  forall (k : nat) (acc : Counters) (st : Store),
    well_formed st ->
    (oid_counter st
     + fold_right (fun s n => documents_of_suite s + n) 0 ss <= 16 ^ 24)%N ->
    exists acc' st',
      foldM (ingest_suite rid) (combine (seq k (List.length ss)) ss) acc st
      = (Return acc', st')
      /\ well_formed st'
      /\ oid_counter st'
         = (oid_counter st
            + fold_right (fun s n => documents_of_suite s + n) 0 ss)%N.
Proof.
  intro Hs. induction Hs as [|s ss Hs _ IH]; intros k acc st Hwf Hle.
  - exists acc, st. split; [reflexivity|]. split; [exact Hwf|cbn; lia].
  - cbn [fold_right List.length seq combine foldM] in *.
    destruct (ingest_suite_returns rid acc k s st Hs Hwf)
      as (acc1 & s1 & E1 & W1 & C1); [lia|].
    rewrite (bind_returns _ _ _ _ _ E1).
    destruct (IH (S k) acc1 s1 W1) as (acc2 & s2 & E2 & W2 & C2); [lia|].
    exists acc2, s2. split; [exact E2|]. split; [exact W2|lia].
Qed.

Lemma Forall_update_first {A : Type} (P : ObjectId.t -> Prop)
  (p : Stored A -> bool) (f : A -> A) (l : list (Stored A)) :
  Forall (fun d => P (_id d)) l ->
  Forall (fun d => P (_id d))
         (update_first p (fun d => {| _id := _id d; doc := f (doc d) |}) l).
Proof.
  intro H. induction H as [|d l Hd Hl IH]; cbn; [constructor|].
  destruct (p d); constructor; auto.
Qed.

(** An acceptable payload is ingested, on a store whose identifiers are its
    own and whose counter leaves room for the documents of the payload. *)
Lemma ingest_returns (p : IngestRun.t) (st : Store) :
  acceptable p -> well_formed st ->
  (oid_counter st + documents_of p <= 16 ^ 24)%N ->
  exists st',
    ingest p st
    = (Return (ObjectId.str (ObjectId.generate (oid_counter st))), st')
    /\ well_formed st'
    /\ oid_counter st' = (oid_counter st + documents_of p)%N.
Proof.
  intros (Hs & Hd & Hss) Hwf Hle. unfold documents_of in *. unfold ingest.
  destruct (or_now_returns (IngestRun.started_at p) st)
    as (t & s1 & E1 & W1 & C1).
  rewrite (bind_returns _ _ _ _ _ E1).
  rewrite (bind_returns _ _ _ _ _
             (construct_returns _ _ _ s1
                (TestRun_kwargs_valid _ _ _ _ _ t _ _ _ _ Hs Hd))).
  destruct (create_document_returns testrun
              {| TestRun.name := IngestRun.name p;
                 TestRun.environment := IngestRun.environment p;
                 TestRun.branch := IngestRun.branch p;
                 TestRun.build := IngestRun.build p;
                 TestRun.status := IngestRun.status p;
                 TestRun.started_at := Some t;
                 TestRun.finished_at := IngestRun.finished_at p;
                 TestRun.duration_ms := IngestRun.duration_ms p;
                 TestRun.total := 0; TestRun.passed := 0;
                 TestRun.failed := 0; TestRun.skipped := 0;
                 TestRun.blocked := 0;
                 TestRun.platform := IngestRun.platform p;
                 TestRun.tags := IngestRun.tags p |}
              s1 (W1 Hwf))
    as (s2 & E2 & W2 & C2); [lia|].
  rewrite (bind_returns _ _ _ _ _ E2).
  destruct (foldM_suites_returns
              (ObjectId.str (ObjectId.generate (oid_counter s1)))
              (IngestRun.suites p) Hss 0%nat
              {| total := 0; passed := 0; failed := 0; skipped := 0;
                 blocked := 0 |} s2 W2)
    as (sums & s3 & E3 & W3 & C3); [lia|].
  unfold enumerate. rewrite (bind_returns _ _ _ _ _ E3).
  unfold to_object_id. rewrite parse_generate.
  rewrite C1. eexists. split; [reflexivity|].
  split; [|cbn [set_docs oid_counter]; lia].
  destruct W3 as (H1 & H2 & H3 & H4).
  unfold well_formed. store_fields.
  repeat split; auto. now apply Forall_update_first.
Qed.

(** ** Ingestion *)

Example nightly_validates :
  IngestRun.validate (nightly_body nightly_log_with_ids) = Valid nightly.
Proof. reflexivity. Qed.

(** C1. When [ingest] returns, the Run stored under the returned identifier
    has [total], [passed], [failed] and [skipped] equal to the sums of the
    payload's suite-level fields (an absent field counting 0) and [blocked]
    equal to 0. *)
Theorem ingest_run_counters (p : IngestRun.t) (st st' : Store) (rid : string) :
  ingest p st = (Return rid, st') ->
  exists oid run,
    ObjectId.parse rid = Some oid
    /\ find_one testrun oid st' = Some run
    /\ TestRun.total (doc run) = sum_of IngestSuite.total (IngestRun.suites p)
    /\ TestRun.passed (doc run) = sum_of IngestSuite.passed (IngestRun.suites p)
    /\ TestRun.failed (doc run) = sum_of IngestSuite.failed (IngestRun.suites p)
    /\ TestRun.skipped (doc run)
       = sum_of IngestSuite.skipped (IngestRun.suites p)
    /\ TestRun.blocked (doc run) = 0.
Proof.
  intro H.
  apply ingest_Return in H as (rd & sts & -> & Hp & Hf & (t & _ & Hd) & Ha & _).
  exists (_id rd), rd. split; [exact Hp|].
  destruct Ha as (Hr & _). unfold find_one. cbn [docs]. rewrite Hr.
  split; [apply find_app_fresh; [exact Hf|apply has_id_refl]|].
  rewrite Hd. cbn. auto.
Qed.

Lemma ingest_run_counters_witness :
  exists oid run,
    ObjectId.parse "000000000000000000000000" = Some oid
    /\ find_one testrun oid (snd (ingest nightly empty_store)) = Some run
    /\ TestRun.total (doc run) = 2
    /\ TestRun.passed (doc run) = 2
    /\ TestRun.failed (doc run) = 0
    /\ TestRun.skipped (doc run) = 0
    /\ TestRun.blocked (doc run) = 0.
Proof.
  apply (ingest_run_counters nightly empty_store
           (snd (ingest nightly empty_store)) "000000000000000000000000").
  vm_compute. reflexivity.
Defined.

(** ** Order of the suites *)

Lemma keys_from_seq_sorted {A : Type} (key : A -> option Z) (l : list A)
  (k : nat) (n : nat) :
  map key l = map (fun i => Some (Z.of_nat i)) (seq k n) ->
  StronglySorted (by_key key) l.
Proof.
  revert k n. induction l as [|x r IH]; intros k n H; [constructor|].
  destruct n as [|n]; [discriminate|]. cbn in H. injection H as Hx Hr.
  constructor; [exact (IH _ _ Hr)|].
  apply Forall_forall. intros y Hy.
  apply (in_map key) in Hy. rewrite Hr in Hy.
  apply in_map_iff in Hy as (i & Hi & Hin). apply in_seq in Hin.
  unfold by_key. rewrite Hx, <- Hi. cbn. apply Z.leb_le. lia.
Qed.

(** Under a payload whose suites give no order, the stored suites carry
    their positions. *)
Lemma stored_suites_positions rid (l : list IngestSuite.t) :
  Forall (fun s => IngestSuite.order s = None) l ->
  forall (k : nat) (sts : list SuiteDocs),
    Forall2 (suite_ok rid) sts (combine (seq k (List.length l)) l) ->
    map (fun d => TestSuite.order (doc d)) (map fst sts)
    = map (fun i => Some (Z.of_nat i)) (seq k (List.length l))
    /\ map (fun d => TestSuite.name (doc d)) (map fst sts)
       = map IngestSuite.name l.
Proof.
  intro Hl. induction Hl as [|s l Hs _ IH]; intros k sts H.
  - inversion H. split; reflexivity.
  - cbn in H. inversion H as [|sd os sts' oss (Hd & _) Hrest]; subst.
    apply IH in Hrest as (Ho & Hn).
    cbn [map List.length seq]. rewrite Ho, Hn, Hd. cbn. now rewrite Hs.
Qed.

Lemma stored_suites_run_id rid (sts : list SuiteDocs) oss :
  Forall2 (suite_ok rid) sts oss ->
  Forall (fun d => TestSuite.run_id (doc d) = rid) (map fst sts).
Proof.
  intro H. induction H as [|sd os sts oss (Hd & _) _ IH]; cbn; constructor; auto.
  now rewrite Hd.
Qed.

(** C6. The suites of a retrieved Run are in ascending order of [order]
    (a suite without [order] before the others).  When no suite of an
    ingested payload gives [order], the suites are stored with their
    zero-based positions in the payload as [order], and retrieving the
    ingested Run lists them in payload order. *)
Theorem suites_sorted_by_order :
  (forall run_id st tree st',
      get_run_detail run_id st = (Return tree, st') ->
      StronglySorted
        (fun a b => key_le (suite_order a) (suite_order b) = true)
        (suites tree))
  /\ (forall p st rid st',
         Forall (fun s => IngestSuite.order s = None) (IngestRun.suites p) ->
         ingest p st = (Return rid, st') ->
         (exists sds,
             db_testsuite st' = db_testsuite st ++ sds
             /\ map (fun d => TestSuite.name (doc d)) sds
                = map IngestSuite.name (IngestRun.suites p)
             /\ map (fun d => TestSuite.order (doc d)) sds
                = map (fun i => Some (Z.of_nat i))
                      (seq 0 (List.length (IngestRun.suites p))))
         /\ (exists tree,
                get_run_detail rid st' = (Return tree, st')
                /\ map (fun t => TestSuite.name (fields (suite_doc t)))
                       (filter (inserted_after st) (suites tree))
                   = map IngestSuite.name (IngestRun.suites p))).
Proof.
  split.
  - intros run_id st tree st'. unfold get_run_detail, to_object_id, bind, get.
    destruct (ObjectId.parse run_id) as [oid|]; [|discriminate].
    unfold ret. destruct (find_one testrun oid st) as [run|]; [|discriminate].
    intros [= <- <-]. cbn [suites]. rewrite map_map.
    apply StronglySorted_map. cbn.
    apply (sort_sorted (fun s => TestSuite.order (doc s))).
  - intros p st rid st' Hnone H.
    apply ingest_Return
      in H as (rd & sts & -> & Hp & Hf & _ & (Hr & Hs & _) & Hsts & Hfs).
    destruct (stored_suites_positions _ _ Hnone _ _ Hsts) as (Hord & Hnames).
    split; [exists (map fst sts); auto|].
    unfold get_run_detail, to_object_id, bind, get. rewrite Hp.
    unfold ret, find_one. cbn [docs]. rewrite Hr.
    rewrite (find_app_fresh _ _ _ Hf (has_id_refl rd)).
    eexists. split; [reflexivity|]. cbn [suites].
    rewrite map_map, filter_map_comm, filter_sort, map_map.
    unfold find. cbn [docs]. rewrite Hs, !filter_app.
    rewrite (filter_none _ (filter _ (db_testsuite st))).
    2:{ apply incl_Forall with (l1 := db_testsuite st); [apply incl_filter|].
        apply Forall_forall. intros d Hd. unfold inserted_after. cbn.
        apply negb_false_iff, existsb_exists. exists d.
        split; [exact Hd|apply String.eqb_refl]. }
    rewrite (filter_all _ (map fst sts)).
    2:{ apply stored_suites_run_id in Hsts. revert Hsts.
        apply Forall_impl. intros d ->. apply String.eqb_refl. }
    rewrite filter_all.
    2:{ apply Forall_map. revert Hfs. apply Forall_impl. intros sd Hsd.
        unfold inserted_after. cbn. apply negb_true_iff. exact Hsd. }
    cbn [app]. rewrite sort_of_sorted by exact (keys_from_seq_sorted _ _ _ _ Hord).
    exact Hnames.
Qed.

Lemma suites_sorted_by_order_witness :
  (exists tree,
      get_run_detail "000000000000000000000000"
        (snd (ingest ordered_backwards empty_store))
      = (Return tree, snd (ingest ordered_backwards empty_store))
      /\ map (fun t => TestSuite.name (fields (suite_doc t))) (suites tree)
         = ["First"; "Last"]
      /\ map suite_order (suites tree) = [Some 1; Some 2]
      /\ StronglySorted
           (fun a b => key_le (suite_order a) (suite_order b) = true)
           (suites tree))
  /\ ((exists sds,
          db_testsuite (snd (ingest unordered empty_store))
          = db_testsuite empty_store ++ sds
          /\ map (fun d => TestSuite.name (doc d)) sds = ["Auth"; "Billing"]
          /\ map (fun d => TestSuite.order (doc d)) sds = [Some 0; Some 1])
      /\ (exists tree,
             get_run_detail "000000000000000000000000"
               (snd (ingest unordered empty_store))
             = (Return tree, snd (ingest unordered empty_store))
             /\ map (fun t => TestSuite.name (fields (suite_doc t)))
                    (filter (inserted_after empty_store) (suites tree))
                = ["Auth"; "Billing"])).
Proof.
  split.
  - eexists. split; [vm_compute; reflexivity|].
    split; [vm_compute; reflexivity|].
    split; [vm_compute; reflexivity|].
    eapply (proj1 suites_sorted_by_order "000000000000000000000000"
              (snd (ingest ordered_backwards empty_store))).
    vm_compute. reflexivity.
  - apply (proj2 suites_sorted_by_order unordered empty_store
             "000000000000000000000000" (snd (ingest unordered empty_store))).
    + repeat constructor.
    + vm_compute. reflexivity.
Defined.

(** ** Ingesting twice *)

Lemma oid_str_inj (a b : ObjectId.t) :
  ObjectId.str a = ObjectId.str b -> a = b.
Proof. destruct a, b. cbn. now intros ->. Qed.

(** C9. Two successive calls of [ingest] with the same payload return
    different run identifiers.  The second call leaves what the first
    stored as it is and appends a run, suites, cases and logs of its own,
    one per element of the payload, the suites under the second run.  And
    both calls do return when the payload is acceptable to the stored
    models and the store has room for the identifiers. *)
Theorem ingest_twice_two_trees (p : IngestRun.t) (st : Store) :
  (forall (st1 st2 : Store) (r1 r2 : string),
      ingest p st = (Return r1, st1) ->
      ingest p st1 = (Return r2, st2) ->
      r1 <> r2
      /\ exists (rd1 rd2 : Stored TestRun.t) (sts1 sts2 : list SuiteDocs),
          ObjectId.str (_id rd1) = r1 /\ ObjectId.str (_id rd2) = r2
          /\ run_ok rd1 p /\ run_ok rd2 p
          /\ appended st st1 [rd1] (map fst sts1)
               (map fst (case_docs_of sts1)) (log_docs_of (case_docs_of sts1))
          /\ appended st1 st2 [rd2] (map fst sts2)
               (map fst (case_docs_of sts2)) (log_docs_of (case_docs_of sts2))
          /\ Forall2 (suite_ok r1) sts1 (enumerate (IngestRun.suites p))
          /\ Forall2 (suite_ok r2) sts2 (enumerate (IngestRun.suites p)))
  /\ (acceptable p -> well_formed st ->
      (oid_counter st + 2 * documents_of p <= 16 ^ 24)%N ->
      exists (st1 st2 : Store) (r1 r2 : string),
        ingest p st = (Return r1, st1) /\ ingest p st1 = (Return r2, st2)).
Proof.
  split.
  - intros st1 st2 r1 r2 H1 H2.
    apply ingest_Return
      in H1 as (rd1 & sts1 & E1 & _ & _ & Hr1 & Ha1 & Hs1 & _).
    apply ingest_Return
      in H2 as (rd2 & sts2 & E2 & _ & Hf2 & Hr2 & Ha2 & Hs2 & _).
    split.
    + intro E. subst r1 r2. apply oid_str_inj in E.
      destruct Ha1 as (Hr & _). unfold fresh_in in Hf2.
      rewrite Hr, existsb_app in Hf2. apply orb_false_iff in Hf2 as [_ Hf2].
      rewrite <- E in Hf2. cbn [existsb] in Hf2.
      rewrite has_id_refl in Hf2. discriminate.
    + exists rd1, rd2, sts1, sts2. subst r1 r2.
      split; [reflexivity|]. split; [reflexivity|].
      split; [exact Hr1|]. split; [exact Hr2|].
      split; [exact Ha1|]. split; [exact Ha2|].
      split; [exact Hs1|exact Hs2].
  - intros Hp Hwf Hle.
    destruct (ingest_returns p st Hp Hwf) as (st1 & E1 & W1 & C1); [lia|].
    destruct (ingest_returns p st1 Hp W1) as (st2 & E2 & W2 & C2); [lia|].
    exists st1, st2. do 2 eexists. split; [exact E1|exact E2].
Qed.

Lemma nightly_acceptable : acceptable nightly.
Proof.
  split; [reflexivity|]. split; [exact I|].
  repeat constructor.
Qed.

Lemma ingest_twice_two_trees_witness :
  ("000000000000000000000000" <> "000000000000000000000005"
   /\ exists (rd1 rd2 : Stored TestRun.t) (sts1 sts2 : list SuiteDocs),
       ObjectId.str (_id rd1) = "000000000000000000000000"
       /\ ObjectId.str (_id rd2) = "000000000000000000000005"
       /\ run_ok rd1 nightly /\ run_ok rd2 nightly
       /\ appended empty_store (snd (ingest nightly empty_store))
            [rd1] (map fst sts1) (map fst (case_docs_of sts1))
            (log_docs_of (case_docs_of sts1))
       /\ appended (snd (ingest nightly empty_store))
            (snd (ingest nightly (snd (ingest nightly empty_store))))
            [rd2] (map fst sts2) (map fst (case_docs_of sts2))
            (log_docs_of (case_docs_of sts2))
       /\ Forall2 (suite_ok "000000000000000000000000") sts1
                  (enumerate (IngestRun.suites nightly))
       /\ Forall2 (suite_ok "000000000000000000000005") sts2
                  (enumerate (IngestRun.suites nightly)))
  /\ exists (st1 st2 : Store) (r1 r2 : string),
      ingest nightly empty_store = (Return r1, st1)
      /\ ingest nightly st1 = (Return r2, st2).
Proof.
  split.
  - apply (proj1 (ingest_twice_two_trees nightly empty_store)
             (snd (ingest nightly empty_store))
             (snd (ingest nightly (snd (ingest nightly empty_store))))).
    + vm_compute. reflexivity.
    + vm_compute. reflexivity.
  - apply (proj2 (ingest_twice_two_trees nightly empty_store)).
    + exact nightly_acceptable.
    + repeat constructor.
    + apply N.leb_le. vm_compute. reflexivity.
Defined.

(** ** Parents of the ingested logs *)

Lemma stored_cases_flat rid (R : CaseDocs -> IngestCase.t -> Prop)
  (sts : list SuiteDocs) (oss : list (nat * IngestSuite.t)) :
  (forall sid ct c, case_ok rid sid ct c -> R ct c) ->
  Forall2 (suite_ok rid) sts oss ->
  Forall2 R (case_docs_of sts) (flat_map IngestSuite.cases (map snd oss)).
Proof.
  intros HR H. induction H as [|sd os sts oss (_ & Hcs) _ IH]; cbn.
  - constructor.
  - apply Forall2_app; [|exact IH].
    revert Hcs. apply Forall2_impl. intros ct c. apply HR.
Qed.

Lemma bind_ext {A B : Type} (m m' : M A) (k k' : A -> M B) :
  (forall st, m st = m' st) ->
  (forall a st, k a st = k' a st) ->
  forall st, bind m k st = bind m' k' st.
Proof.
  intros Hm Hk st. unfold bind. rewrite Hm.
  destruct (m' st) as [[a|e] st1]; [apply Hk|reflexivity].
Qed.

Lemma foldM_map_ext {A A' B : Type} (f : B -> A -> M B) (g : B -> A' -> M B)
  (h : A' -> A) (l : list A') :
  (forall b a st, f b (h a) st = g b a st) ->
  forall b st, foldM f (map h l) b st = foldM g l b st.
Proof.
  intro H. induction l as [|a l IH]; intros b st; [reflexivity|].
  cbn [map foldM]. apply bind_ext; [apply H|]. intros; apply IH.
Qed.

Lemma enumerate_map {A B : Type} (f : A -> B) (l : list A) :
  enumerate (map f l) = map (fun os => (fst os, f (snd os))) (enumerate l).
Proof.
  unfold enumerate. rewrite length_map. generalize 0%nat.
  induction l as [|x l IH]; intro k; [reflexivity|].
  cbn. now rewrite IH.
Qed.

Lemma vap_keeps_left {A B : Type} (f : validation (A -> B)) (x : validation A)
  (e : ErrorDetails) :
  (exists errs, f = Invalid errs /\ In e errs) ->
  exists errs, f <*> x = Invalid errs /\ In e errs.
Proof.
  intros (errs & -> & Hin). destruct x as [a|errs']; cbn; eexists; split;
    try reflexivity; auto using in_or_app.
Qed.

Lemma vap_keeps_right {A B : Type} (f : validation (A -> B)) (x : validation A)
  (e : ErrorDetails) :
  (exists errs, x = Invalid errs /\ In e errs) ->
  exists errs, f <*> x = Invalid errs /\ In e errs.
Proof.
  intros (errs & -> & Hin). destruct f as [g|errs']; cbn; eexists; split;
    try reflexivity; auto using in_or_app.
Qed.

Lemma required_missing {A : Type} (k : string) (p : validator A)
  (d : list (string * value)) :
  dict_get k d = None ->
  exists errs, required k p d = Invalid errs
               /\ In {| loc := [Key k]; type := missing |} errs.
Proof.
  intro H. unfold required. rewrite H. eexists. split; [reflexivity|].
  now left.
Qed.

(** C10. When [ingest] returns, every log it stored carries the returned
    run identifier as [run_id] and the identifier of the stored case it
    belongs to as [case_id].  The [run_id] and [case_id] the payload
    declares on a log have no effect on what [ingest] does, although
    [LogEntry], the model of a payload log, rejects a log without them. *)
Theorem ingest_log_parents (p : IngestRun.t) (st : Store) :
  (forall rid st',
      ingest p st = (Return rid, st') ->
      exists cts : list CaseDocs,
        db_testcase st' = db_testcase st ++ map fst cts
        /\ db_logentry st' = db_logentry st ++ log_docs_of cts
        /\ Forall2
             (fun ct c =>
                TestCase.name (doc (fst ct)) = IngestCase.name c
                /\ Forall2
                     (fun d l =>
                        LogEntry.run_id (doc d) = rid
                        /\ LogEntry.case_id (doc d)
                           = ObjectId.str (_id (fst ct))
                        /\ LogEntry.message (doc d) = LogEntry.message l)
                     (snd ct) (IngestCase.logs c))
             cts (flat_map IngestSuite.cases (IngestRun.suites p)))
  /\ (forall r c, ingest (with_log_parents r c p) st = ingest p st)
  /\ (forall d, dict_get "run_id" d = None ->
                reports "run_id" missing (LogEntry.validate (VDict d)))
  /\ (forall d, dict_get "case_id" d = None ->
                reports "case_id" missing (LogEntry.validate (VDict d))).
Proof.
  split; [|split; [|split]].
  - intros rid st' H.
    apply ingest_Return in H as (rd & sts & _ & _ & _ & _ & Ha & Hsts & _).
    destruct Ha as (_ & _ & Hc & Hl).
    exists (case_docs_of sts). split; [exact Hc|]. split; [exact Hl|].
    rewrite <- (enumerate_snd (IngestRun.suites p)).
    revert Hsts. apply stored_cases_flat.
    intros sid ct c (Hd & Hlogs).
    split; [exact (f_equal TestCase.name Hd)|].
    revert Hlogs. apply Forall2_impl.
    intros d l (H1 & H2 & _ & H4 & _). auto.
  - intros r c. unfold ingest, with_log_parents.
    cbn [IngestRun.name IngestRun.environment IngestRun.branch IngestRun.build
           IngestRun.status IngestRun.started_at IngestRun.finished_at
           IngestRun.duration_ms IngestRun.platform IngestRun.tags
           IngestRun.suites].
    apply bind_ext; [reflexivity|]. intros t st1.
    apply bind_ext; [reflexivity|]. intros rdata st2.
    apply bind_ext; [reflexivity|]. intros rid st3.
    apply bind_ext; [|reflexivity]. clear. intros st.
    rewrite enumerate_map. apply foldM_map_ext. clear st.
    intros acc [i s] st. unfold ingest_suite. cbn [fst snd].
    apply bind_ext; [reflexivity|]. intros sdata st1.
    apply bind_ext; [reflexivity|]. intros sid st2.
    apply bind_ext; [|reflexivity]. clear. intros st.
    unfold for_each. cbn [IngestSuite.cases]. apply foldM_map_ext. clear st.
    intros u k st. unfold ingest_case.
    apply bind_ext; [reflexivity|]. intros cdata st1.
    apply bind_ext; [reflexivity|]. intros cid st2.
    unfold for_each. cbn [IngestCase.logs]. apply foldM_map_ext.
    reflexivity.
  - intros d H. unfold reports, LogEntry.validate, model.
    do 6 apply vap_keeps_left.
    destruct (required_missing "run_id" str_v d H) as (errs & -> & Hin).
    cbn. eauto.
  - intros d H. unfold reports, LogEntry.validate, model.
    do 5 apply vap_keeps_left. apply vap_keeps_right.
    now apply required_missing.
Qed.

Lemma ingest_log_parents_witness :
  (exists cts : list CaseDocs,
      db_testcase (snd (ingest nightly empty_store))
      = db_testcase empty_store ++ map fst cts
      /\ db_logentry (snd (ingest nightly empty_store))
         = db_logentry empty_store ++ log_docs_of cts
      /\ Forall2
           (fun ct c =>
              TestCase.name (doc (fst ct)) = IngestCase.name c
              /\ Forall2
                   (fun d l =>
                      LogEntry.run_id (doc d) = "000000000000000000000000"
                      /\ LogEntry.case_id (doc d)
                         = ObjectId.str (_id (fst ct))
                      /\ LogEntry.message (doc d) = LogEntry.message l)
                   (snd ct) (IngestCase.logs c))
           cts (flat_map IngestSuite.cases (IngestRun.suites nightly)))
  /\ ingest (with_log_parents "x" "y" nightly) empty_store
     = ingest nightly empty_store
  /\ reports "run_id" missing
       (LogEntry.validate (VDict [("message", VStr "start")]))
  /\ reports "case_id" missing
       (LogEntry.validate (VDict [("message", VStr "start")])).
Proof.
  destruct (ingest_log_parents nightly empty_store) as (H1 & H2 & H3 & H4).
  split; [|split; [|split]].
  - apply (H1 "000000000000000000000000"). vm_compute. reflexivity.
  - apply H2.
  - apply H3. reflexivity.
  - apply H4. reflexivity.
Defined.

(** ** Referential integrity *)

Lemma known_In {A : Type} (l : list (Stored A)) (x : string) :
  known l x = true <-> In x (ids l).
Proof.
  unfold known. rewrite existsb_exists. split.
  - intros (y & Hy & E). apply String.eqb_eq in E. now subst.
  - intro H. exists x. split; [exact H|apply String.eqb_refl].
Qed.

Lemma known_app {A : Type} (l l' : list (Stored A)) (x : string) :
  known l x = true -> known (l ++ l') x = true.
Proof.
  rewrite !known_In. unfold ids. rewrite map_app. intro H.
  apply in_or_app. now left.
Qed.

Lemma known_last {A : Type} (l : list (Stored A)) (d : Stored A) :
  known (l ++ [d]) (ObjectId.str (_id d)) = true.
Proof.
  apply known_In. unfold ids. rewrite map_app. apply in_or_app.
  right. now left.
Qed.

Lemma ids_update_first {A : Type} (p : Stored A -> bool) (f : A -> A)
  (l : list (Stored A)) :
  ids (update_first p (fun d => {| _id := _id d; doc := f (doc d) |}) l)
  = ids l.
Proof.
  induction l as [|x l IH]; [reflexivity|].
  cbn. destruct (p x); cbn; [reflexivity|]. unfold ids in IH. now rewrite IH.
Qed.

Lemma referential_integrity_Forall (st : Store) :
  referential_integrity st = true <->
  Forall (fun s => known (db_testrun st) (TestSuite.run_id (doc s)) = true)
         (db_testsuite st)
  /\ Forall (fun c => known (db_testsuite st) (TestCase.suite_id (doc c)) = true)
            (db_testcase st)
  /\ Forall (fun l => known (db_testcase st) (LogEntry.case_id (doc l)) = true)
            (db_logentry st).
Proof.
  unfold referential_integrity.
  rewrite !andb_true_iff, !forallb_forall, !Forall_forall. tauto.
Qed.

Lemma triple_ret {A : Type} (P : Store -> Prop) (a : A)
  (Q : A -> Store -> Prop) :
  (forall st, P st -> Q a st) -> triple P (ret a) Q.
Proof. intros H st HP. now apply H. Qed.

Lemma triple_bind {A B : Type} (P : Store -> Prop) (m : M A)
  (Q : A -> Store -> Prop) (k : A -> M B) (R : B -> Store -> Prop) :
  triple P m Q -> (forall a, triple (Q a) (k a) R) -> triple P (bind m k) R.
Proof.
  intros Hm Hk st HP. unfold bind. specialize (Hm st HP).
  destruct (m st) as [[a|e] st1]; [now apply Hk|exact Hm].
Qed.

Lemma triple_weaken {A : Type} (P P' : Store -> Prop) (m : M A)
  (Q Q' : A -> Store -> Prop) :
  (forall st, P' st -> P st) -> (forall a st, Q a st -> Q' a st) ->
  triple P m Q -> triple P' m Q'.
Proof.
  intros HP HQ H st HP'. specialize (H st (HP st HP')).
  destruct (m st) as [[a|e] st1]; auto.
Qed.

Lemma triple_assume {A : Type} (P : Store -> Prop) (F : Prop) (m : M A)
  (Q : A -> Store -> Prop) :
  (F -> triple P m Q) -> triple (fun st => P st /\ F) m Q.
Proof. intros H st [HP HF]. now apply H. Qed.

Lemma triple_foldM {A B : Type} (I : Store -> Prop) (f : B -> A -> M B)
  (l : list A) :
  (forall b a, triple I (f b a) (fun _ => I)) ->
  forall b, triple I (foldM f l b) (fun _ => I).
Proof.
  intro H. induction l as [|a l IH]; intro b; cbn [foldM].
  - now apply triple_ret.
  - eapply triple_bind; [apply H|]. intro b'. apply IH.
Qed.

Lemma inv_integrity r s c (st : Store) :
  inv r s c st -> referential_integrity st = true.
Proof. now intros (H & _). Qed.

(** The invariant looks at the documents only. *)
Lemma inv_same_docs r s c (st st' : Store) :
  db_testrun st' = db_testrun st -> db_testsuite st' = db_testsuite st ->
  db_testcase st' = db_testcase st -> db_logentry st' = db_logentry st ->
  inv r s c st -> inv r s c st'.
Proof.
  unfold inv. rewrite !referential_integrity_Forall.
  now intros -> -> -> ->.
Qed.

Lemma triple_or_now r s c (x : option datetime) :
  triple (inv r s c) (or_now x) (fun _ => inv r s c).
Proof.
  intros st H. destruct x; cbn; [exact H|].
  revert H. now apply inv_same_docs.
Qed.

Lemma triple_now r s c : triple (inv r s c) now (fun _ => inv r s c).
Proof. intros st H. cbn. revert H. now apply inv_same_docs. Qed.

Lemma triple_construct {A : Type} r s c (v : validator A) kwargs :
  triple (inv r s c) (construct v kwargs)
         (fun a st => inv r s c st /\ v (VDict kwargs) = Valid a).
Proof.
  intros st H. unfold construct.
  destruct (v (VDict kwargs)); cbn; [auto|now apply inv_integrity in H].
Qed.

Lemma triple_to_object_id r s c (x : string) :
  triple (inv r s c) (to_object_id x) (fun _ => inv r s c).
Proof.
  intros st H. unfold to_object_id.
  destruct (ObjectId.parse x); cbn; [auto|now apply inv_integrity in H].
Qed.

Lemma Forall_known_app {A B : Type} (l l' : list (Stored A)) (f : B -> string)
  (xs : list B) :
  Forall (fun x => known l (f x) = true) xs ->
  Forall (fun x => known (l ++ l') (f x) = true) xs.
Proof. apply Forall_impl. intro x. apply known_app. Qed.

Lemma Forall_known_In {A : Type} (l : list (Stored A)) (xs : list string)
  (x : string) :
  Forall (fun x => known l x = true) xs -> In x xs -> known l x = true.
Proof. intros H Hin. rewrite Forall_forall in H. now apply H. Qed.

Lemma triple_create_testrun r s c (data : TestRun.t) :
  triple (inv r s c) (create_document testrun data)
         (fun rid => inv (rid :: r) s c).
Proof.
  intros st H. unfold create_document.
  destruct (existsb _ (docs testrun st)).
  - apply inv_integrity with (r := r) (s := s) (c := c).
    revert H. now apply inv_same_docs.
  - destruct H as (HRI & Hr & Hs & Hc).
    apply referential_integrity_Forall in HRI as (H1 & H2 & H3).
    unfold inv. rewrite referential_integrity_Forall. store_fields.
    repeat split; auto.
    + now apply Forall_known_app.
    + constructor; [apply known_last|].
      now apply (Forall_known_app _ _ (fun x => x)).
Qed.

Lemma triple_create_testsuite r s c (data : TestSuite.t) :
  In (TestSuite.run_id data) r ->
  triple (inv r s c) (create_document testsuite data)
         (fun sid => inv r (sid :: s) c).
Proof.
  intros Hin st H. unfold create_document.
  destruct (existsb _ (docs testsuite st)).
  - apply inv_integrity with (r := r) (s := s) (c := c).
    revert H. now apply inv_same_docs.
  - destruct H as (HRI & Hr & Hs & Hc).
    apply referential_integrity_Forall in HRI as (H1 & H2 & H3).
    unfold inv. rewrite referential_integrity_Forall. store_fields.
    repeat split; auto.
    + apply Forall_app. split; [exact H1|].
      constructor; [|constructor]. cbn [doc].
      now apply (Forall_known_In _ r).
    + now apply Forall_known_app.
    + constructor; [apply known_last|].
      now apply (Forall_known_app _ _ (fun x => x)).
Qed.

Lemma triple_create_testcase r s c (data : TestCase.t) :
  In (TestCase.suite_id data) s ->
  triple (inv r s c) (create_document testcase data)
         (fun cid => inv r s (cid :: c)).
Proof.
  intros Hin st H. unfold create_document.
  destruct (existsb _ (docs testcase st)).
  - apply inv_integrity with (r := r) (s := s) (c := c).
    revert H. now apply inv_same_docs.
  - destruct H as (HRI & Hr & Hs & Hc).
    apply referential_integrity_Forall in HRI as (H1 & H2 & H3).
    unfold inv. rewrite referential_integrity_Forall. store_fields.
    repeat split; auto.
    + apply Forall_app. split; [exact H2|].
      constructor; [|constructor]. cbn [doc].
      now apply (Forall_known_In _ s).
    + now apply Forall_known_app.
    + constructor; [apply known_last|].
      now apply (Forall_known_app _ _ (fun x => x)).
Qed.

Lemma triple_create_logentry r s c (data : LogEntry.t) :
  In (LogEntry.case_id data) c ->
  triple (inv r s c) (create_document logentry data) (fun _ => inv r s c).
Proof.
  intros Hin st H. unfold create_document.
  destruct (existsb _ (docs logentry st)).
  - apply inv_integrity with (r := r) (s := s) (c := c).
    revert H. now apply inv_same_docs.
  - destruct H as (HRI & Hr & Hs & Hc).
    apply referential_integrity_Forall in HRI as (H1 & H2 & H3).
    unfold inv. rewrite referential_integrity_Forall. store_fields.
    repeat split; auto.
    apply Forall_app. split; [exact H3|].
    constructor; [|constructor]. cbn [doc].
    now apply (Forall_known_In _ c).
Qed.

Lemma triple_update_testrun r s c (oid : ObjectId.t)
  (set : TestRun.t -> TestRun.t) :
  triple (inv r s c) (update_one testrun oid set) (fun _ => inv r s c).
Proof.
  intros st (HRI & Hr & Hs & Hc).
  apply referential_integrity_Forall in HRI as (H1 & H2 & H3).
  unfold update_one. cbv beta iota.
  unfold inv. rewrite referential_integrity_Forall. store_fields.
  unfold known in *. rewrite ids_update_first. auto.
Qed.

(** *** The handlers keep the invariant *)

Lemma inv_drop_case r s c (x : string) (st : Store) :
  inv r s (x :: c) st -> inv r s c st.
Proof.
  intros (H & Hr & Hs & Hc). apply Forall_inv_tail in Hc. now repeat split.
Qed.

Lemma inv_drop_suite r s c (x : string) (st : Store) :
  inv r (x :: s) c st -> inv r s c st.
Proof.
  intros (H & Hr & Hs & Hc). apply Forall_inv_tail in Hs. now repeat split.
Qed.

Lemma inv_drop_run r s c (x : string) (st : Store) :
  inv (x :: r) s c st -> inv r s c st.
Proof.
  intros (H & Hr & Hs & Hc). apply Forall_inv_tail in Hr. now repeat split.
Qed.

Lemma triple_ingest_log r s c rid cid (l : LogEntry.t) :
  In cid c ->
  triple (inv r s c) (ingest_log rid cid l) (fun _ => inv r s c).
Proof.
  intro Hin. unfold ingest_log.
  eapply triple_bind; [apply triple_or_now|]. intro t.
  eapply triple_bind; [apply triple_construct|]. intro data.
  apply triple_assume. intro Hv. apply LogEntry_kwargs in Hv. subst data.
  eapply triple_bind; [now apply triple_create_logentry|]. intro u.
  now apply triple_ret.
Qed.

Lemma triple_ingest_case r s c rid sid (k : IngestCase.t) :
  In sid s ->
  triple (inv r s c) (ingest_case rid sid k) (fun _ => inv r s c).
Proof.
  intro Hin. unfold ingest_case.
  eapply triple_bind; [apply triple_construct|]. intro data.
  apply triple_assume. intro Hv. apply TestCase_kwargs in Hv. subst data.
  eapply triple_bind; [now apply triple_create_testcase|]. intro cid.
  apply (triple_weaken (inv r s (cid :: c)) _ _ (fun _ => inv r s (cid :: c)));
    [auto|intros a st; apply inv_drop_case|].
  unfold for_each. apply triple_foldM.
  intros u l. apply triple_ingest_log. now left.
Qed.

Lemma triple_ingest_suite r s c rid (acc : Counters)
  (os : nat * IngestSuite.t) :
  In rid r ->
  triple (inv r s c) (ingest_suite rid acc os) (fun _ => inv r s c).
Proof.
  intro Hin. destruct os as [i su]. unfold ingest_suite.
  eapply triple_bind; [apply triple_construct|]. intro data.
  apply triple_assume. intro Hv. apply TestSuite_kwargs in Hv. subst data.
  eapply triple_bind; [now apply triple_create_testsuite|]. intro sid.
  apply (triple_weaken (inv r (sid :: s) c) _ _ (fun _ => inv r (sid :: s) c));
    [auto|intros a st; apply inv_drop_suite|].
  eapply triple_bind.
  - unfold for_each. apply triple_foldM.
    intros u k. apply triple_ingest_case. now left.
  - intro u. now apply triple_ret.
Qed.

Lemma triple_ingest (p : IngestRun.t) :
  triple (inv [] [] []) (ingest p) (fun _ => inv [] [] []).
Proof.
  unfold ingest.
  eapply triple_bind; [apply triple_or_now|]. intro t.
  eapply triple_bind; [apply triple_construct|]. intro data.
  apply triple_assume. intro Hv.
  eapply triple_bind; [apply triple_create_testrun|]. intro rid.
  apply (triple_weaken (inv [rid] [] []) _ _ (fun _ => inv [rid] [] []));
    [auto|intros a st; apply inv_drop_run|].
  eapply triple_bind.
  { apply triple_foldM. intros acc os. apply triple_ingest_suite. now left. }
  intro sums.
  eapply triple_bind; [apply triple_to_object_id|]. intro oid.
  eapply triple_bind; [apply triple_update_testrun|]. intro u.
  now apply triple_ret.
Qed.

Lemma triple_integrity {A : Type} (P : Store -> Prop) (m : M A)
  (Q : A -> Store -> Prop) (st : Store) :
  triple P m Q ->
  (forall a st', Q a st' -> referential_integrity st' = true) ->
  P st -> referential_integrity (snd (m st)) = true.
Proof.
  intros H HQ HP. specialize (H st HP).
  destruct (m st) as [[a|e] st']; cbn; [now apply (HQ a)|exact H].
Qed.

Lemma inv_nil (st : Store) :
  referential_integrity st = true -> inv [] [] [] st.
Proof. intro H. now repeat split. Qed.

Lemma inv_known_run (st : Store) (x : string) :
  referential_integrity st = true -> known (db_testrun st) x = true ->
  inv [x] [] [] st.
Proof. intros H K. repeat split; auto. Qed.

Lemma inv_known_suite (st : Store) (x : string) :
  referential_integrity st = true -> known (db_testsuite st) x = true ->
  inv [] [x] [] st.
Proof. intros H K. repeat split; auto. Qed.

Lemma inv_known_case (st : Store) (x : string) :
  referential_integrity st = true -> known (db_testcase st) x = true ->
  inv [] [] [x] st.
Proof. intros H K. repeat split; auto. Qed.

Lemma perform_keeps_integrity (o : operation) (st : Store) :
  referential_integrity st = true -> parent_known st o = true ->
  referential_integrity (perform o st) = true.
Proof.
  intros HRI HK. destruct o as [run|rid suite|sid case|cid log|p]; cbn in HK;
    cbn [perform].
  - apply (triple_integrity (inv [] [] []) _ (fun _ => inv [] [] []));
      [|intros a st'; apply inv_integrity|now apply inv_nil].
    unfold create_run.
    eapply triple_bind; [apply triple_now|]. intro t.
    eapply triple_bind; [apply triple_create_testrun|]. intro i.
    apply triple_ret. intros st'. apply inv_drop_run.
  - unfold create_suite.
    destruct (String.eqb (TestSuite.run_id suite) rid) eqn:E; cbn [negb];
      [|exact HRI].
    apply String.eqb_eq in E.
    apply (triple_integrity (inv [rid] [] []) _ (fun _ => inv [rid] [] []));
      [|intros a st'; apply inv_integrity|now apply inv_known_run].
    eapply triple_bind; [apply triple_create_testsuite; now left|]. intro i.
    apply triple_ret. intros st'. apply inv_drop_suite.
  - unfold create_case.
    destruct (String.eqb (TestCase.suite_id case) sid) eqn:E; cbn [negb];
      [|exact HRI].
    apply String.eqb_eq in E.
    apply (triple_integrity (inv [] [sid] []) _ (fun _ => inv [] [sid] []));
      [|intros a st'; apply inv_integrity|now apply inv_known_suite].
    eapply triple_bind; [apply triple_create_testcase; now left|]. intro i.
    apply triple_ret. intros st'. apply inv_drop_case.
  - unfold add_log.
    destruct (String.eqb (LogEntry.case_id log) cid) eqn:E; cbn [negb];
      [|exact HRI].
    apply String.eqb_eq in E.
    apply (triple_integrity (inv [] [] [cid]) _ (fun _ => inv [] [] [cid]));
      [|intros a st'; apply inv_integrity|now apply inv_known_case].
    apply (triple_bind _ _
             (fun data st' => inv [] [] [cid] st'
                              /\ LogEntry.case_id data = cid)).
    + destruct (LogEntry.timestamp log).
      * apply triple_ret. auto.
      * eapply triple_bind; [apply triple_now|]. intro t.
        apply triple_ret. auto.
    + intro data. apply triple_assume. intro Hd.
      eapply triple_bind; [apply triple_create_logentry; now left|]. intro i.
      now apply triple_ret.
  - apply (triple_integrity (inv [] [] []) _ (fun _ => inv [] [] []));
      [apply triple_ingest|intros a st'; apply inv_integrity|now apply inv_nil].
Qed.

(** C5, as the handlers have it.  [create_suite], [create_case] and
    [add_log] compare the declared parent with the path and do not look the
    parent up; when every such call names a parent that is stored, every
    stored suite names a stored run, every stored case a stored suite and
    every stored log a stored case, after any sequence of operations,
    returned or raised. *)
Theorem integrity_when_parents_known (ops : list operation) (st : Store) :
  referential_integrity st = true ->
  parents_known st ops = true ->
  referential_integrity (perform_all ops st) = true.
Proof.
  revert st. induction ops as [|o ops IH]; intros st HRI HK; [exact HRI|].
  cbn in HK. apply andb_true_iff in HK as [Ho Hops].
  cbn [perform_all fold_left]. apply IH; [|exact Hops].
  now apply perform_keeps_integrity.
Qed.

Lemma integrity_when_parents_known_witness :
  referential_integrity
    (perform_all
       [ CreateRun smoke_run;
         CreateSuite "000000000000000000000000" first_suite;
         Ingest nightly ]
       empty_store) = true.
Proof.
  apply (integrity_when_parents_known
           [ CreateRun smoke_run;
             CreateSuite "000000000000000000000000" first_suite;
             Ingest nightly ]
           empty_store); reflexivity.
Defined.

(** C5 as it is stated fails: a suite created under a run identifier that
    no Run has is stored all the same. *)
Lemma orphan_suite_is_stored :
  referential_integrity
    (perform_all [CreateSuite "no-such-run" orphan_suite] empty_store) = false
  /\ map doc (db_testsuite
                (perform_all [CreateSuite "no-such-run" orphan_suite]
                             empty_store))
     = [orphan_suite].
Proof. split; reflexivity. Qed.

(** ** Validation *)

Lemma with_default_ge_negative (k : string) (dflt : Z)
  (d : list (string * value)) (z : Z) :
  dict_get k d = Some (VInt z) -> z < 0 ->
  exists errs, with_default k dflt (int_ge_v 0) d = Invalid errs
               /\ In {| loc := [Key k]; type := greater_than_equal |} errs.
Proof.
  intros H Hz. unfold with_default, int_ge_v. rewrite H.
  apply Z.ltb_lt in Hz. rewrite Hz. cbn. eexists. split; [reflexivity|].
  now left.
Qed.

Lemma with_default_optional_ge_negative (k : string)
  (d : list (string * value)) (z : Z) :
  dict_get k d = Some (VInt z) -> z < 0 ->
  exists errs, with_default k None (optional_v (int_ge_v 0)) d = Invalid errs
               /\ In {| loc := [Key k]; type := greater_than_equal |} errs.
Proof.
  intros H Hz. unfold with_default, optional_v, int_ge_v. rewrite H.
  apply Z.ltb_lt in Hz. rewrite Hz. cbn. eexists. split; [reflexivity|].
  now left.
Qed.

(** Where the models declare [ge=0], a negative number is rejected and the
    error names the field: every numeric field of a Run, and [duration_ms]
    of a Suite and of a Case. *)
Lemma declared_bounds_enforced (d : list (string * value)) (z : Z) :
  z < 0 ->
  (forall k,
      In k ["duration_ms"; "total"; "passed"; "failed"; "skipped"; "blocked"] ->
      dict_get k d = Some (VInt z) ->
      reports k greater_than_equal (TestRun.validate (VDict d)))
  /\ (dict_get "duration_ms" d = Some (VInt z) ->
      reports "duration_ms" greater_than_equal (TestSuite.validate (VDict d)))
  /\ (dict_get "duration_ms" d = Some (VInt z) ->
      reports "duration_ms" greater_than_equal (TestCase.validate (VDict d))).
Proof.
  intro Hz. split; [|split].
  - intros k Hk H. unfold reports, TestRun.validate, model.
    cbn in Hk.
    destruct Hk as [<-|[<-|[<-|[<-|[<-|[<-|[]]]]]]].
    + do 7 apply vap_keeps_left. apply vap_keeps_right.
      now apply with_default_optional_ge_negative with (z := z).
    + do 6 apply vap_keeps_left. apply vap_keeps_right.
      now apply with_default_ge_negative with (z := z).
    + do 5 apply vap_keeps_left. apply vap_keeps_right.
      now apply with_default_ge_negative with (z := z).
    + do 4 apply vap_keeps_left. apply vap_keeps_right.
      now apply with_default_ge_negative with (z := z).
    + do 3 apply vap_keeps_left. apply vap_keeps_right.
      now apply with_default_ge_negative with (z := z).
    + do 2 apply vap_keeps_left. apply vap_keeps_right.
      now apply with_default_ge_negative with (z := z).
  - intro H. unfold reports, TestSuite.validate, model.
    do 5 apply vap_keeps_left. apply vap_keeps_right.
    now apply with_default_optional_ge_negative with (z := z).
  - intro H. unfold reports, TestCase.validate, model.
    do 5 apply vap_keeps_left. apply vap_keeps_right.
    now apply with_default_optional_ge_negative with (z := z).
Qed.

(** C3, on the code.  [TestSuite] declares its four counters as plain
    integers, without the [ge=0] that [TestRun] puts on its own: a Suite
    record is accepted whatever the sign of [total], [passed], [failed] and
    [skipped], and the normalized record carries the numbers as given. *)
Theorem suite_counters_unchecked (t p f s : Z) :
  TestSuite.validate
    (VDict [ ("run_id", VStr "r"); ("name", VStr "s"); ("total", VInt t);
             ("passed", VInt p); ("failed", VInt f); ("skipped", VInt s) ])
  = Valid {| TestSuite.run_id := "r"; TestSuite.name := "s";
             TestSuite.status := "running"; TestSuite.duration_ms := None;
             TestSuite.total := t; TestSuite.passed := p;
             TestSuite.failed := f; TestSuite.skipped := s;
             TestSuite.order := None |}.
Proof. reflexivity. Qed.

Example suite_negative_total_stored :
  exists st,
    post_suite "r"
      (VDict [("run_id", VStr "r"); ("name", VStr "s"); ("total", VInt (-1))])
      empty_store
    = (Return "000000000000000000000000", st)
    /\ map (fun d => TestSuite.total (doc d)) (db_testsuite st) = [-1].
Proof. eexists. split; [vm_compute; reflexivity|reflexivity]. Qed.

(** C2, on the code.  The body of the scenario does not reach [ingest]: its
    logs lack [run_id] and [case_id], which [LogEntry] requires, so the
    request is rejected with the four missing fields and nothing is
    stored. *)
Theorem nightly_scenario_rejected :
  post_ingest (nightly_body nightly_log) empty_store
  = (Raise
       (RequestValidationError
          [ {| loc := [Key "suites"; Idx 0; Key "cases"; Idx 0; Key "logs";
                       Idx 0; Key "run_id"];
               type := missing |};
            {| loc := [Key "suites"; Idx 0; Key "cases"; Idx 0; Key "logs";
                       Idx 0; Key "case_id"];
               type := missing |};
            {| loc := [Key "suites"; Idx 0; Key "cases"; Idx 0; Key "logs";
                       Idx 1; Key "run_id"];
               type := missing |};
            {| loc := [Key "suites"; Idx 0; Key "cases"; Idx 0; Key "logs";
                       Idx 1; Key "case_id"];
               type := missing |} ]),
     empty_store).
Proof. reflexivity. Qed.

(** With the two identifiers on each log (any strings), the scenario runs
    as the specification describes it. *)
Example nightly_with_ids_ingested :
  exists st tree,
    post_ingest (nightly_body nightly_log_with_ids) empty_store
    = (Return "000000000000000000000000", st)
    /\ get_run_detail "000000000000000000000000" st = (Return tree, st)
    /\ (let r := fields (run_doc tree) in
        (TestRun.total r, TestRun.passed r, TestRun.failed r,
         TestRun.skipped r, TestRun.blocked r) = (2, 2, 0, 0, 0))
    /\ map (fun t => (TestSuite.name (fields (suite_doc t)),
                      TestSuite.order (fields (suite_doc t))))
           (suites tree) = [("Auth", Some 0)]
    /\ map (fun t => map (fun k => TestCase.name (fields (case_doc k)))
                         (cases t))
           (suites tree) = [["login"]]
    /\ map (fun t =>
              map (fun k =>
                     map (fun l => (LogEntry.level (fields l),
                                    LogEntry.message (fields l),
                                    LogEntry.timestamp (fields l)))
                         (logs k))
                  (cases t))
           (suites tree)
       = [[[("INFO", "start", Some (isoformat 1));
            ("INFO", "ok", Some (isoformat 2))]]].
Proof.
  do 2 eexists.
  split; [vm_compute; reflexivity|].
  split; [vm_compute; reflexivity|].
  split; [reflexivity|]. split; [reflexivity|]. split; reflexivity.
Qed.


(** * Further properties of the handlers *)

(** ** What a create handler stores *)

Lemma create_document_found {A : Type} (c : collection A) (data : A)
  (st st' : Store) (i : string) :
  create_document c data st = (Return i, st') ->
  exists oid,
    i = ObjectId.str oid
    /\ ObjectId.parse i = Some oid
    /\ docs c st' = docs c st ++ [{| _id := oid; doc := data |}]
    /\ find_one c oid st' = Some {| _id := oid; doc := data |}.
Proof.
  intro H. apply create_document_Return in H as (-> & Hfresh & ->).
  exists (ObjectId.generate (oid_counter st)).
  split; [reflexivity|]. split; [apply parse_generate|].
  assert (E : docs c (set_docs c
                        (docs c st ++
                         [{| _id := ObjectId.generate (oid_counter st);
                             doc := data |}]) (next_oid st))
              = docs c st ++
                [{| _id := ObjectId.generate (oid_counter st); doc := data |}])
    by (destruct c; reflexivity).
  split; [exact E|].
  unfold find_one. rewrite E.
  apply find_app_fresh; [exact Hfresh|apply oid_eqb_refl].
Qed.

(** X1. A run created by [create_run] is stored under the returned
    identifier as it was submitted, with [started_at] set to the time of the
    call when the submitted run had none; [get_run_detail] on the returned
    identifier then returns that run. *)
Theorem create_run_stored (run : TestRun.t) (st st' : Store) (rid : string) :
  create_run run st = (Return rid, st') ->
  exists oid tree,
    ObjectId.parse rid = Some oid
    /\ find_one testrun oid st'
       = Some {| _id := oid;
                 doc := match TestRun.started_at run with
                        | Some _ => run
                        | None => set_started_at (clock st) run
                        end |}
    /\ db_testrun st'
       = db_testrun st
         ++ [{| _id := oid;
                doc := match TestRun.started_at run with
                       | Some _ => run
                       | None => set_started_at (clock st) run
                       end |}]
    /\ get_run_detail rid st' = (Return tree, st')
    /\ id (run_doc tree) = rid
    /\ fields (run_doc tree)
       = TestRun.map_datetime isoformat
           (match TestRun.started_at run with
            | Some _ => run
            | None => set_started_at (clock st) run
            end).
Proof.
  unfold create_run. intro H.
  apply bind_Return in H as (t & s1 & Ht & H).
  apply bind_Return in H as (i & s2 & Hc & H).
  injection H as <- <-. injection Ht as <- <-.
  apply create_document_found in Hc as (oid & -> & Hp & Hd & Hf).
  cbn [docs] in Hd. cbn [db_testrun] in Hd.
  eexists oid, _. split; [exact Hp|].
  split; [exact Hf|]. split; [exact Hd|].
  unfold get_run_detail, to_object_id, bind, get. rewrite Hp.
  unfold ret at 1 2. rewrite Hf.
  split; [reflexivity|]. split; reflexivity.
Qed.

Lemma create_run_stored_witness :
  exists oid tree,
    ObjectId.parse "000000000000000000000000" = Some oid
    /\ find_one testrun oid after_smoke
       = Some {| _id := oid; doc := set_started_at 0 smoke_run |}
    /\ db_testrun after_smoke
       = [{| _id := oid; doc := set_started_at 0 smoke_run |}]
    /\ get_run_detail "000000000000000000000000" after_smoke
       = (Return tree, after_smoke)
    /\ id (run_doc tree) = "000000000000000000000000"
    /\ fields (run_doc tree)
       = TestRun.map_datetime isoformat (set_started_at 0 smoke_run).
Proof.
  apply (create_run_stored smoke_run empty_store after_smoke
           "000000000000000000000000").
  vm_compute. reflexivity.
Defined.

(** X2. When [create_suite] or [create_case] returns, the declared parent
    is the one of the path and the record is stored unchanged, last in its
    collection, under the returned identifier. *)
Theorem create_suite_case_stored (st st' : Store) (i : string) :
  (forall run_id suite,
      create_suite run_id suite st = (Return i, st') ->
      TestSuite.run_id suite = run_id
      /\ exists oid,
          ObjectId.parse i = Some oid
          /\ find_one testsuite oid st' = Some {| _id := oid; doc := suite |}
          /\ db_testsuite st'
             = db_testsuite st ++ [{| _id := oid; doc := suite |}])
  /\ (forall suite_id case,
         create_case suite_id case st = (Return i, st') ->
         TestCase.suite_id case = suite_id
         /\ exists oid,
             ObjectId.parse i = Some oid
             /\ find_one testcase oid st' = Some {| _id := oid; doc := case |}
             /\ db_testcase st'
                = db_testcase st ++ [{| _id := oid; doc := case |}]).
Proof.
  split.
  - intros run_id suite. unfold create_suite.
    destruct (String.eqb (TestSuite.run_id suite) run_id) eqn:E; cbn [negb];
      [|discriminate].
    intro H. apply bind_Return in H as (j & s1 & Hc & H).
    injection H as <- <-. apply String.eqb_eq in E. split; [exact E|].
    apply create_document_found in Hc as (oid & _ & Hp & Hd & Hf).
    exists oid. auto.
  - intros suite_id case. unfold create_case.
    destruct (String.eqb (TestCase.suite_id case) suite_id) eqn:E; cbn [negb];
      [|discriminate].
    intro H. apply bind_Return in H as (j & s1 & Hc & H).
    injection H as <- <-. apply String.eqb_eq in E. split; [exact E|].
    apply create_document_found in Hc as (oid & _ & Hp & Hd & Hf).
    exists oid. auto.
Qed.

Lemma create_suite_case_stored_witness :
  (TestSuite.run_id first_suite = "000000000000000000000000"
   /\ exists oid,
       ObjectId.parse "000000000000000000000000" = Some oid
       /\ find_one testsuite oid
            (snd (create_suite "000000000000000000000000" first_suite
                    empty_store))
          = Some {| _id := oid; doc := first_suite |}
       /\ db_testsuite
            (snd (create_suite "000000000000000000000000" first_suite
                    empty_store))
          = [{| _id := oid; doc := first_suite |}])
  /\ (TestCase.suite_id first_case = "000000000000000000000000"
      /\ exists oid,
          ObjectId.parse "000000000000000000000000" = Some oid
          /\ find_one testcase oid
               (snd (create_case "000000000000000000000000" first_case
                       empty_store))
             = Some {| _id := oid; doc := first_case |}
          /\ db_testcase
               (snd (create_case "000000000000000000000000" first_case
                       empty_store))
             = [{| _id := oid; doc := first_case |}]).
Proof.
  split.
  - apply (proj1 (create_suite_case_stored empty_store
                    (snd (create_suite "000000000000000000000000"
                            first_suite empty_store))
                    "000000000000000000000000")
             "000000000000000000000000" first_suite).
    vm_compute. reflexivity.
  - apply (proj2 (create_suite_case_stored empty_store
                    (snd (create_case "000000000000000000000000"
                            first_case empty_store))
                    "000000000000000000000000")
             "000000000000000000000000" first_case).
    vm_compute. reflexivity.
Defined.

(** X3. When [add_log] returns, the log is stored under the returned
    identifier with its [timestamp] kept if it had one and set to the time
    of the call if it had none; nothing else of the log is changed. *)
Theorem add_log_stored (case_id : string) (log : LogEntry.t) (st st' : Store)
  (i : string) :
  add_log case_id log st = (Return i, st') ->
  LogEntry.case_id log = case_id
  /\ exists oid,
      ObjectId.parse i = Some oid
      /\ find_one logentry oid st'
         = Some {| _id := oid;
                   doc := match LogEntry.timestamp log with
                          | Some _ => log
                          | None => set_timestamp (clock st) log
                          end |}.
Proof.
  unfold add_log.
  destruct (String.eqb (LogEntry.case_id log) case_id) eqn:E; cbn [negb];
    [|discriminate].
  intro H. apply String.eqb_eq in E. split; [exact E|].
  apply bind_Return in H as (data & s1 & Hd & H).
  apply bind_Return in H as (j & s2 & Hc & H).
  injection H as <- <-.
  apply create_document_found in Hc as (oid & _ & Hp & _ & Hf).
  exists oid. split; [exact Hp|].
  destruct (LogEntry.timestamp log).
  - injection Hd as <- <-. exact Hf.
  - apply bind_Return in Hd as (t & s0 & Ht & Hd).
    injection Hd as <- <-. injection Ht as <- <-. exact Hf.
Qed.

Lemma add_log_stored_witness :
  LogEntry.case_id first_log = "000000000000000000000000"
  /\ exists oid,
      ObjectId.parse "000000000000000000000000" = Some oid
      /\ find_one logentry oid
           (snd (add_log "000000000000000000000000" first_log empty_store))
         = Some {| _id := oid; doc := set_timestamp 0 first_log |}.
Proof.
  apply (add_log_stored "000000000000000000000000" first_log empty_store
           (snd (add_log "000000000000000000000000" first_log empty_store))
           "000000000000000000000000").
  vm_compute. reflexivity.
Defined.

(** ** Finishing a run *)

Lemma has_id_eq {A : Type} (oid : ObjectId.t) (d : Stored A) :
  has_id oid d = true -> _id d = oid.
Proof. apply oid_eqb_eq. Qed.


Lemma to_object_id_returns (s : string) (oid : ObjectId.t) (st : Store) :
  ObjectId.parse s = Some oid -> to_object_id s st = (Return oid, st).
Proof. intro H. unfold to_object_id. now rewrite H. Qed.

Lemma finish_run_update (payload : RunFinishPayload) (st : Store) :
  exists u st1,
    (match fin_finished_at payload with
     | Some _ => ret payload
     | None =>
         t <- now ;;
         ret {| fin_status := fin_status payload;
                fin_finished_at := Some t;
                fin_duration_ms := fin_duration_ms payload;
                fin_total := fin_total payload;
                fin_passed := fin_passed payload;
                fin_failed := fin_failed payload;
                fin_skipped := fin_skipped payload;
                fin_blocked := fin_blocked payload |}
     end) st = (Return u, st1)
    /\ set_update u
       = set_update
           (set_finished_at
              (match fin_finished_at payload with
               | Some d => d
               | None => clock st
               end) payload)
    /\ appended st st1 [] [] [] [].
Proof.
  destruct (fin_finished_at payload) as [d|] eqn:E; cbn.
  - exists payload, st. split; [reflexivity|].
    split; [|apply appended_refl].
    unfold set_update, set_finished_at. cbn. now rewrite E.
  - do 2 eexists. split; [reflexivity|]. split; [reflexivity|].
    unfold appended; cbn. now rewrite !app_nil_r.
Qed.



(** X5. [finish_run] raises 400 exactly on an identifier [ObjectId]
    refuses, and then before it touches the store: no document is created
    or changed.  On any string [ObjectId] takes, a string of pairs of
    digits with whitespace between them included, it returns. *)
Theorem finish_run_malformed (run_id : string) (payload : RunFinishPayload)
  (st : Store) :
  (ObjectId.parse run_id = None ->
   exists st',
     finish_run run_id payload st
     = (Raise (HTTPException 400 "Invalid id"), st')
     /\ appended st st' [] [] [] [])
  /\ (forall oid,
         ObjectId.parse run_id = Some oid ->
         exists r st', finish_run run_id payload st = (Return r, st')).
Proof.
  unfold finish_run.
  destruct (finish_run_update payload st) as (u & s1 & E1 & _ & Ha).
  rewrite (bind_returns _ _ _ _ _ E1). split.
  - intro Hp. unfold to_object_id. rewrite Hp. unfold bind, raise.
    exists s1. split; [reflexivity|exact Ha].
  - intros oid Hp.
    rewrite (bind_returns _ _ _ _ _ (to_object_id_returns _ _ _ Hp)).
    unfold bind at 1. unfold update_one.
    rewrite (bind_returns _ _ _ _ _ (to_object_id_returns _ _ _ Hp)).
    unfold bind, get, ret. do 2 eexists. reflexivity.
Qed.

Lemma finish_run_malformed_witness :
  (exists st',
      finish_run "not-an-id" passed_at_5 after_smoke
      = (Raise (HTTPException 400 "Invalid id"), st')
      /\ appended after_smoke st' [] [] [] [])
  /\ (exists r st',
         finish_run "00 00 00 00 00 00 00 00 " passed_at_5 after_smoke
         = (Return r, st')).
Proof.
  split.
  - apply (proj1 (finish_run_malformed "not-an-id" passed_at_5 after_smoke)).
    vm_compute. reflexivity.
  - apply (proj2 (finish_run_malformed "00 00 00 00 00 00 00 00 "
                    passed_at_5 after_smoke)
             (ObjectId.Oid "0000000000000000")).
    vm_compute. reflexivity.
Defined.

Lemma update_first_idem {A : Type} (p : A -> bool) (f : A -> A) (l : list A) :
  (forall x, p (f x) = p x) -> (forall x, f (f x) = f x) ->
  update_first p f (update_first p f l) = update_first p f l.
Proof.
  intros Hp Hf. induction l as [|x l IH]; [reflexivity|].
  cbn. destruct (p x) eqn:E; cbn.
  - now rewrite Hp, E, Hf.
  - now rewrite E, IH.
Qed.

Lemma set_update_idem (u : RunFinishPayload) (r : TestRun.t) :
  set_update u (set_update u r) = set_update u r.
Proof.
  unfold set_update. cbn.
  destruct (fin_status u), (fin_finished_at u), (fin_duration_ms u),
    (fin_total u), (fin_passed u), (fin_failed u), (fin_skipped u),
    (fin_blocked u); reflexivity.
Qed.

(** X6. With [finished_at] supplied, finishing a run a second time with the
    same payload changes nothing: the second call gives the outcome of the
    first and leaves the store as the first left it. *)
Theorem finish_run_twice (run_id : string) (payload : RunFinishPayload)
  (st : Store) (d : datetime) :
  fin_finished_at payload = Some d ->
  finish_run run_id payload (snd (finish_run run_id payload st))
  = finish_run run_id payload st.
Proof.
  intro Hd. unfold finish_run. rewrite Hd.
  rewrite !(bind_returns (ret payload) _ _ _ payload eq_refl).
  unfold to_object_id.
  destruct (ObjectId.parse run_id) as [oid|]; [|reflexivity].
  unfold bind, ret, update_one, get. cbn [snd].
  unfold find_one. store_fields.
  rewrite update_first_idem;
    [reflexivity|reflexivity|].
  intros [i x]. cbn. now rewrite set_update_idem.
Qed.

Lemma finish_run_twice_witness :
  finish_run "000000000000000000000000" passed_at_5
    (snd (finish_run "000000000000000000000000" passed_at_5 after_smoke))
  = finish_run "000000000000000000000000" passed_at_5 after_smoke.
Proof.
  apply (finish_run_twice "000000000000000000000000" passed_at_5
           after_smoke 5).
  reflexivity.
Defined.

(** ** What an ingestion adds *)

Lemma stored_logs_flat (R : Stored LogEntry.t -> LogEntry.t -> Prop)
  (cts : list CaseDocs) (cs : list IngestCase.t) :
  Forall2 (fun ct c => Forall2 R (snd ct) (IngestCase.logs c)) cts cs ->
  Forall2 R (log_docs_of cts) (flat_map IngestCase.logs cs).
Proof.
  intro H. induction H as [|ct c cts cs Hl _ IH]; cbn; [constructor|].
  now apply Forall2_app.
Qed.

(** X7. An ingestion that returns adds exactly one run, one suite per suite
    of the payload, one case per case and one log per log, and nothing
    else: the documents held before are still there, in place. *)
Theorem ingest_adds_one_per_element (p : IngestRun.t) (st st' : Store)
  (rid : string) :
  ingest p st = (Return rid, st') ->
  exists rd ss cs ls,
    appended st st' [rd] ss cs ls
    /\ List.length ss = List.length (IngestRun.suites p)
    /\ List.length cs
       = List.length (flat_map IngestSuite.cases (IngestRun.suites p))
    /\ List.length ls
       = List.length
           (flat_map IngestCase.logs
              (flat_map IngestSuite.cases (IngestRun.suites p))).
Proof.
  intro H.
  apply ingest_Return in H as (rd & sts & _ & _ & _ & _ & Ha & Hsts & _).
  exists rd, (map fst sts), (map fst (case_docs_of sts)),
    (log_docs_of (case_docs_of sts)).
  split; [exact Ha|].
  assert (Hcases :
            Forall2 (fun ct c =>
                       Forall2 (fun _ _ => True) (snd ct) (IngestCase.logs c))
              (case_docs_of sts)
              (flat_map IngestSuite.cases (IngestRun.suites p))).
  { rewrite <- (enumerate_snd (IngestRun.suites p)).
    revert Hsts. apply stored_cases_flat.
    intros sid ct c (_ & Hl). revert Hl. apply Forall2_impl. auto. }
  split; [|split].
  - rewrite length_map. apply Forall2_length in Hsts.
    etransitivity; [exact Hsts|]. unfold enumerate.
    rewrite length_combine, length_seq. apply Nat.min_id.
  - rewrite length_map. apply Forall2_length in Hcases. exact Hcases.
  - apply stored_logs_flat in Hcases. now apply Forall2_length in Hcases.
Qed.

Lemma ingest_adds_one_per_element_witness :
  exists rd ss cs ls,
    appended empty_store after_nightly [rd] ss cs ls
    /\ List.length ss = List.length (IngestRun.suites nightly)
    /\ List.length cs
       = List.length (flat_map IngestSuite.cases (IngestRun.suites nightly))
    /\ List.length ls
       = List.length
           (flat_map IngestCase.logs
              (flat_map IngestSuite.cases (IngestRun.suites nightly))).
Proof.
  apply (ingest_adds_one_per_element nightly empty_store after_nightly
           "000000000000000000000000").
  vm_compute. reflexivity.
Defined.

(** ** The assembled tree *)

Lemma sort_Forall {A : Type} (key : A -> option Z) (P : A -> Prop)
  (l : list A) :
  Forall P l -> Forall P (sort key l).
Proof.
  intro H. induction H as [|x l Hx _ IH]; cbn; [constructor|].
  now apply insert_by_Forall.
Qed.

Lemma StronglySorted_impl {A : Type} (R R' : A -> A -> Prop) (l : list A) :
  (forall a b, R a b -> R' a b) -> StronglySorted R l -> StronglySorted R' l.
Proof.
  intros HR H. induction H as [|x l Hl IH Hx]; constructor; auto.
  revert Hx. apply Forall_impl. intro b. apply HR.
Qed.

Lemma of_iso_isoformat (o : option datetime) :
  option_map of_iso (option_map isoformat o) = o.
Proof. now destruct o. Qed.

Lemma find_Forall {A : Type} (c : collection A) (p : A -> bool) (st : Store) :
  Forall (fun d => p (doc d) = true /\ In d (docs c st)) (find c p st).
Proof.
  apply Forall_forall. intros d Hd. unfold find in Hd.
  apply filter_In in Hd. tauto.
Qed.

(** X8. In the tree [get_run_detail] returns, the run carries the canonical
    (lower-case) rendering of the identifier; every suite is a stored suite
    whose [run_id] is the path string; under every suite are exactly the
    stored cases whose [suite_id] is the suite's identifier, in insertion
    order; under every case are logs whose [case_id] is the case's
    identifier, in ascending order of [timestamp].  The store is not
    changed. *)
Theorem get_run_detail_tree (run_id : string) (st st' : Store)
  (tree : RunTree) :
  get_run_detail run_id st = (Return tree, st') ->
  st' = st
  /\ (exists oid, ObjectId.parse run_id = Some oid
                  /\ id (run_doc tree) = ObjectId.str oid)
  /\ Forall
       (fun t =>
          TestSuite.run_id (fields (suite_doc t)) = run_id
          /\ known (db_testsuite st) (id (suite_doc t)) = true
          /\ map (fun k => id (case_doc k)) (cases t)
             = ids (find testcase
                      (fun c => String.eqb (TestCase.suite_id c)
                                           (id (suite_doc t))) st)
          /\ Forall
               (fun k =>
                  TestCase.suite_id (fields (case_doc k)) = id (suite_doc t)
                  /\ Forall (fun l => LogEntry.case_id (fields l)
                                      = id (case_doc k)) (logs k)
                  /\ StronglySorted
                       (fun a b => key_le (log_time a) (log_time b) = true)
                       (logs k))
               (cases t))
       (suites tree).
Proof.
  unfold get_run_detail, to_object_id, bind, get.
  destruct (ObjectId.parse run_id) as [oid|] eqn:Hp; [|discriminate].
  unfold ret at 1 2.
  destruct (find_one testrun oid st) as [run|] eqn:Hf; [|discriminate].
  intros [= <- <-]. split; [reflexivity|].
  split.
  { exists oid. split; [reflexivity|].
    apply List.find_some in Hf as [_ Hid].
    exact (f_equal ObjectId.str (has_id_eq _ _ Hid)). }
  cbn [suites]. rewrite map_map. apply Forall_map. apply sort_Forall.
  eapply Forall_impl; [|apply find_Forall]. intros s (Hrun & Hin).
  cbn [docs] in Hin. cbn.
  split; [now apply String.eqb_eq|].
  split;
    [apply known_In; unfold ids;
     exact (in_map (fun d : Stored TestSuite.t => ObjectId.str (_id d))
              _ s Hin)|].
  split; [unfold ids; now rewrite !map_map|].
  rewrite map_map. apply Forall_map.
  eapply Forall_impl;
    [|apply (find_Forall testcase
               (fun c => String.eqb (TestCase.suite_id c)
                                    (ObjectId.str (_id s))) st)].
  intros c (Hsuite & _). cbn.
  split; [now apply String.eqb_eq|].
  split.
  - apply Forall_map. apply sort_Forall.
    eapply Forall_impl;
      [|apply (find_Forall logentry
                 (fun l => String.eqb (LogEntry.case_id l)
                                      (ObjectId.str (_id c))) st)].
    intros l (Hcase & _). cbn.
    now apply String.eqb_eq.
  - apply StronglySorted_map.
    eapply StronglySorted_impl;
      [|apply (sort_sorted (fun l : Stored LogEntry.t =>
                              LogEntry.timestamp (doc l)))].
    intros a b Hab. unfold log_time. cbn. now rewrite !of_iso_isoformat.
Qed.

Lemma get_run_detail_tree_witness :
  exists tree,
    get_run_detail "000000000000000000000000" after_nightly
    = (Return tree, after_nightly)
    /\ (exists oid, ObjectId.parse "000000000000000000000000" = Some oid
                    /\ id (run_doc tree) = ObjectId.str oid)
    /\ Forall
         (fun t =>
            TestSuite.run_id (fields (suite_doc t))
            = "000000000000000000000000"
            /\ known (db_testsuite after_nightly) (id (suite_doc t)) = true
            /\ map (fun k => id (case_doc k)) (cases t)
               = ids (find testcase
                        (fun c => String.eqb (TestCase.suite_id c)
                                             (id (suite_doc t)))
                        after_nightly)
            /\ Forall
                 (fun k =>
                    TestCase.suite_id (fields (case_doc k)) = id (suite_doc t)
                    /\ Forall (fun l => LogEntry.case_id (fields l)
                                        = id (case_doc k)) (logs k)
                    /\ StronglySorted
                         (fun a b => key_le (log_time a) (log_time b) = true)
                         (logs k))
                 (cases t))
         (suites tree).
Proof.
  eexists. split; [vm_compute; reflexivity|].
  refine (proj2 (get_run_detail_tree "000000000000000000000000"
                   after_nightly after_nightly _ _)).
  vm_compute. reflexivity.
Defined.

(** ** Identifiers as strings *)

Lemma hexdigit_idem (c c' : ascii) :
  ObjectId.hexdigit c = Some c' -> ObjectId.hexdigit c' = Some c'.
Proof.
  destruct c as [b0 b1 b2 b3 b4 b5 b6 b7].
  destruct b0, b1, b2, b3, b4, b5, b6, b7; cbn;
    intro H; first [discriminate H | injection H as <-; reflexivity].
Qed.

Lemma hexdigit_not_space (c c' : ascii) :
  ObjectId.hexdigit c = Some c' ->
  ObjectId.is_space c = false /\ ObjectId.is_space c' = false.
Proof.
  destruct c as [b0 b1 b2 b3 b4 b5 b6 b7].
  destruct b0, b1, b2, b3, b4, b5, b6, b7; cbn;
    intro H; first [discriminate H | injection H as <-; split; reflexivity].
Qed.

(** What [fromhex] gives reads as itself, and is shorter than what was
    read by the whitespace that was skipped. *)
Lemma fromhex_again (n : nat) (l l' : list ascii) :
  (List.length l <= n)%nat ->
  ObjectId.fromhex l = Some l' ->
  ObjectId.fromhex l' = Some l'
  /\ (List.length l' + List.length (filter ObjectId.is_space l)
      = List.length l)%nat.
Proof.
  revert l l'. induction n as [|n IH]; intros l l' Hn H.
  - destruct l; [|cbn in Hn; lia]. injection H as <-. split; reflexivity.
  - destruct l as [|c r]; [injection H as <-; split; reflexivity|].
    cbn [ObjectId.fromhex] in H. cbn [filter List.length] in *.
    destruct (ObjectId.is_space c) eqn:Hc.
    + destruct (IH r l' ltac:(lia) H) as (Hi & Hl).
      split; [exact Hi|]. cbn [List.length]. lia.
    + destruct (ObjectId.hexdigit c) as [top|] eqn:Ht; [|discriminate].
      destruct r as [|c' r']; [discriminate|].
      destruct (ObjectId.hexdigit c') as [bot|] eqn:Hb; [|discriminate].
      destruct (ObjectId.fromhex r') as [t|] eqn:Hr; [|discriminate].
      injection H as <-. cbn [List.length] in Hn.
      destruct (IH r' t ltac:(lia) Hr) as (Hi & Hl).
      destruct (hexdigit_not_space _ _ Ht) as (_ & Hst).
      destruct (hexdigit_not_space _ _ Hb) as (Hsc' & _).
      split.
      * cbn [ObjectId.fromhex].
        now rewrite Hst, (hexdigit_idem _ _ Ht), (hexdigit_idem _ _ Hb), Hi.
      * cbn [filter List.length]. rewrite Hsc'. cbn [List.length]. lia.
Qed.

Lemma no_space_filter (l : list ascii) :
  forallb (fun c => negb (ObjectId.is_space c)) l
  = (List.length (filter ObjectId.is_space l) =? 0)%nat.
Proof.
  induction l as [|c l IH]; [reflexivity|].
  cbn [forallb filter]. destruct (ObjectId.is_space c); [reflexivity|].
  exact IH.
Qed.

Lemma length_list_of_string (s : string) :
  List.length (list_ascii_of_string s) = String.length s.
Proof. induction s as [|c s IH]; cbn; [reflexivity|now rewrite IH]. Qed.

(** X9. What [ObjectIdStr.validate] returns for a string it accepts is the
    rendering of the identifier [to_object_id] reads from that string.
    When the string has no whitespace, the result is accepted again and
    left as it is, and denotes the same identifier.  When the string has
    whitespace, the result has fewer than 24 characters and is refused
    when it is given back. *)
Theorem ObjectIdStr_validate_canonical (s s' : string) (st : Store) :
  ObjectIdStr_validate (Other s) = Some s' ->
  to_object_id s st = (Return (ObjectId.Oid s'), st)
  /\ if forallb (fun c => negb (ObjectId.is_space c)) (list_ascii_of_string s)
     then ObjectIdStr_validate (Other s') = Some s'
          /\ to_object_id s' st = to_object_id s st
     else ObjectIdStr_validate (Other s') = None
          /\ (String.length s' < 24)%nat.
Proof.
  unfold ObjectIdStr_validate, to_object_id, ObjectId.parse.
  destruct (String.length s =? 24)%nat eqn:Hlen; [|discriminate].
  apply Nat.eqb_eq in Hlen.
  destruct (ObjectId.fromhex (list_ascii_of_string s)) as [l|] eqn:Hl;
    [|discriminate].
  cbn [option_map ObjectId.str]. intros [= <-].
  split; [reflexivity|].
  destruct (fromhex_again _ _ _ (le_n _) Hl) as (Hi & Hcount).
  rewrite length_list_of_string, Hlen in Hcount.
  rewrite no_space_filter, length_string_of_list,
    list_ascii_of_string_of_list_ascii, Hi.
  destruct (List.length (filter ObjectId.is_space (list_ascii_of_string s))
            =? 0)%nat eqn:E.
  - apply Nat.eqb_eq in E.
    replace (List.length l) with 24%nat by lia.
    split; reflexivity.
  - apply Nat.eqb_neq in E.
    destruct (List.length l =? 24)%nat eqn:E2;
      [apply Nat.eqb_eq in E2; lia|].
    split; [reflexivity|lia].
Qed.

Lemma ObjectIdStr_validate_canonical_witness :
  (to_object_id "00000000000000000000000A" empty_store
   = (Return (ObjectId.Oid "00000000000000000000000a"), empty_store)
   /\ ObjectIdStr_validate (Other "00000000000000000000000a")
      = Some "00000000000000000000000a"
   /\ to_object_id "00000000000000000000000a" empty_store
      = to_object_id "00000000000000000000000A" empty_store)
  /\ (to_object_id "00 00 00 00 00 00 00 00 " empty_store
      = (Return (ObjectId.Oid "0000000000000000"), empty_store)
      /\ ObjectIdStr_validate (Other "0000000000000000") = None
      /\ (String.length "0000000000000000" < 24)%nat).
Proof.
  split.
  - apply (ObjectIdStr_validate_canonical "00000000000000000000000A"
             "00000000000000000000000a" empty_store).
    vm_compute. reflexivity.
  - apply (ObjectIdStr_validate_canonical "00 00 00 00 00 00 00 00 "
             "0000000000000000" empty_store).
    vm_compute. reflexivity.
Defined.

(** X10. The run is looked up by the identifier the path string denotes,
    its suites by the path string itself.  So under a spelling of a run's
    identifier that is not the canonical one (a hexadecimal digit in upper
    case), [get_run_detail] returns the run without any suite, as long as
    the stored suites name their runs canonically (as [ingest] does). *)
Theorem get_run_detail_other_spelling (run_id : string) (st : Store)
  (oid : ObjectId.t) (run : Stored TestRun.t) :
  ObjectId.parse run_id = Some oid ->
  ObjectId.str oid <> run_id ->
  find_one testrun oid st = Some run ->
  Forall (fun s => forall o, ObjectId.parse (TestSuite.run_id (doc s)) = Some o ->
                             ObjectId.str o = TestSuite.run_id (doc s))
         (db_testsuite st) ->
  exists tree,
    get_run_detail run_id st = (Return tree, st)
    /\ id (run_doc tree) = ObjectId.str oid
    /\ suites tree = [].
Proof.
  intros Hp Hne Hf Hcanon.
  unfold get_run_detail, to_object_id, bind, get. rewrite Hp.
  unfold ret at 1 2. rewrite Hf.
  assert (Hnone : find testsuite
                    (fun s => String.eqb (TestSuite.run_id s) run_id) st = []).
  { unfold find. apply filter_none. cbn [docs].
    revert Hcanon. apply Forall_impl. intros s Hs.
    destruct (String.eqb (TestSuite.run_id (doc s)) run_id) eqn:E;
      [|reflexivity].
    apply String.eqb_eq in E. rewrite E in Hs.
    now specialize (Hs oid Hp). }
  rewrite Hnone. eexists. split; [reflexivity|]. split; [|reflexivity].
  apply List.find_some in Hf as [_ Hid].
  exact (f_equal ObjectId.str (has_id_eq _ _ Hid)).
Qed.

Lemma get_run_detail_other_spelling_witness :
  exists tree,
    get_run_detail "00000000000000000000000A" (snd (ingest nightly ten_issued))
    = (Return tree, snd (ingest nightly ten_issued))
    /\ id (run_doc tree) = "00000000000000000000000a"
    /\ suites tree = [].
Proof.
  eapply (get_run_detail_other_spelling "00000000000000000000000A"
            (snd (ingest nightly ten_issued))
            (ObjectId.Oid "00000000000000000000000a")).
  - vm_compute. reflexivity.
  - intro E. vm_compute in E. discriminate E.
  - vm_compute. reflexivity.
  - vm_compute. repeat constructor. intros o [= <-]. reflexivity.
Defined.

(** ** Listing runs *)



















(** ** What the models accept *)

Lemma vap_Valid {A B : Type} (f : validation (A -> B)) (x : validation A)
  (b : B) :
  f <*> x = Valid b -> exists g a, f = Valid g /\ x = Valid a /\ b = g a.
Proof.
  destruct f as [g|e], x as [a|e']; cbn; try discriminate.
  intros [= <-]. eauto.
Qed.

Lemma vmap_Valid {A B : Type} (f : A -> B) (x : validation A) (b : B) :
  f <$> x = Valid b -> exists a, x = Valid a /\ b = f a.
Proof. destruct x as [a|e]; cbn; [|discriminate]. intros [= <-]. eauto. Qed.

Ltac invert_model H :=
  repeat (let g := fresh "g" in
          let a := fresh "a" in
          let Ha := fresh "Ha" in
          apply vap_Valid in H as (g & a & H & Ha & ->));
  let a := fresh "a" in
  let Ha := fresh "Ha" in
  apply vmap_Valid in H as (a & Ha & ->).

Lemma at_loc_Valid {A : Type} (i : loc_item) (x : validation A) (a : A) :
  at_loc i x = Valid a -> x = Valid a.
Proof. destruct x; cbn; [auto|discriminate]. Qed.

Lemma literal_v_Valid (allowed : list string) (v : value) (s : string) :
  literal_v allowed v = Valid s -> In s allowed.
Proof.
  unfold literal_v. destruct v; try discriminate.
  destruct (existsb (String.eqb s0) allowed) eqn:E; [|discriminate].
  intros [= <-]. apply existsb_exists in E as (x & Hx & Ex).
  apply String.eqb_eq in Ex. now subst.
Qed.

Lemma with_default_literal_Valid (k dflt : string) (allowed : list string)
  (d : list (string * value)) (s : string) :
  In dflt allowed ->
  with_default k dflt (literal_v allowed) d = Valid s -> In s allowed.
Proof.
  intros Hd. unfold with_default. destruct (dict_get k d).
  - intro H. apply at_loc_Valid in H. now apply literal_v_Valid in H.
  - now intros [= <-].
Qed.

Lemma with_default_ge_Valid (k : string) (d : list (string * value)) (z : Z) :
  with_default k 0 (int_ge_v 0) d = Valid z -> 0 <= z.
Proof.
  unfold with_default. destruct (dict_get k d) as [v|].
  - intro H. apply at_loc_Valid in H. unfold int_ge_v in H.
    destruct v; try discriminate.
    destruct (z0 <? 0) eqn:E; [discriminate|].
    injection H as <-. now apply Z.ltb_ge.
  - intros [= <-]. lia.
Qed.

Lemma with_default_duration_Valid (k : string) (d : list (string * value))
  (o : option Z) :
  with_default k None (optional_v (int_ge_v 0)) d = Valid o -> duration_ok o.
Proof.
  unfold with_default. destruct (dict_get k d) as [v|].
  - intro H. apply at_loc_Valid in H. unfold optional_v, int_ge_v in H.
    destruct v; cbn in H; try discriminate.
    + now injection H as <-.
    + destruct (z <? 0) eqn:E; [discriminate|].
      injection H as <-. cbn. now apply Z.ltb_ge.
  - now intros [= <-].
Qed.

Lemma with_default_absent {A : Type} (k : string) (dflt : A) (p : validator A)
  (d : list (string * value)) (a : A) :
  dict_get k d = None -> with_default k dflt p d = Valid a -> a = dflt.
Proof. intro H. unfold with_default. rewrite H. now intros [= <-]. Qed.

Lemma In_statuses_running : In "running" statuses.
Proof. now left. Qed.

Lemma In_levels_INFO : In "INFO" levels.
Proof. now left. Qed.

(** X12. Whatever the models accept is within their constraints: an
    accepted Run has a status among the five literals, a duration that is
    not negative and counters that are not negative; an accepted Suite or
    Case has a status among the literals and a duration that is not
    negative; an accepted log has a level among its five literals. *)
Theorem accepted_records_are_constrained (v : value) :
  (forall r : TestRun.t,
      TestRun.validate v = Valid r ->
      In (TestRun.status r) statuses
      /\ duration_ok (TestRun.duration_ms r)
      /\ 0 <= TestRun.total r /\ 0 <= TestRun.passed r
      /\ 0 <= TestRun.failed r /\ 0 <= TestRun.skipped r
      /\ 0 <= TestRun.blocked r)
  /\ (forall r, TestSuite.validate v = Valid r ->
                In (TestSuite.status r) statuses
                /\ duration_ok (TestSuite.duration_ms r))
  /\ (forall r, TestCase.validate v = Valid r ->
                In (TestCase.status r) statuses
                /\ duration_ok (TestCase.duration_ms r))
  /\ (forall r : LogEntry.t,
         LogEntry.validate v = Valid r -> In (LogEntry.level r) levels).
Proof.
  split; [|split; [|split]].
  - intros r H. unfold TestRun.validate, model in H.
    destruct v; try discriminate. invert_model H.
    repeat (split; [|]);
      eauto using with_default_literal_Valid, In_statuses_running,
        with_default_ge_Valid, with_default_duration_Valid.
  - intros r H. unfold TestSuite.validate, model in H.
    destruct v; try discriminate. invert_model H.
    split;
      eauto using with_default_literal_Valid, In_statuses_running,
        with_default_duration_Valid.
  - intros r H. unfold TestCase.validate, model in H.
    destruct v; try discriminate. invert_model H.
    split;
      eauto using with_default_literal_Valid, In_statuses_running,
        with_default_duration_Valid.
  - intros r H. unfold LogEntry.validate, model in H.
    destruct v; try discriminate. invert_model H.
    eauto using with_default_literal_Valid, In_levels_INFO.
Qed.

Lemma accepted_records_are_constrained_witness :
  (exists r : TestRun.t,
      TestRun.validate (VDict failed_run_fields) = Valid r
      /\ TestRun.status r = "failed"
      /\ TestRun.duration_ms r = Some 1500
      /\ TestRun.total r = 3
      /\ (In (TestRun.status r) statuses
          /\ duration_ok (TestRun.duration_ms r)
          /\ 0 <= TestRun.total r /\ 0 <= TestRun.passed r
          /\ 0 <= TestRun.failed r /\ 0 <= TestRun.skipped r
          /\ 0 <= TestRun.blocked r))
  /\ (exists r,
         TestSuite.validate (VDict passed_suite_fields) = Valid r
         /\ TestSuite.status r = "passed"
         /\ TestSuite.duration_ms r = Some 20
         /\ (In (TestSuite.status r) statuses
             /\ duration_ok (TestSuite.duration_ms r)))
  /\ (exists r,
         TestCase.validate (VDict skipped_case_fields) = Valid r
         /\ TestCase.status r = "skipped"
         /\ TestCase.duration_ms r = Some 7
         /\ (In (TestCase.status r) statuses
             /\ duration_ok (TestCase.duration_ms r)))
  /\ (exists r : LogEntry.t,
         LogEntry.validate (VDict error_log_fields) = Valid r
         /\ LogEntry.level r = "ERROR"
         /\ In (LogEntry.level r) levels).
Proof.
  split; [|split; [|split]].
  - eexists. split; [vm_compute; reflexivity|].
    do 3 (split; [reflexivity|]).
    apply (proj1 (accepted_records_are_constrained
                    (VDict failed_run_fields))).
    vm_compute. reflexivity.
  - eexists. split; [vm_compute; reflexivity|].
    do 2 (split; [reflexivity|]).
    apply (proj1 (proj2 (accepted_records_are_constrained
                           (VDict passed_suite_fields)))).
    vm_compute. reflexivity.
  - eexists. split; [vm_compute; reflexivity|].
    do 2 (split; [reflexivity|]).
    apply (proj1 (proj2 (proj2 (accepted_records_are_constrained
                                  (VDict skipped_case_fields))))).
    vm_compute. reflexivity.
  - eexists. split; [vm_compute; reflexivity|].
    split; [reflexivity|].
    apply (proj2 (proj2 (proj2 (accepted_records_are_constrained
                                  (VDict error_log_fields))))).
    vm_compute. reflexivity.
Defined.

(** X13. An absent optional field takes its default in the accepted record:
    status [running], counters and retries 0, level [INFO], and no
    [started_at], [order] or [timestamp]. *)
Theorem absent_fields_take_defaults (d : list (string * value)) :
  (forall r : TestRun.t,
      TestRun.validate (VDict d) = Valid r ->
      (dict_get "status" d = None -> TestRun.status r = "running")
      /\ (dict_get "started_at" d = None -> TestRun.started_at r = None)
      /\ (dict_get "total" d = None -> TestRun.total r = 0)
      /\ (dict_get "passed" d = None -> TestRun.passed r = 0)
      /\ (dict_get "failed" d = None -> TestRun.failed r = 0)
      /\ (dict_get "skipped" d = None -> TestRun.skipped r = 0)
      /\ (dict_get "blocked" d = None -> TestRun.blocked r = 0)
      /\ (dict_get "tags" d = None -> TestRun.tags r = []))
  /\ (forall r,
         TestSuite.validate (VDict d) = Valid r ->
         (dict_get "status" d = None -> TestSuite.status r = "running")
         /\ (dict_get "total" d = None -> TestSuite.total r = 0)
         /\ (dict_get "passed" d = None -> TestSuite.passed r = 0)
         /\ (dict_get "failed" d = None -> TestSuite.failed r = 0)
         /\ (dict_get "skipped" d = None -> TestSuite.skipped r = 0)
         /\ (dict_get "order" d = None -> TestSuite.order r = None))
  /\ (forall r,
         TestCase.validate (VDict d) = Valid r ->
         (dict_get "status" d = None -> TestCase.status r = "running")
         /\ (dict_get "retries" d = None -> TestCase.retries r = 0))
  /\ (forall r : LogEntry.t,
         LogEntry.validate (VDict d) = Valid r ->
         (dict_get "level" d = None -> LogEntry.level r = "INFO")
         /\ (dict_get "timestamp" d = None -> LogEntry.timestamp r = None)).
Proof.
  split; [|split; [|split]];
    intros r H;
    unfold TestRun.validate, TestSuite.validate, TestCase.validate,
      LogEntry.validate, model in H;
    invert_model H; cbn;
    repeat split; intro Hk; eapply with_default_absent; eassumption.
Qed.

Lemma absent_fields_take_defaults_witness :
  (TestRun.status smoke_run = "running"
   /\ TestRun.started_at smoke_run = None
   /\ TestRun.total smoke_run = 0 /\ TestRun.passed smoke_run = 0
   /\ TestRun.failed smoke_run = 0 /\ TestRun.skipped smoke_run = 0
   /\ TestRun.blocked smoke_run = 0 /\ TestRun.tags smoke_run = [])
  /\ (TestSuite.status first_suite = "running"
      /\ TestSuite.total first_suite = 0 /\ TestSuite.passed first_suite = 0
      /\ TestSuite.failed first_suite = 0
      /\ TestSuite.skipped first_suite = 0
      /\ TestSuite.order first_suite = None)
  /\ (TestCase.status first_case = "running"
      /\ TestCase.retries first_case = 0)
  /\ (LogEntry.level first_log = "INFO"
      /\ LogEntry.timestamp first_log = None).
Proof.
  split; [|split; [|split]].
  - destruct (proj1 (absent_fields_take_defaults smoke_run_fields)
                smoke_run)
      as (H1 & H2 & H3 & H4 & H5 & H6 & H7 & H8);
      [vm_compute; reflexivity|].
    split; [apply H1; reflexivity|]. split; [apply H2; reflexivity|].
    split; [apply H3; reflexivity|]. split; [apply H4; reflexivity|].
    split; [apply H5; reflexivity|]. split; [apply H6; reflexivity|].
    split; [apply H7; reflexivity|apply H8; reflexivity].
  - destruct (proj1 (proj2 (absent_fields_take_defaults first_suite_fields))
                first_suite)
      as (H1 & H2 & H3 & H4 & H5 & H6);
      [vm_compute; reflexivity|].
    split; [apply H1; reflexivity|]. split; [apply H2; reflexivity|].
    split; [apply H3; reflexivity|]. split; [apply H4; reflexivity|].
    split; [apply H5; reflexivity|apply H6; reflexivity].
  - destruct (proj1 (proj2 (proj2 (absent_fields_take_defaults
                                     first_case_fields)))
                first_case)
      as (H1 & H2); [vm_compute; reflexivity|].
    split; [apply H1; reflexivity|apply H2; reflexivity].
  - destruct (proj2 (proj2 (proj2 (absent_fields_take_defaults
                                     first_log_fields)))
                first_log)
      as (H1 & H2); [vm_compute; reflexivity|].
    split; [apply H1; reflexivity|apply H2; reflexivity].
Defined.

Lemma vmap_keeps {A B : Type} (f : A -> B) (x : validation A)
  (e : ErrorDetails) :
  (exists errs, x = Invalid errs /\ In e errs) ->
  exists errs, f <$> x = Invalid errs /\ In e errs.
Proof. intros (errs & -> & Hin). cbn. eauto. Qed.

Lemma literal_v_invalid (allowed : list string) (v : value) :
  (forall s, In s allowed -> v <> VStr s) ->
  literal_v allowed v = fail literal_error.
Proof.
  intro H. unfold literal_v. destruct v; try reflexivity.
  destruct (existsb (String.eqb s) allowed) eqn:E; [|reflexivity].
  apply existsb_exists in E as (x & Hx & Ex). apply String.eqb_eq in Ex.
  subst x. now destruct (H s Hx).
Qed.

Lemma with_default_literal_invalid (k dflt : string) (allowed : list string)
  (d : list (string * value)) (v : value) :
  dict_get k d = Some v ->
  (forall s, In s allowed -> v <> VStr s) ->
  exists errs, with_default k dflt (literal_v allowed) d = Invalid errs
               /\ In {| loc := [Key k]; type := literal_error |} errs.
Proof.
  intros Hk Hv. unfold with_default. rewrite Hk, (literal_v_invalid _ _ Hv).
  cbn. eexists. split; [reflexivity|now left].
Qed.

(** X14. A record whose [status] (for a log, [level]) is present and is not
    one of the literals is rejected with [literal_error] at that field, and
    a record without one of its required fields is rejected with [missing]
    at that field. *)
Theorem bad_literal_or_missing_field_reported (d : list (string * value)) :
  (forall v,
      dict_get "status" d = Some v ->
      (forall s, In s statuses -> v <> VStr s) ->
      reports "status" literal_error (TestRun.validate (VDict d))
      /\ reports "status" literal_error (TestSuite.validate (VDict d))
      /\ reports "status" literal_error (TestCase.validate (VDict d)))
  /\ (forall v,
         dict_get "level" d = Some v ->
         (forall s, In s levels -> v <> VStr s) ->
         reports "level" literal_error (LogEntry.validate (VDict d)))
  /\ (dict_get "name" d = None ->
      reports "name" missing (TestRun.validate (VDict d))
      /\ reports "name" missing (TestSuite.validate (VDict d))
      /\ reports "name" missing (TestCase.validate (VDict d)))
  /\ (dict_get "run_id" d = None ->
      reports "run_id" missing (TestSuite.validate (VDict d))
      /\ reports "run_id" missing (TestCase.validate (VDict d)))
  /\ (dict_get "suite_id" d = None ->
      reports "suite_id" missing (TestCase.validate (VDict d)))
  /\ (dict_get "message" d = None ->
      reports "message" missing (LogEntry.validate (VDict d))).
Proof.
  unfold reports, TestRun.validate, TestSuite.validate, TestCase.validate,
    LogEntry.validate, model.
  split; [|split; [|split; [|split; [|split]]]].
  - intros v Hk Hv. split; [|split].
    + do 10 apply vap_keeps_left. apply vap_keeps_right.
      now apply with_default_literal_invalid with (v := v).
    + do 6 apply vap_keeps_left. apply vap_keeps_right.
      now apply with_default_literal_invalid with (v := v).
    + do 6 apply vap_keeps_left. apply vap_keeps_right.
      now apply with_default_literal_invalid with (v := v).
  - intros v Hk Hv. do 4 apply vap_keeps_left. apply vap_keeps_right.
    now apply with_default_literal_invalid with (v := v).
  - intro Hk. split; [|split].
    + do 14 apply vap_keeps_left. apply vmap_keeps.
      now apply required_missing.
    + do 7 apply vap_keeps_left. apply vap_keeps_right.
      now apply required_missing.
    + do 8 apply vap_keeps_left. apply vap_keeps_right.
      now apply required_missing.
  - intro Hk. split.
    + do 8 apply vap_keeps_left. apply vmap_keeps.
      now apply required_missing.
    + do 10 apply vap_keeps_left. apply vmap_keeps.
      now apply required_missing.
  - intro Hk. do 9 apply vap_keeps_left. apply vap_keeps_right.
    now apply required_missing.
  - intro Hk. do 3 apply vap_keeps_left. apply vap_keeps_right.
    now apply required_missing.
Qed.

Lemma bad_literal_or_missing_field_reported_witness :
  (reports "status" literal_error
     (TestRun.validate (VDict [("status", VStr "done")]))
   /\ reports "status" literal_error
        (TestSuite.validate (VDict [("status", VStr "done")]))
   /\ reports "status" literal_error
        (TestCase.validate (VDict [("status", VStr "done")])))
  /\ reports "level" literal_error
       (LogEntry.validate (VDict [("level", VStr "LOUD")]))
  /\ (reports "name" missing
        (TestRun.validate (VDict [("status", VStr "done")]))
      /\ reports "name" missing
           (TestSuite.validate (VDict [("status", VStr "done")]))
      /\ reports "name" missing
           (TestCase.validate (VDict [("status", VStr "done")])))
  /\ (reports "run_id" missing
        (TestSuite.validate (VDict [("status", VStr "done")]))
      /\ reports "run_id" missing
           (TestCase.validate (VDict [("status", VStr "done")])))
  /\ reports "suite_id" missing
       (TestCase.validate (VDict [("status", VStr "done")]))
  /\ reports "message" missing
       (LogEntry.validate (VDict [("level", VStr "LOUD")])).
Proof.
  destruct (bad_literal_or_missing_field_reported [("status", VStr "done")])
    as (Hs & _ & Hn & Hr & Hsu & _).
  destruct (bad_literal_or_missing_field_reported [("level", VStr "LOUD")])
    as (_ & Hl & _ & _ & _ & Hm).
  split.
  { apply (Hs (VStr "done")); [reflexivity|].
    intros s Hin [= <-]. cbn in Hin. intuition discriminate. }
  split.
  { apply (Hl (VStr "LOUD")); [reflexivity|].
    intros s Hin [= <-]. cbn in Hin. intuition discriminate. }
  split; [apply Hn; reflexivity|].
  split; [apply Hr; reflexivity|].
  split; [apply Hsu; reflexivity|apply Hm; reflexivity].
Defined.

(** ** Ingestions that fail *)

Lemma bind_raises {A B : Type} (m : M A) (k : A -> M B) (st st1 : Store)
  (e : Exception) :
  m st = (Raise e, st1) -> bind m k st = (Raise e, st1).
Proof. intro H. unfold bind. now rewrite H. Qed.

Lemma construct_raises {A : Type} (v : validator A) kwargs (st : Store)
  (errs : list ErrorDetails) :
  v (VDict kwargs) = Invalid errs ->
  construct v kwargs st = (Raise (ValidationError errs), st).
Proof. intro H. unfold construct. now rewrite H. Qed.

Lemma or_now_Return_any (x : option datetime) (st : Store) :
  exists t st', or_now x st = (Return t, st') /\ appended st st' [] [] [] [].
Proof.
  destruct x as [d|]; cbn; do 2 eexists; (split; [reflexivity|]);
    unfold appended; cbn; now rewrite !app_nil_r.
Qed.

(** X15. The payload model puts no bound on [duration_ms], the model of the
    stored run does: on a payload whose run has a negative [duration_ms],
    [ingest] raises the validation error of [TestRun] (not a request
    error) naming [duration_ms], before anything is written. *)
Theorem ingest_negative_run_duration (p : IngestRun.t) (st : Store) (z : Z) :
  IngestRun.duration_ms p = Some z -> z < 0 ->
  exists errs st',
    ingest p st = (Raise (ValidationError errs), st')
    /\ In {| loc := [Key "duration_ms"]; type := greater_than_equal |} errs
    /\ appended st st' [] [] [] [].
Proof.
  intros Hd Hz. unfold ingest.
  destruct (or_now_Return_any (IngestRun.started_at p) st)
    as (t & s1 & E1 & Ha).
  rewrite (bind_returns _ _ _ _ _ E1).
  match goal with
  | |- context [construct TestRun.validate ?kw] =>
      destruct (proj1 (declared_bounds_enforced kw z Hz) "duration_ms")
        as (errs & Hv & Hin);
      [cbn; tauto|rewrite Hd; reflexivity|];
      rewrite (bind_raises _ _ _ _ _ (construct_raises _ kw s1 errs Hv))
  end.
  exists errs, s1. auto.
Qed.

Lemma ingest_negative_run_duration_witness :
  exists errs st',
    ingest nightly_negative empty_store = (Raise (ValidationError errs), st')
    /\ In {| loc := [Key "duration_ms"]; type := greater_than_equal |} errs
    /\ appended empty_store st' [] [] [] [].
Proof.
  apply (ingest_negative_run_duration nightly_negative empty_store (-1));
    [reflexivity|lia].
Defined.

Lemma foldM_app {A B : Type} (f : B -> A -> M B) (l1 l2 : list A) (b : B)
  (st : Store) :
  foldM f (l1 ++ l2) b st = bind (foldM f l1 b) (foldM f l2) st.
Proof.
  revert b st. induction l1 as [|a l1 IH]; intros b st; [reflexivity|].
  cbn [app foldM]. unfold bind.
  destruct (f b a st) as [[b'|e] st1]; [|reflexivity].
  rewrite IH. reflexivity.
Qed.

Lemma combine_seq_app {A : Type} (l1 l2 : list A) (k : nat) :
  combine (seq k (List.length (l1 ++ l2))) (l1 ++ l2)
  = combine (seq k (List.length l1)) l1
    ++ combine (seq (k + List.length l1) (List.length l2)) l2.
Proof.
  revert k. induction l1 as [|x l1 IH]; intro k; cbn.
  - now rewrite Nat.add_0_r.
  - rewrite IH. now rewrite Nat.add_succ_r.
Qed.

(** X16. No rollback, and counters only at the end: when a suite of the
    payload has a negative [duration_ms] and everything before it is
    acceptable, [ingest] raises the validation error of [TestSuite] naming
    [duration_ms]; the run and the suites before the failing one stay
    stored, and the stored run keeps the zero counters it was inserted
    with, whatever the counts of the suites already stored. *)
Theorem ingest_failing_suite_keeps_writes (p : IngestRun.t) (st : Store)
  (pre post : list IngestSuite.t) (s : IngestSuite.t) (z : Z) :
  IngestRun.suites p = pre ++ s :: post ->
  status_ok (IngestRun.status p) ->
  duration_ok (IngestRun.duration_ms p) ->
  Forall acceptable_suite pre ->
  IngestSuite.duration_ms s = Some z -> z < 0 ->
  well_formed st ->
  (oid_counter st + 1
   + fold_right (fun s n => documents_of_suite s + n) 0 pre < 16 ^ 24)%N ->
  exists errs st' rd ss cs ls,
    ingest p st = (Raise (ValidationError errs), st')
    /\ In {| loc := [Key "duration_ms"]; type := greater_than_equal |} errs
    /\ appended st st' [rd] ss cs ls
    /\ map (fun d => TestSuite.name (doc d)) ss = map IngestSuite.name pre
    /\ TestRun.name (doc rd) = IngestRun.name p
    /\ TestRun.total (doc rd) = 0 /\ TestRun.passed (doc rd) = 0
    /\ TestRun.failed (doc rd) = 0 /\ TestRun.skipped (doc rd) = 0.
Proof.
  intros Hsuites Hs Hd Hpre Hdur Hz Hwf Hroom. unfold ingest.
  destruct (or_now_returns (IngestRun.started_at p) st)
    as (t & s1 & E1 & W1 & C1).
  pose proof (or_now_Return _ _ _ _ E1) as (Ha1 & _ & _).
  rewrite (bind_returns _ _ _ _ _ E1).
  rewrite (bind_returns _ _ _ _ _
             (construct_returns _ _ _ s1
                (TestRun_kwargs_valid _ _ _ _ _ t _ _ _ _ Hs Hd))).
  match goal with
  | |- context [create_document testrun ?data] =>
      destruct (create_document_returns testrun data s1 (W1 Hwf))
        as (s2 & E2 & W2 & C2); [lia|];
      pose proof (create_document_found _ _ _ _ _ E2)
        as (oid & _ & _ & Hrun & _)
  end.
  rewrite (bind_returns _ _ _ _ _ E2).
  cbn [docs] in Hrun.
  unfold enumerate. rewrite Hsuites, combine_seq_app.
  set (rid := ObjectId.str (ObjectId.generate (oid_counter s1))).
  set (zero := {| total := 0; passed := 0; failed := 0; skipped := 0;
                  blocked := 0 |}).
  destruct (foldM_suites_returns rid pre Hpre 0%nat zero s2 W2)
    as (acc & s3 & E3 & W3 & C3); [lia|].
  pose proof (foldM_suites_Return _ _ _ _ _ _ E3)
    as (sts & Ha3 & Hsts & _).
  assert (Hfail : exists errs,
             foldM (ingest_suite rid)
               (combine (seq (0 + List.length pre) (List.length (s :: post)))
                  (s :: post)) acc s3
             = (Raise (ValidationError errs), s3)
             /\ In {| loc := [Key "duration_ms"];
                      type := greater_than_equal |} errs).
  { cbn [List.length seq combine foldM]. unfold ingest_suite at 1.
    match goal with
    | |- context [construct TestSuite.validate ?kw] =>
        destruct (proj1 (proj2 (declared_bounds_enforced kw z Hz)))
          as (errs & Hv & Hin);
        [rewrite Hdur; reflexivity|];
        exists errs; split; [|exact Hin];
        rewrite (bind_raises _ _ _ _ _
                   (bind_raises _ _ _ _ _
                      (construct_raises _ kw s3 errs Hv)))
    end.
    reflexivity. }
  destruct Hfail as (errs & E4 & Hin).
  assert (E5 : foldM (ingest_suite rid)
                 (combine (seq 0 (List.length pre)) pre
                  ++ combine (seq (0 + List.length pre)
                                  (List.length (s :: post))) (s :: post))
                 zero s2
               = (Raise (ValidationError errs), s3)).
  { rewrite foldM_app. now rewrite (bind_returns _ _ _ _ _ E3). }
  rewrite (bind_raises _ _ _ _ _ E5).
  eexists errs, s3, _, (map fst sts), _, _.
  split; [reflexivity|]. split; [exact Hin|].
  split.
  { destruct Ha1 as (R1 & S1 & K1 & L1).
    rewrite app_nil_r in R1, S1, K1, L1.
    destruct Ha3 as (R3 & S3 & K3 & L3). rewrite app_nil_r in R3.
    assert (S2 : db_testsuite s2 = db_testsuite s1
                 /\ db_testcase s2 = db_testcase s1
                 /\ db_logentry s2 = db_logentry s1).
    { unfold create_document in E2.
      destruct (existsb _ (docs testrun s1)); [discriminate|].
      injection E2 as <-. repeat split. }
    destruct S2 as (S2 & K2 & L2).
    unfold appended.
    rewrite R3, S3, K3, L3, Hrun, S2, K2, L2, R1, S1, K1, L1.
    repeat split; reflexivity. }
  split.
  { rewrite map_map.
    clear - Hsts. revert Hsts. generalize 0%nat.
    revert sts. induction pre as [|x pre IH]; intros sts k H.
    - inversion H. reflexivity.
    - cbn in H. inversion H as [|sd os sts' oss (Hdoc & _) Hrest]; subst.
      cbn. rewrite Hdoc. cbn. f_equal. now apply (IH sts' (S k)). }
  cbn. auto.
Qed.

Lemma ingest_failing_suite_keeps_writes_witness :
  exists errs st' rd ss cs ls,
    ingest nightly_broken empty_store = (Raise (ValidationError errs), st')
    /\ In {| loc := [Key "duration_ms"]; type := greater_than_equal |} errs
    /\ appended empty_store st' [rd] ss cs ls
    /\ map (fun d => TestSuite.name (doc d)) ss
       = map IngestSuite.name (IngestRun.suites nightly)
    /\ TestRun.name (doc rd) = IngestRun.name nightly_broken
    /\ TestRun.total (doc rd) = 0 /\ TestRun.passed (doc rd) = 0
    /\ TestRun.failed (doc rd) = 0 /\ TestRun.skipped (doc rd) = 0.
Proof.
  apply (ingest_failing_suite_keeps_writes nightly_broken empty_store
           (IngestRun.suites nightly) [] broken_suite (-1)).
  - reflexivity.
  - reflexivity.
  - exact I.
  - repeat constructor.
  - reflexivity.
  - lia.
  - repeat constructor.
  - vm_compute. reflexivity.
Defined.

(** ** Nothing is removed *)

Lemma extends_refl (st : Store) : extends st st.
Proof. repeat split; exists []; now rewrite app_nil_r. Qed.

Lemma extends_trans (a b c : Store) : extends a b -> extends b c -> extends a c.
Proof.
  intros ((r1 & R1) & (s1 & S1) & (c1 & C1) & (l1 & L1))
         ((r2 & R2) & (s2 & S2) & (c2 & C2) & (l2 & L2)).
  repeat split; eexists.
  - rewrite R2, R1, <- app_assoc. reflexivity.
  - rewrite S2, S1, <- app_assoc. reflexivity.
  - rewrite C2, C1, <- app_assoc. reflexivity.
  - rewrite L2, L1, <- app_assoc. reflexivity.
Qed.

Lemma extends_same_docs (st st' : Store) :
  db_testrun st' = db_testrun st -> db_testsuite st' = db_testsuite st ->
  db_testcase st' = db_testcase st -> db_logentry st' = db_logentry st ->
  extends st st'.
Proof.
  unfold extends. intros -> -> -> ->.
  repeat split; exists []; now rewrite app_nil_r.
Qed.

Lemma only_adds_ret {A : Type} (a : A) : only_adds (ret a).
Proof. intro st. apply extends_refl. Qed.

Lemma only_adds_raise {A : Type} (e : Exception) : only_adds (@raise A e).
Proof. intro st. apply extends_refl. Qed.

Lemma only_adds_bind {A B : Type} (m : M A) (k : A -> M B) :
  only_adds m -> (forall a, only_adds (k a)) -> only_adds (bind m k).
Proof.
  intros Hm Hk st. unfold bind. specialize (Hm st).
  destruct (m st) as [[a|e] st1]; cbn [snd] in *; [|exact Hm].
  eapply extends_trans; [exact Hm|apply Hk].
Qed.

Lemma only_adds_foldM {A B : Type} (f : B -> A -> M B) (l : list A) :
  (forall b a, only_adds (f b a)) -> forall b, only_adds (foldM f l b).
Proof.
  intro H. induction l as [|a l IH]; intro b; cbn [foldM].
  - apply only_adds_ret.
  - apply only_adds_bind; [apply H|apply IH].
Qed.

Lemma only_adds_now : only_adds now.
Proof. intro st. now apply extends_same_docs. Qed.

Lemma only_adds_or_now (x : option datetime) : only_adds (or_now x).
Proof. destruct x; [apply only_adds_ret|apply only_adds_now]. Qed.

Lemma only_adds_get : only_adds get.
Proof. intro st. apply extends_refl. Qed.

Lemma only_adds_construct {A : Type} (v : validator A) kwargs :
  only_adds (construct v kwargs).
Proof.
  unfold construct. destruct (v (VDict kwargs));
    [apply only_adds_ret|apply only_adds_raise].
Qed.

Lemma only_adds_to_object_id (s : string) : only_adds (to_object_id s).
Proof.
  unfold to_object_id. destruct (ObjectId.parse s);
    [apply only_adds_ret|apply only_adds_raise].
Qed.

Lemma only_adds_create_document {A : Type} (c : collection A) (data : A) :
  only_adds (create_document c data).
Proof.
  intro st. unfold create_document.
  destruct (existsb _ (docs c st)); cbn [snd].
  - now apply extends_same_docs.
  - destruct c; unfold extends, ids; store_fields; rewrite ?map_app;
      repeat split;
      first [exists []; now rewrite app_nil_r | eexists; reflexivity].
Qed.

Lemma only_adds_update_testrun (oid : ObjectId.t)
  (set : TestRun.t -> TestRun.t) :
  only_adds (update_one testrun oid set).
Proof.
  intro st. unfold update_one. cbn [snd]. unfold extends. store_fields.
  rewrite ids_update_first.
  repeat split; exists []; now rewrite app_nil_r.
Qed.

Ltac only_adds_step :=
  first
    [ apply only_adds_ret | apply only_adds_raise | apply only_adds_now
    | apply only_adds_or_now | apply only_adds_get
    | apply only_adds_construct | apply only_adds_to_object_id
    | apply only_adds_create_document | apply only_adds_update_testrun
    | apply only_adds_bind; [|intro]
    | apply only_adds_foldM; intros ].

Lemma only_adds_ingest_log rid cid (l : LogEntry.t) :
  only_adds (ingest_log rid cid l).
Proof. unfold ingest_log. repeat only_adds_step. Qed.

Lemma only_adds_ingest_case rid sid (c : IngestCase.t) :
  only_adds (ingest_case rid sid c).
Proof.
  unfold ingest_case, for_each. repeat only_adds_step.
Qed.

Lemma only_adds_ingest_suite rid (acc : Counters) (os : nat * IngestSuite.t) :
  only_adds (ingest_suite rid acc os).
Proof.
  destruct os as [i s]. unfold ingest_suite, for_each.
  repeat only_adds_step.
Qed.

Lemma only_adds_ingest (p : IngestRun.t) : only_adds (ingest p).
Proof.
  unfold ingest. repeat only_adds_step; apply only_adds_ingest_suite.
Qed.

Lemma only_adds_perform (o : operation) (st : Store) :
  extends st (perform o st).
Proof.
  destruct o as [run|rid suite|sid case|cid log|p]; cbn [perform].
  - enough (H : only_adds (create_run run)) by apply H.
    unfold create_run. repeat only_adds_step.
  - enough (H : only_adds (create_suite rid suite)) by apply H.
    unfold create_suite. destruct (negb _); repeat only_adds_step.
  - enough (H : only_adds (create_case sid case)) by apply H.
    unfold create_case. destruct (negb _); repeat only_adds_step.
  - enough (H : only_adds (add_log cid log)) by apply H.
    unfold add_log. destruct (negb _); [apply only_adds_raise|].
    apply only_adds_bind;
      [destruct (LogEntry.timestamp log)|intro]; repeat only_adds_step.
  - apply only_adds_ingest.
Qed.

(** X17. No handler removes or rewrites a suite, a case or a log, and none
    removes a run: after any sequence of create and ingest operations
    (returned or raised), and after [finish_run], the store holds the
    suites, cases and logs it held, unchanged and in place, with new ones
    after them, and a run under every identifier that had one.  The two
    read handlers leave the store as it is. *)
Theorem nothing_is_removed (st : Store) :
  (forall ops, extends st (perform_all ops st))
  /\ (forall run_id payload,
         extends st (snd (finish_run run_id payload st)))
  /\ (forall run_id, snd (get_run_detail run_id st) = st)
  /\ (forall limit_ status tag, snd (list_runs limit_ status tag st) = st).
Proof.
  split; [|split; [|split]].
  - intro ops. revert st. induction ops as [|o ops IH]; intro st.
    + apply extends_refl.
    + cbn [perform_all fold_left].
      eapply extends_trans; [apply only_adds_perform|apply IH].
  - intros run_id payload.
    enough (H : only_adds (finish_run run_id payload)) by apply H.
    unfold finish_run.
    apply only_adds_bind;
      [destruct (fin_finished_at payload)|intro]; repeat only_adds_step.
  - intro run_id. unfold get_run_detail, to_object_id, bind, get.
    destruct (ObjectId.parse run_id) as [oid|]; [|reflexivity].
    unfold ret at 1 2. now destruct (find_one testrun oid st).
  - reflexivity.
Qed.

(** ** Retrieving what was ingested *)

Lemma preserves_ret {A : Type} (P : Store -> Prop) (a : A) :
  preserves P (ret a).
Proof. now intros st H. Qed.

Lemma preserves_raise {A : Type} (P : Store -> Prop) (e : Exception) :
  preserves P (@raise A e).
Proof. now intros st H. Qed.

Lemma preserves_bind {A B : Type} (P : Store -> Prop) (m : M A)
  (k : A -> M B) :
  preserves P m -> (forall a, preserves P (k a)) -> preserves P (bind m k).
Proof.
  intros Hm Hk st HP. unfold bind. specialize (Hm st HP).
  destruct (m st) as [[a|e] st1]; cbn [snd] in *; [now apply Hk|exact Hm].
Qed.

Lemma preserves_foldM {A B : Type} (P : Store -> Prop) (f : B -> A -> M B)
  (l : list A) :
  (forall b a, preserves P (f b a)) -> forall b, preserves P (foldM f l b).
Proof.
  intro H. induction l as [|a l IH]; intro b; cbn [foldM].
  - apply preserves_ret.
  - apply preserves_bind; [apply H|apply IH].
Qed.

Lemma fresh_not_known {A : Type} (old : list (Stored A)) (d : Stored A) :
  fresh_in old d -> known old (ObjectId.str (_id d)) = false.
Proof.
  unfold fresh_in. intro H.
  destruct (known old (ObjectId.str (_id d))) eqn:K; [|reflexivity].
  apply known_In in K. unfold ids in K.
  apply in_map_iff in K as (d' & E & Hin). apply oid_str_inj in E.
  assert (existsb (has_id (_id d)) old = true); [|congruence].
  apply existsb_exists. exists d'. split; [exact Hin|].
  unfold has_id. rewrite E. apply oid_eqb_refl.
Qed.

Lemma NoDup_ids_snoc {A : Type} (old : list (Stored A)) (d : Stored A) :
  NoDup (ids old) -> fresh_in old d -> NoDup (ids (old ++ [d])).
Proof.
  intros Hn Hf. unfold ids. rewrite map_app.
  apply NoDup_app; [exact Hn|repeat constructor; now intros []|].
  intros x Hx [<-|[]]. apply known_In in Hx.
  now rewrite (fresh_not_known _ _ Hf) in Hx.
Qed.

Lemma unique_ids_same_docs (st st' : Store) :
  db_testsuite st' = db_testsuite st -> db_testcase st' = db_testcase st ->
  unique_ids st -> unique_ids st'.
Proof. unfold unique_ids. now intros -> ->. Qed.

Lemma preserves_unique_create {A : Type} (c : collection A) (data : A) :
  preserves unique_ids (create_document c data).
Proof.
  intros st (Hs & Hc). unfold create_document.
  destruct (existsb _ (docs c st)) eqn:E; cbn [snd]; [now split|].
  destruct c; unfold unique_ids; store_fields; cbn [docs] in E;
    split; auto; now apply NoDup_ids_snoc.
Qed.

Ltac preserves_unique_step :=
  first
    [ apply preserves_ret | apply preserves_raise
    | apply preserves_unique_create
    | apply preserves_bind; [|intro]
    | apply preserves_foldM; intros ].

Lemma preserves_unique_or_now (x : option datetime) :
  preserves unique_ids (or_now x).
Proof. destruct x; [apply preserves_ret|]. now intros st H. Qed.

Lemma preserves_unique_construct {A : Type} (v : validator A) kwargs :
  preserves unique_ids (construct v kwargs).
Proof.
  unfold construct. destruct (v (VDict kwargs));
    [apply preserves_ret|apply preserves_raise].
Qed.

Lemma preserves_unique_ingest_log rid cid (l : LogEntry.t) :
  preserves unique_ids (ingest_log rid cid l).
Proof.
  unfold ingest_log.
  apply preserves_bind; [apply preserves_unique_or_now|intro].
  apply preserves_bind; [apply preserves_unique_construct|intro].
  repeat preserves_unique_step.
Qed.

Lemma preserves_unique_ingest_case rid sid (c : IngestCase.t) :
  preserves unique_ids (ingest_case rid sid c).
Proof.
  unfold ingest_case, for_each.
  apply preserves_bind; [apply preserves_unique_construct|intro].
  apply preserves_bind; [apply preserves_unique_create|intro].
  apply preserves_foldM. intros. apply preserves_unique_ingest_log.
Qed.

Lemma preserves_unique_ingest_suite rid (acc : Counters)
  (os : nat * IngestSuite.t) :
  preserves unique_ids (ingest_suite rid acc os).
Proof.
  destruct os as [i s]. unfold ingest_suite, for_each.
  apply preserves_bind; [apply preserves_unique_construct|intro].
  apply preserves_bind; [apply preserves_unique_create|intro].
  apply preserves_bind; [|intro; apply preserves_ret].
  apply preserves_foldM. intros. apply preserves_unique_ingest_case.
Qed.

Lemma preserves_unique_ingest (p : IngestRun.t) :
  preserves unique_ids (ingest p).
Proof.
  unfold ingest.
  apply preserves_bind; [apply preserves_unique_or_now|intro].
  apply preserves_bind; [apply preserves_unique_construct|intro].
  apply preserves_bind; [apply preserves_unique_create|intro].
  apply preserves_bind;
    [apply preserves_foldM; intros; apply preserves_unique_ingest_suite
    |intro].
  apply preserves_bind.
  { unfold to_object_id. destruct (ObjectId.parse _);
      [apply preserves_ret|apply preserves_raise]. }
  intro. apply preserves_bind; [|intro; apply preserves_ret].
  now intros st H.
Qed.

Lemma NoDup_app_disjoint {A : Type} (l1 l2 : list A) (x : A) :
  NoDup (l1 ++ l2) -> In x l2 -> ~ In x l1.
Proof.
  induction l1 as [|a l1 IH]; cbn; intros Hn Hx; [tauto|].
  apply NoDup_cons_iff in Hn as [Ha Hn].
  intros [<-|H1]; [apply Ha, in_or_app; now right|now apply IH].
Qed.

Lemma filter_others {X Y : Type} (key : X -> string) (items : X -> list Y)
  (tag : Y -> string) (k : string) (l : list X) :
  ~ In k (map key l) ->
  Forall (fun x => Forall (fun y => tag y = key x) (items x)) l ->
  filter (fun y => String.eqb (tag y) k) (List.concat (map items l)) = [].
Proof.
  intros Hk H. induction H as [|x l Hx _ IH]; [reflexivity|].
  cbn [map List.concat]. rewrite filter_app, IH.
  - rewrite app_nil_r. apply filter_none.
    revert Hx. apply Forall_impl. intros y Hy.
    apply String.eqb_neq. rewrite Hy. intros <-. apply Hk. now left.
  - intro Hin. apply Hk. now right.
Qed.

(** Among items tagged with the key of their owner, the items carrying the
    key of [x] are the items of [x]. *)
Lemma filter_own {X Y : Type} (key : X -> string) (items : X -> list Y)
  (tag : Y -> string) (l : list X) :
  NoDup (map key l) ->
  Forall (fun x => Forall (fun y => tag y = key x) (items x)) l ->
  forall x, In x l ->
            filter (fun y => String.eqb (tag y) (key x))
                   (List.concat (map items l)) = items x.
Proof.
  intros Hn H. induction H as [|a l Ha Hl IH]; intros x Hx; [destruct Hx|].
  cbn [map] in Hn. apply NoDup_cons_iff in Hn as [Hna Hn].
  cbn [map List.concat]. rewrite filter_app.
  destruct Hx as [<-|Hx].
  - rewrite (filter_others key items tag (key a) l Hna Hl), app_nil_r.
    apply filter_all. revert Ha. apply Forall_impl. intros y ->.
    apply String.eqb_refl.
  - rewrite (IH Hn x Hx).
    rewrite filter_none; [reflexivity|].
    revert Ha. apply Forall_impl. intros y Hy.
    apply String.eqb_neq. rewrite Hy. intro E. apply Hna. rewrite E.
    now apply in_map.
Qed.

Lemma insert_by_map {A B : Type} (key : B -> option Z) (f : A -> B) (x : A)
  (l : list A) :
  insert_by key (f x) (map f l) = map f (insert_by (fun a => key (f a)) x l).
Proof.
  induction l as [|y l IH]; cbn; [reflexivity|].
  destruct (key_le (key (f x)) (key (f y))); cbn; [reflexivity|].
  now rewrite IH.
Qed.

Lemma sort_map {A B : Type} (key : B -> option Z) (f : A -> B) (l : list A) :
  sort key (map f l) = map f (sort (fun a => key (f a)) l).
Proof.
  induction l as [|x l IH]; cbn; [reflexivity|].
  now rewrite IH, insert_by_map.
Qed.

Lemma Forall2_insert_by {A B : Type} (R : A -> B -> Prop)
  (k1 : A -> option Z) (k2 : B -> option Z) (x : A) (y : B)
  (l1 : list A) (l2 : list B) :
  (forall a b, R a b -> k1 a = k2 b) ->
  R x y -> Forall2 R l1 l2 ->
  Forall2 R (insert_by k1 x l1) (insert_by k2 y l2).
Proof.
  intros Hk Hxy H. induction H as [|a b l1 l2 Hab H IH]; cbn.
  - now repeat constructor.
  - rewrite (Hk _ _ Hxy), (Hk _ _ Hab).
    destruct (key_le (k2 y) (k2 b)).
    + constructor; [exact Hxy|]. constructor; [exact Hab|exact H].
    + constructor; [exact Hab|exact IH].
Qed.

Lemma Forall2_sort {A B : Type} (R : A -> B -> Prop)
  (k1 : A -> option Z) (k2 : B -> option Z) (l1 : list A) (l2 : list B) :
  (forall a b, R a b -> k1 a = k2 b) ->
  Forall2 R l1 l2 -> Forall2 R (sort k1 l1) (sort k2 l2).
Proof.
  intros Hk H. induction H as [|a b l1 l2 Hab _ IH]; cbn; [constructor|].
  now apply Forall2_insert_by.
Qed.

Lemma Permutation_insert_by {A : Type} (key : A -> option Z) (x : A)
  (l : list A) :
  Permutation (insert_by key x l) (x :: l).
Proof.
  induction l as [|y l IH]; cbn; [reflexivity|].
  destruct (key_le (key x) (key y)); [reflexivity|].
  rewrite IH. apply perm_swap.
Qed.

Lemma Permutation_sort {A : Type} (key : A -> option Z) (l : list A) :
  Permutation (sort key l) l.
Proof.
  induction l as [|x l IH]; cbn; [reflexivity|].
  rewrite Permutation_insert_by. now constructor.
Qed.

Lemma Forall2_with_In {A B : Type} (R : A -> B -> Prop) (l : list A)
  (l' : list B) :
  Forall2 R l l' -> Forall2 (fun a b => R a b /\ In a l) l l'.
Proof.
  intro H. induction H as [|a b l l' Hab _ IH]; constructor.
  - split; [exact Hab|now left].
  - revert IH. apply Forall2_impl. intros x y [Hxy Hin].
    split; [exact Hxy|now right].
Qed.

Lemma Forall2_map_left {A B C : Type} (R : C -> B -> Prop) (f : A -> C)
  (l : list A) (l' : list B) :
  Forall2 (fun a b => R (f a) b) l l' -> Forall2 R (map f l) l'.
Proof. intro H. induction H; cbn; constructor; auto. Qed.

Lemma Forall2_left {A B : Type} (P : A -> Prop) (l : list A) (l' : list B) :
  Forall2 (fun a _ => P a) l l' -> Forall P l.
Proof. intro H. induction H; constructor; auto. Qed.

Lemma Forall2_map_eq {A B C : Type} (f : A -> C) (g : B -> C) (l : list A)
  (l' : list B) :
  Forall2 (fun a b => f a = g b) l l' -> map f l = map g l'.
Proof. intro H. induction H; cbn; congruence. Qed.

Lemma stored_cases_suite_id rid (sts : list SuiteDocs)
  (oss : list (nat * IngestSuite.t)) :
  Forall2 (suite_ok rid) sts oss ->
  Forall (fun sd : SuiteDocs =>
            Forall (fun c : Stored TestCase.t =>
                      TestCase.suite_id (doc c) = ObjectId.str (_id (fst sd)))
                   (map fst (snd sd)))
         sts.
Proof.
  intro H. induction H as [|sd os sts oss (_ & Hcs) _ IH]; constructor;
    [|exact IH].
  apply Forall_map.
  apply Forall2_left with (l' := IngestSuite.cases (snd os)).
  revert Hcs. apply Forall2_impl. intros ct c (Hd & _). now rewrite Hd.
Qed.

Lemma stored_logs_case_id rid (sts : list SuiteDocs)
  (oss : list (nat * IngestSuite.t)) :
  Forall2 (suite_ok rid) sts oss ->
  Forall (fun ct : CaseDocs =>
            Forall (fun l : Stored LogEntry.t =>
                      LogEntry.case_id (doc l) = ObjectId.str (_id (fst ct)))
                   (snd ct))
         (case_docs_of sts).
Proof.
  intro H.
  apply Forall2_left
    with (l' := flat_map IngestSuite.cases (map snd oss)).
  apply (stored_cases_flat rid
           (fun ct _ =>
              Forall (fun l : Stored LogEntry.t =>
                        LogEntry.case_id (doc l)
                        = ObjectId.str (_id (fst ct)))
                     (snd ct)) sts oss); [|exact H].
  intros sid ct c (_ & Hl).
  apply Forall2_left with (l' := IngestCase.logs c).
  revert Hl. apply Forall2_impl. intros d l (_ & E & _). exact E.
Qed.

(** X18. On a store that has referential integrity and no two suites and no
    two cases with the same identifier, a run that [ingest] accepted is
    retrieved whole by [get_run_detail] on the returned identifier: the
    tree carries that identifier and the payload's name and status, its
    suites are the payload's suites and no others, in ascending order of
    [order] (the position where the payload gives none, ties in payload
    order), each with the payload's cases in payload order, each case with
    the payload's logs in some order. *)
Theorem ingest_then_get_run_detail (p : IngestRun.t) (st st' : Store)
  (rid : string) :
  referential_integrity st = true ->
  unique_ids st ->
  ingest p st = (Return rid, st') ->
  exists tree,
    get_run_detail rid st' = (Return tree, st')
    /\ id (run_doc tree) = rid
    /\ TestRun.name (fields (run_doc tree)) = IngestRun.name p
    /\ TestRun.status (fields (run_doc tree)) = IngestRun.status p
    /\ Forall2 suite_matches (suites tree)
         (sort (fun os => Some (order_or_index os))
               (enumerate (IngestRun.suites p))).
Proof.
  intros Hri Hu H.
  pose proof (preserves_unique_ingest p st Hu) as Hu'.
  rewrite H in Hu'. cbn [snd] in Hu'. destruct Hu' as (Hus' & Huc').
  apply referential_integrity_Forall in Hri as (Hrs & Hrc & Hrl).
  apply ingest_Return
    in H as (rd & sts & -> & Hp & Hf & (t & _ & Hrun)
             & (Hr & Hs & Hc & Hl) & Hsts & Hfs).
  rewrite Hs in Hus'. rewrite Hc in Huc'. unfold ids in Hus', Huc'.
  rewrite map_app in Hus', Huc'.
  assert (HA : find testsuite
                 (fun s => String.eqb (TestSuite.run_id s)
                                      (ObjectId.str (_id rd))) st'
               = map fst sts).
  { unfold find. cbn [docs]. rewrite Hs, filter_app, filter_none, filter_all;
      [reflexivity| |].
    - apply stored_suites_run_id in Hsts. revert Hsts.
      apply Forall_impl. intros d ->. apply String.eqb_refl.
    - revert Hrs. apply Forall_impl. intros s Hk.
      apply String.eqb_neq. intro E. rewrite E in Hk.
      now rewrite (fresh_not_known _ _ Hf) in Hk. }
  assert (HB : forall sd : SuiteDocs,
             In sd sts ->
             find testcase
               (fun c => String.eqb (TestCase.suite_id c)
                                    (ObjectId.str (_id (fst sd)))) st'
             = map fst (snd sd)).
  { intros sd Hin. unfold find. cbn [docs]. rewrite Hc, filter_app, filter_none.
    2:{ revert Hrc. apply Forall_impl. intros c Hk.
        apply String.eqb_neq. intro E. rewrite E in Hk.
        rewrite Forall_forall in Hfs.
        now rewrite (fresh_not_known _ _ (Hfs sd Hin)) in Hk. }
    cbn [app]. unfold case_docs_of. rewrite concat_map, map_map.
    apply (filter_own (fun sd : SuiteDocs => ObjectId.str (_id (fst sd)))
             (fun sd : SuiteDocs => map fst (snd sd))
             (fun c : Stored TestCase.t => TestCase.suite_id (doc c)) sts).
    - apply NoDup_app_remove_l in Hus'. now rewrite map_map in Hus'.
    - exact (stored_cases_suite_id _ _ _ Hsts).
    - exact Hin. }
  assert (HC : forall ct : CaseDocs,
             In ct (case_docs_of sts) ->
             find logentry
               (fun l => String.eqb (LogEntry.case_id l)
                                    (ObjectId.str (_id (fst ct)))) st'
             = snd ct).
  { intros ct Hin. unfold find. cbn [docs]. rewrite Hl, filter_app, filter_none.
    2:{ revert Hrl. apply Forall_impl. intros l Hk.
        apply String.eqb_neq. intro E.
        assert (K : known (db_testcase st) (ObjectId.str (_id (fst ct)))
                    = true) by (rewrite <- E; exact Hk).
        apply known_In in K. revert K.
        apply (NoDup_app_disjoint _ _ _ Huc'). rewrite map_map.
        exact (in_map (fun ct : CaseDocs => ObjectId.str (_id (fst ct)))
                 _ ct Hin). }
    cbn [app]. unfold log_docs_of.
    apply (filter_own (fun ct : CaseDocs => ObjectId.str (_id (fst ct)))
             snd
             (fun l : Stored LogEntry.t => LogEntry.case_id (doc l))
             (case_docs_of sts)).
    - apply NoDup_app_remove_l in Huc'. now rewrite map_map in Huc'.
    - exact (stored_logs_case_id _ _ _ Hsts).
    - exact Hin. }
  unfold get_run_detail, to_object_id, bind, get. rewrite Hp.
  unfold ret, find_one. cbn [docs]. rewrite Hr.
  rewrite (find_app_fresh _ _ _ Hf (has_id_refl rd)).
  eexists. split; [reflexivity|]. cbn [run_doc suites].
  split; [reflexivity|].
  split;
    [exact (f_equal (fun r => TestRun.name
                                (TestRun.map_datetime isoformat r)) Hrun)|].
  split;
    [exact (f_equal (fun r => TestRun.status
                                (TestRun.map_datetime isoformat r)) Hrun)|].
  rewrite HA, sort_map, !map_map. apply Forall2_map_left.
  apply Forall2_impl
    with (R1 := fun sd os => suite_ok (ObjectId.str (_id rd)) sd os
                             /\ In sd sts).
  2:{ apply Forall2_sort; [|apply Forall2_with_In; exact Hsts].
      intros sd os ((Hd & _) & _). cbn. now rewrite Hd. }
  intros sd os ((Hd & Hcs) & Hin).
  unfold suite_matches, serialize_doc_suite.
  cbn [suite_doc cases fst snd fields serialize]. rewrite Hd.
  cbn [TestSuite.name TestSuite.status TestSuite.order TestSuite.total
       TestSuite.passed TestSuite.failed TestSuite.skipped].
  do 7 (split; [reflexivity|]).
  rewrite (HB sd Hin), !map_map. apply Forall2_map_left.
  apply Forall2_impl
    with (R1 := fun ct c =>
                  case_ok (ObjectId.str (_id rd))
                          (ObjectId.str (_id (fst sd))) ct c
                  /\ In ct (snd sd));
    [|apply Forall2_with_In; exact Hcs].
  intros ct c ((Hcd & Hls) & Hct). unfold case_matches.
  cbn [case_doc logs fst snd fields serialize]. rewrite Hcd.
  cbn [TestCase.name TestCase.status].
  do 2 (split; [reflexivity|]).
  rewrite HC.
  2:{ unfold case_docs_of. apply in_concat. exists (snd sd).
      split; [now apply in_map|exact Hct]. }
  rewrite map_map.
  etransitivity; [apply Permutation_map, Permutation_sort|].
  erewrite Forall2_map_eq; [reflexivity|].
  revert Hls. apply Forall2_impl. intros d l (_ & _ & E1 & E2 & _).
  exact (f_equal2 pair E1 E2).
Qed.

Lemma ingest_then_get_run_detail_witness :
  exists tree,
    get_run_detail "000000000000000000000000" after_nightly
    = (Return tree, after_nightly)
    /\ id (run_doc tree) = "000000000000000000000000"
    /\ TestRun.name (fields (run_doc tree)) = IngestRun.name nightly
    /\ TestRun.status (fields (run_doc tree)) = IngestRun.status nightly
    /\ Forall2 suite_matches (suites tree)
         (sort (fun os => Some (order_or_index os))
               (enumerate (IngestRun.suites nightly))).
Proof.
  apply (ingest_then_get_run_detail nightly empty_store after_nightly
           "000000000000000000000000").
  - reflexivity.
  - split; constructor.
  - vm_compute. reflexivity.
Defined.
